(** * AWS Athena integration: a shallow embedding and its properties

    The development follows the layout of the integration module:
    string primitives of the host language, the type-hint parser, the
    parameter binder, the prepared statement manager, the query execution
    state machine, the attribute projection engine and the lookup
    orchestrator.  Two revisions of the module are covered: the one with
    the resumption entry point (ten polling attempts, cached attribute
    plans) and the earlier one (fifteen attempts). *)

From Stdlib Require Import String Ascii List ZArith Lia Bool Arith PeanoNat.
From Equations Require Import Equations.
Import ListNotations.
Open Scope string_scope.
Open Scope list_scope.

Set Implicit Arguments.

(** ** Host-language strings

    Texts are sequences of code units below 256; code units from 256 on
    are outside the embedding.  Within that range the primitives follow
    the host: white space and line terminators are the code units 9 to
    13, 32 and 160, and the letters with a lower-case form are A to Z
    and the code units 192 to 222 other than 215. *)

Module Js.

Definition chr (n : nat) : ascii := ascii_of_nat n.

Definition LF : ascii := chr 10.
Definition CR : ascii := chr 13.
Definition backslash : ascii := chr 92.
Definition quote : ascii := chr 39.
Definition dquote : ascii := chr 34.

Definition between (lo hi : nat) (c : ascii) : bool :=
  let n := nat_of_ascii c in ((lo <=? n) && (n <=? hi))%nat.

Definition is_digit (c : ascii) : bool := between 48 57 c.
Definition is_upper (c : ascii) : bool := between 65 90 c.
Definition is_lower (c : ascii) : bool := between 97 122 c.

(** The class [\w] of the regular expression engine. *)
Definition is_word_char (c : ascii) : bool :=
  is_digit c || is_upper c || is_lower c || Ascii.eqb c "_".

(** White space and line terminators: what [trim] removes, what
    [parseInt] and [parseFloat] skip and what [\s] matches. *)
Definition is_space (c : ascii) : bool :=
  between 9 13 c || Ascii.eqb c " " || Ascii.eqb c (chr 160).

(** The capital letters above the ASCII range. *)
Definition is_upper_latin (c : ascii) : bool := between 192 214 c || between 216 222 c.

Definition lower_char (c : ascii) : ascii :=
  if is_upper c || is_upper_latin c then chr (nat_of_ascii c + 32) else c.

Fixpoint toLowerCase (s : string) : string :=
  match s with
  | EmptyString => EmptyString
  | String c r => String (lower_char c) (toLowerCase r)
  end.

Fixpoint trimStart (s : string) : string :=
  match s with
  | EmptyString => EmptyString
  | String c r => if is_space c then trimStart r else s
  end.

Fixpoint rev_string (acc s : string) : string :=
  match s with
  | EmptyString => acc
  | String c r => rev_string (String c acc) r
  end.

Definition trimEnd (s : string) : string :=
  rev_string EmptyString (trimStart (rev_string EmptyString s)).

Definition trim (s : string) : string := trimEnd (trimStart s).

(** [s.split(sep)] for a one-character separator: the list of fields is
    never empty ([split] of the empty text is one empty field). *)
Fixpoint split (sep : ascii) (s : string) : list string :=
  match s with
  | EmptyString => [EmptyString]
  | String c r =>
      if Ascii.eqb c sep then EmptyString :: split sep r
      else match split sep r with
           | f :: fs => String c f :: fs
           | [] => [String c EmptyString]
           end
  end.

(** [s.includes(c)] for a one-character needle. *)
Fixpoint includes (c : ascii) (s : string) : bool :=
  match s with
  | EmptyString => false
  | String d r => Ascii.eqb d c || includes c r
  end.

(** [parts.join(sep)]. *)
Fixpoint join (sep : string) (parts : list string) : string :=
  match parts with
  | [] => EmptyString
  | [p] => p
  | p :: ps => p ++ sep ++ join sep ps
  end.

(** Truthiness of a text: only the empty text is falsy. *)
Definition truthy (s : string) : bool :=
  match s with EmptyString => false | _ => true end.

(** Abrupt and normal completion of a call. *)
Record Error := { name : string; message : string }.

Definition mkError (msg : string) : Error := {| name := "Error"; message := msg |}.
Definition mkTypeError (msg : string) : Error := {| name := "TypeError"; message := msg |}.

Inductive completion (A : Type) : Type :=
| Return (a : A)
| Throw (e : Error).

Arguments Return {A} a.
Arguments Throw {A} e.

Definition returns {A} (c : completion A) : bool :=
  match c with Return _ => true | Throw _ => false end.

End Js.

Import Js.

(** ** Type-hint parser *)

Module TypeHints.

Record TypeHint := { index : nat; type : string }.

Record Parsed := { query : string; typeHints : list TypeHint }.

(** The longest run of word characters at the head of a text, and what
    follows it. *)
Fixpoint word_prefix (s : string) : string :=
  match s with
  | EmptyString => EmptyString
  | String c r => if is_word_char c then String c (word_prefix r) else EmptyString
  end.

Fixpoint after_word (s : string) : string :=
  match s with
  | EmptyString => EmptyString
  | String c r => if is_word_char c then after_word r else s
  end.

(** The optional group [(?::(\w+))?] tried on the text right after a
    placeholder mark: the captured tag, when the group matches. *)
Definition type_tag (rest : string) : option string :=
  match rest with
  | String c r =>
      if Ascii.eqb c ":" then
        match word_prefix r with
        | EmptyString => None
        | w => Some w
        end
      else None
  | EmptyString => None
  end.

(** The text left after the whole match. *)
Definition after_tag (rest : string) : string :=
  match type_tag rest, rest with
  | Some _, String _ r => after_word r
  | _, _ => rest
  end.

(** Position of the matcher of [/\?(?::(\w+))?/g] in the text: between
    matches, on the colon of a tag, or inside the tag name. *)
Inductive matcher := Text | TagColon | TagName.

Definition in_tag_name (m : matcher) : bool :=
  match m with TagName => true | _ => false end.

(** [query.replace(/\?(?::(\w+))?/g, callback)]: the callback pushes a
    hint with the running [parameterIndex] and the captured type
    ([typeHint || 'string']) and returns a bare mark. *)
Fixpoint replace_placeholders (m : matcher) (parameterIndex : nat) (query : string)
  : string * list TypeHint :=
  match query with
  | EmptyString => (EmptyString, [])
  | String c rest =>
      match m with
      | TagColon => replace_placeholders TagName parameterIndex rest
      | _ =>
          if in_tag_name m && is_word_char c then
            replace_placeholders TagName parameterIndex rest
          else if Ascii.eqb c "?" then
            match type_tag rest with
            | Some typeHint =>
                let (q, hs) := replace_placeholders TagColon (S parameterIndex) rest in
                (String "?" q, {| index := parameterIndex; type := typeHint |} :: hs)
            | None =>
                let (q, hs) := replace_placeholders Text (S parameterIndex) rest in
                (String "?" q, {| index := parameterIndex; type := "string" |} :: hs)
            end
          else
            let (q, hs) := replace_placeholders Text parameterIndex rest in
            (String c q, hs)
      end
  end.

Definition parseTypeHints (query : string) : Parsed :=
  let (q, hs) := replace_placeholders Text 0 query in
  {| query := q; typeHints := hs |}.

(** *** The parser as the specification describes it

    A template is cut at its placeholder marks; every piece after the
    first starts right after a mark.  The hint of a placeholder is the tag
    at the head of its piece, if any, and the canonical template keeps the
    pieces without their tags. *)

Fixpoint pieces (q : string) : string * list string :=
  match q with
  | EmptyString => (EmptyString, [])
  | String c r =>
      let (h, ts) := pieces r in
      if Ascii.eqb c "?" then (EmptyString, h :: ts) else (String c h, ts)
  end.

Definition placeholder_count (q : string) : nat := length (snd (pieces q)).

Definition hint_type (piece : string) : string :=
  match type_tag piece with Some w => w | None => "string" end.

Fixpoint number_from (i : nat) (types : list string) : list TypeHint :=
  match types with
  | [] => []
  | t :: ts => {| index := i; type := t |} :: number_from (S i) ts
  end.

Definition spec_hints (q : string) : list TypeHint :=
  number_from 0 (map hint_type (snd (pieces q))).

Fixpoint glue (ps : list string) : string :=
  match ps with
  | [] => EmptyString
  | p :: ps' => String "?" (p ++ glue ps')
  end.

Definition spec_canonical (q : string) : string :=
  fst (pieces q) ++ glue (map after_tag (snd (pieces q))).

(** A tag is chained when the text right after it would again read as a
    tag once the first one is removed. *)
Definition unchained (piece : string) : Prop := type_tag (after_tag piece) = None.

End TypeHints.

(** ** Numbers of the host language, as far as the binder meets them *)

Module Num.

Local Open Scope Z_scope.

(** Values [parseInt] can produce: not-a-number, an infinity, or an
    integer that a binary64 number holds exactly.  Negative zero is read
    as zero: the module only prints the value and tests it with [isNaN]. *)
Inductive number :=
| NaN
| Infinity (negative : bool)
| Int (z : Z).

Definition isNaN (n : number) : bool :=
  match n with NaN => true | _ => false end.

(** Rounding of a natural number to binary64: 53 significant bits, ties
    to even, overflow to infinity. *)
Definition to_double (n : Z) : number :=
  let bits := Z.log2 n + 1 in
  if bits <=? 53 then Int n
  else
    let shift := bits - 53 in
    let q := Z.shiftr n shift in
    let r := n mod 2 ^ shift in
    let half := 2 ^ (shift - 1) in
    let q' := if (half <? r) || ((r =? half) && Z.odd q) then q + 1 else q in
    let v := Z.shiftl q' shift in
    if 2 ^ 1024 <=? v then Infinity false else Int v.

Definition negate (n : number) : number :=
  match n with
  | NaN => NaN
  | Infinity s => Infinity (negb s)
  | Int z => Int (- z)
  end.

Definition digit_value (c : ascii) : Z := Z.of_nat (nat_of_ascii c) - 48.

Fixpoint digits_prefix (s : string) : string :=
  match s with
  | EmptyString => EmptyString
  | String c r => if is_digit c then String c (digits_prefix r) else EmptyString
  end.

Fixpoint decimal_value (acc : Z) (ds : string) : Z :=
  match ds with
  | EmptyString => acc
  | String c r => decimal_value (10 * acc + digit_value c) r
  end.

(** [parseInt(s, 10)]: leading blanks are skipped, one sign is read, then
    the longest run of decimal digits; what follows the digits is
    ignored, and no digit at all gives not-a-number.  The digits are
    read exactly and rounded once (the language lets an engine drop
    digits after the twentieth). *)
Definition parseInt (s : string) : number :=
  let S := trimStart s in
  let (negative, S) :=
    match S with
    | String c r =>
        if Ascii.eqb c "-" then (true, r)
        else if Ascii.eqb c "+" then (false, r)
        else (false, S)
    | EmptyString => (false, S)
    end in
  match digits_prefix S with
  | EmptyString => NaN
  | ds =>
      let v := to_double (decimal_value 0 ds) in
      if negative then negate v else v
  end.

(** Decimal numeral of a natural number. *)
Fixpoint numeral_fuel (fuel : nat) (n : Z) (acc : string) : string :=
  match fuel with
  | O => acc
  | S f =>
      let acc' := String (chr (Z.to_nat (48 + n mod 10))) acc in
      if n <? 10 then acc' else numeral_fuel f (n / 10) acc'
  end.

Definition numeral (n : Z) : string :=
  numeral_fuel (S (Z.to_nat (Z.log2 n))) n EmptyString.

Definition is_double (candidate target : Z) : bool :=
  match to_double candidate with
  | Int v => v =? target
  | _ => false
  end.

(** The decimal text with the fewest significant digits that reads back
    as the same binary64 integer: multiples of [10 ^ e] next to [z] are
    tried from the coarsest scale down. *)
Fixpoint shortest (e : nat) (z : Z) : Z :=
  let p := 10 ^ Z.of_nat e in
  let lo := z / p * p in
  let hi := lo + p in
  let pick :=
    match is_double lo z, is_double hi z with
    | true, true =>
        if z - lo <? hi - z then Some lo
        else if hi - z <? z - lo then Some hi
        else if Z.even (lo / p) then Some lo else Some hi
    | true, false => Some lo
    | false, true => Some hi
    | false, false => None
    end in
  match pick, e with
  | Some w, _ => w
  | None, O => z
  | None, S e' => shortest e' z
  end.

Fixpoint strip_zeros (rev_digits : string) : string :=
  match rev_digits with
  | String c r => if Ascii.eqb c "0" then strip_zeros r else rev_digits
  | EmptyString => EmptyString
  end.

(** [String(n)] for a positive integer: plain digits below [10 ^ 21],
    exponent notation from there on. *)
Definition positive_toString (z : Z) : string :=
  let d := String.length (numeral z) in
  let w := shortest (d - 1) z in
  let text := numeral w in
  if w <? 10 ^ 21 then text
  else
    let n := String.length text in
    let significant := rev_string EmptyString (strip_zeros (rev_string EmptyString text)) in
    match significant with
    | String c EmptyString => String c ("e+" ++ numeral (Z.of_nat (n - 1)))
    | String c more => String c ("." ++ more ++ "e+" ++ numeral (Z.of_nat (n - 1)))
    | EmptyString => text
    end.

Definition toString (n : number) : string :=
  match n with
  | NaN => "NaN"
  | Infinity false => "Infinity"
  | Infinity true => "-Infinity"
  | Int z =>
      if z =? 0 then "0"
      else if z <? 0 then "-" ++ positive_toString (- z)
      else positive_toString z
  end.

(** Whether [parseFloat] finds a number at the head of a text: after
    blanks and one sign, the word Infinity, a digit, or a dot followed by
    a digit. *)
Definition starts_with_digit (s : string) : bool :=
  match s with String c _ => is_digit c | EmptyString => false end.

Definition parseFloat_is_number (s : string) : bool :=
  let S := trimStart s in
  let S :=
    match S with
    | String c r => if Ascii.eqb c "-" || Ascii.eqb c "+" then r else S
    | EmptyString => S
    end in
  String.prefix "Infinity" S
  || starts_with_digit S
  || match S with
     | String c r => Ascii.eqb c "." && starts_with_digit r
     | EmptyString => false
     end.

End Num.

(** ** Parameter binder *)

Module Binder.

(** [.replace(/(\r\n|\n|\r)/gm, '')] *)
Fixpoint remove_line_breaks (s : string) : string :=
  match s with
  | EmptyString => EmptyString
  | String c r =>
      if Ascii.eqb c CR || Ascii.eqb c LF then remove_line_breaks r
      else String c (remove_line_breaks r)
  end.

(** [.replace(/\\/g, '\\\\')] *)
Fixpoint double_backslashes (s : string) : string :=
  match s with
  | EmptyString => EmptyString
  | String c r =>
      if Ascii.eqb c backslash then String backslash (String backslash (double_backslashes r))
      else String c (double_backslashes r)
  end.

(** [.replace(/'/g, "\\'")] *)
Fixpoint escape_quotes (s : string) : string :=
  match s with
  | EmptyString => EmptyString
  | String c r =>
      if Ascii.eqb c quote then String backslash (String quote (escape_quotes r))
      else String c (escape_quotes r)
  end.

Definition escapeEntityValue (entityValue : string) : string :=
  escape_quotes (double_backslashes (remove_line_breaks entityValue)).

Definition one_of (options : list string) (s : string) : bool :=
  existsb (String.eqb s) options.

Definition cannot_convert (entityValue kind : string) : Error :=
  mkError ("Cannot convert " ++ String dquote entityValue ++ String dquote (" to " ++ kind ++ " type")).

Section WithFloats.

(** Printing of a parsed floating-point value is left to the host:
    [floatText v] stands for [String(parseFloat(v))] on the texts where
    [parseFloat] finds a number. *)
Variable floatText : string -> string.

Definition createParameterValue (entityValue type : string) : completion string :=
  let escapedValue := escapeEntityValue entityValue in
  let t := toLowerCase type in
  if one_of ["integer"; "int"; "bigint"] t then
    let intValue := Num.parseInt entityValue in
    if Num.isNaN intValue then Throw (cannot_convert entityValue "integer")
    else Return (Num.toString intValue)
  else if one_of ["decimal"; "double"; "float"; "real"] t then
    if negb (Num.parseFloat_is_number entityValue)
    then Throw (cannot_convert entityValue "numeric")
    else Return (floatText entityValue)
  else if one_of ["boolean"; "bool"] t then
    let lowerValue := toLowerCase entityValue in
    if String.eqb lowerValue "true" || String.eqb lowerValue "1" then Return "true"
    else if String.eqb lowerValue "false" || String.eqb lowerValue "0" then Return "false"
    else Throw (cannot_convert entityValue "boolean")
  else
    Return (String quote (escapedValue ++ String quote EmptyString)).

End WithFloats.

End Binder.

(** ** Data of the integration *)

Module Data.

Import TypeHints.

(** One compiled attribute: [{ label, attribute, parser }]. *)
Record AttributeSpec := { label : string; attribute : string; parser : option string }.

(** What [processAttributeOption] returns: one entry per comma-separated
    token, where [None] is an [undefined] entry. *)
Definition Plan := list (option AttributeSpec).

(** The user options the module reads.  [region] is the value of the
    region option and [region_object] the identity of the object that
    holds it (the earlier revision compares the objects).  Attribute
    options may be texts or absent; [_typeHints] is the slot
    [ensurePreparedStatement] writes. *)
Record Options := {
  region : string;
  region_object : nat;
  endpoint : option string;
  accessKeyId : string;
  secretAccessKey : string;
  workGroup : string;
  outputLocation : string;
  query : string;
  limit : nat;
  documentTitleAttribute : option string;
  detailAttributes : option string;
  summaryAttributes : option string;
  maxSummaryDocuments : nat;
  _typeHints : option (list TypeHint)
}.

Definition set_typeHints (o : Options) (hs : list TypeHint) : Options :=
  {| region := region o; region_object := region_object o; endpoint := endpoint o; accessKeyId := accessKeyId o;
     secretAccessKey := secretAccessKey o; workGroup := workGroup o;
     outputLocation := outputLocation o; query := query o; limit := limit o;
     documentTitleAttribute := documentTitleAttribute o;
     detailAttributes := detailAttributes o;
     summaryAttributes := summaryAttributes o;
     maxSummaryDocuments := maxSummaryDocuments o;
     _typeHints := Some hs |}.

(** A result row as the host object built for it: the own properties,
    name and text ([None] for a column without value), in the order the
    host lists them: array indices in ascending order, then the other
    names in the order of their first assignment. *)
Definition RowObject := list (string * option string).

Fixpoint all_digits (s : string) : bool :=
  match s with
  | EmptyString => true
  | String c r => is_digit c && all_digits r
  end.

(** An array index: the numeral, without sign or leading zero, of a
    number below [2 ^ 32 - 1]. *)
Definition array_index (k : string) : option Z :=
  match k with
  | EmptyString => None
  | String c _ =>
      if all_digits k && (negb (Ascii.eqb c "0") || String.eqb k "0")
      then let v := Num.decimal_value 0 k in
           if (v <? 4294967295)%Z then Some v else None
      else None
  end.

(** Whether a new property [k] is listed before the property [k']. *)
Definition listed_before (k k' : string) : bool :=
  match array_index k, array_index k' with
  | Some i, Some j => (i <? j)%Z
  | Some _, None => true
  | None, _ => false
  end.

Fixpoint has_own (k : string) (o : RowObject) : bool :=
  match o with
  | [] => false
  | (k', _) :: rest => String.eqb k' k || has_own k rest
  end.

Fixpoint overwrite (k : string) (v : option string) (o : RowObject) : RowObject :=
  match o with
  | [] => []
  | (k', v') :: rest =>
      if String.eqb k' k then (k, v) :: rest else (k', v') :: overwrite k v rest
  end.

Fixpoint insert (k : string) (v : option string) (o : RowObject) : RowObject :=
  match o with
  | [] => [(k, v)]
  | (k', v') :: rest =>
      if listed_before k k' then (k, v) :: o else (k', v') :: insert k v rest
  end.

(** [obj[k] = v] on an object whose properties are all own data
    properties: a name already present keeps its place. *)
Definition assign (k : string) (v : option string) (o : RowObject) : RowObject :=
  if has_own k o then overwrite k v o else insert k v o.

(** Remote inputs and outputs, with the fields the module reads. *)
Record QueryParams := {
  QueryString : string;
  WorkGroup : string;
  ResultConfiguration : option string
}.

Record Statistics := {
  EngineExecutionTimeInMillis : option Z;
  DataScannedInBytes : option Z;
  DataProcessedInBytes : option Z;
  QueryQueueTimeInMillis : option Z;
  QueryPlanningTimeInMillis : option Z;
  ServiceProcessingTimeInMillis : option Z
}.

Record QueryExecution := {
  State : string;
  StateChangeReason : option string;
  SubmissionDateTime : option Z;
  CompletionDateTime : option Z;
  Stats : option Statistics
}.

Record Row := { Data : list (option string) }.

Record ResultSet := { Rows : option (list Row) }.

(** The commands sent through [athenaClient.send], indexed by what they
    resolve to. *)
Inductive Command : Type -> Type :=
| StartQueryExecutionCommand (p : QueryParams) : Command string
| GetQueryExecutionCommand (QueryExecutionId : string) : Command QueryExecution
| GetQueryResultsCommand (QueryExecutionId : string) (MaxResults : nat) : Command ResultSet
| CreatePreparedStatementCommand (StatementName QueryStatement WorkGroup : string) : Command unit
| UpdatePreparedStatementCommand (StatementName QueryStatement WorkGroup : string) : Command unit
| GetPreparedStatementCommand (StatementName WorkGroup : string) : Command unit.

(** What a call does to the outside, in order. *)
Inductive Event :=
| Slept (ms : Z)
| Sent (R : Type) (c : Command R).

Arguments Sent {R} c.

Definition is_sleep (e : Event) : bool :=
  match e with Slept _ => true | _ => false end.

Definition is_status_check (e : Event) : bool :=
  match e with Sent (GetQueryExecutionCommand _) => true | _ => false end.

Definition is_existence_check (e : Event) : bool :=
  match e with Sent (GetPreparedStatementCommand _ _) => true | _ => false end.

Definition is_create (e : Event) : bool :=
  match e with Sent (CreatePreparedStatementCommand _ _ _) => true | _ => false end.

Definition is_update (e : Event) : bool :=
  match e with Sent (UpdatePreparedStatementCommand _ _ _) => true | _ => false end.

Definition is_create_or_update (e : Event) : bool := is_create e || is_update e.

Definition count (p : Event -> bool) (t : list Event) : nat := length (filter p t).

(** Execution statistics handed to the caller, complete or partial. *)
Record ExecutionStats := {
  runtimeMs : option Z;
  runtimeSeconds : option string;
  elapsedMs : option Z;
  elapsedSeconds : option string;
  dataScannedBytes : option Z;
  dataProcessedBytes : option Z;
  queryQueueTimeMs : option Z;
  queryPlanningTimeMs : option Z;
  serviceProcessingTimeMs : option Z;
  status : option string
}.

(** The outcome of an execution: [results] is absent on a suspended
    execution of [executeAthenaQuery]. *)
Record QueryResult := {
  results : option (list RowObject);
  complete : bool;
  queryExecutionId : string;
  executionStats : option ExecutionStats
}.

(** The module-level variables. *)
Record Globals := {
  originalOptions : option Options;
  athenaClient : bool;
  currentPreparedStatement : option string;
  currentQuery : option string;
  cachedDocumentTitleAttributes : option Plan;
  cachedDetailAttributes : option Plan;
  cachedSummaryAttributes : option Plan;
  lastDocumentTitleAttributeOption : option (option string);
  lastDetailAttributesOption : option (option string);
  lastSummaryAttributesOption : option (option string)
}.

Definition initial : Globals :=
  {| originalOptions := None; athenaClient := false;
     currentPreparedStatement := None; currentQuery := None;
     cachedDocumentTitleAttributes := None; cachedDetailAttributes := None;
     cachedSummaryAttributes := None;
     lastDocumentTitleAttributeOption := None;
     lastDetailAttributesOption := None;
     lastSummaryAttributesOption := None |}.

Definition set_statement (g : Globals) (statement query : option string) : Globals :=
  {| originalOptions := originalOptions g; athenaClient := athenaClient g;
     currentPreparedStatement := statement; currentQuery := query;
     cachedDocumentTitleAttributes := cachedDocumentTitleAttributes g;
     cachedDetailAttributes := cachedDetailAttributes g;
     cachedSummaryAttributes := cachedSummaryAttributes g;
     lastDocumentTitleAttributeOption := lastDocumentTitleAttributeOption g;
     lastDetailAttributesOption := lastDetailAttributesOption g;
     lastSummaryAttributesOption := lastSummaryAttributesOption g |}.

Definition set_client (g : Globals) (o : option Options) (c : bool) : Globals :=
  {| originalOptions := o; athenaClient := c;
     currentPreparedStatement := currentPreparedStatement g;
     currentQuery := currentQuery g;
     cachedDocumentTitleAttributes := cachedDocumentTitleAttributes g;
     cachedDetailAttributes := cachedDetailAttributes g;
     cachedSummaryAttributes := cachedSummaryAttributes g;
     lastDocumentTitleAttributeOption := lastDocumentTitleAttributeOption g;
     lastDetailAttributesOption := lastDetailAttributesOption g;
     lastSummaryAttributesOption := lastSummaryAttributesOption g |}.

Definition set_plans (g : Globals) (title detail summary : option Plan)
    (lastTitle lastDetail lastSummary : option (option string)) : Globals :=
  {| originalOptions := originalOptions g; athenaClient := athenaClient g;
     currentPreparedStatement := currentPreparedStatement g;
     currentQuery := currentQuery g;
     cachedDocumentTitleAttributes := title;
     cachedDetailAttributes := detail;
     cachedSummaryAttributes := summary;
     lastDocumentTitleAttributeOption := lastTitle;
     lastDetailAttributesOption := lastDetail;
     lastSummaryAttributesOption := lastSummary |}.

End Data.

(** ** Asynchronous calls

    An asynchronous function is a state transformer over the remote
    service, the clock and the module-level variables; it completes
    normally or abruptly and leaves the trace of what it did to the
    outside.  State changes made before an exception stay. *)

Module Async.

Import Data.

Section Client.

Variable rstate : Type.

Record World := { remote : rstate; now : Z; vars : Globals }.

Record Run (A : Type) := { result : completion A; final : World; trace : list Event }.

Definition Async (A : Type) : Type := World -> Run A.

Definition ret {A} (a : A) : Async A :=
  fun w => {| result := Return a; final := w; trace := [] |}.

Definition throw {A} (e : Error) : Async A :=
  fun w => {| result := Throw e; final := w; trace := [] |}.

Definition bind {A B} (m : Async A) (k : A -> Async B) : Async B :=
  fun w =>
    match m w with
    | {| result := Return a; final := w1; trace := t1 |} =>
        match k a w1 with
        | {| result := r; final := w2; trace := t2 |} =>
            {| result := r; final := w2; trace := t1 ++ t2 |}
        end
    | {| result := Throw e; final := w1; trace := t1 |} =>
        {| result := Throw e; final := w1; trace := t1 |}
    end.

(** [try { m } catch (error) { handler }] *)
Definition catch {A} (m : Async A) (handler : Error -> Async A) : Async A :=
  fun w =>
    match m w with
    | {| result := Return a; final := w1; trace := t1 |} =>
        {| result := Return a; final := w1; trace := t1 |}
    | {| result := Throw e; final := w1; trace := t1 |} =>
        match handler e w1 with
        | {| result := r; final := w2; trace := t2 |} =>
            {| result := r; final := w2; trace := t1 ++ t2 |}
        end
    end.

Definition lift {A} (c : completion A) : Async A :=
  fun w => {| result := c; final := w; trace := [] |}.

Definition read_vars : Async Globals :=
  fun w => {| result := Return (vars w); final := w; trace := [] |}.

Definition write_vars (g : Globals) : Async unit :=
  fun w => {| result := Return tt;
              final := {| remote := remote w; now := now w; vars := g |};
              trace := [] |}.

Definition date_now : Async Z :=
  fun w => {| result := Return (now w); final := w; trace := [] |}.

(** [await new Promise((resolve) => setTimeout(resolve, ms))] *)
Definition sleep (ms : Z) : Async unit :=
  fun w => {| result := Return tt;
              final := {| remote := remote w; now := (now w + ms)%Z; vars := vars w |};
              trace := [Slept ms] |}.

(** The remote service behind [athenaClient.send]. *)
Variable send : forall R : Type, Command R -> rstate -> completion R * rstate.

(** [await athenaClient.send(command)] *)
Definition await_send {R} (c : Command R) : Async R :=
  fun w =>
    let (r, remote') := send c (remote w) in
    {| result := r;
       final := {| remote := remote'; now := now w; vars := vars w |};
       trace := [Sent c] |}.

End Client.

Arguments ret {rstate A} a.
Arguments throw {rstate A} e.
Arguments lift {rstate A} c.
Arguments read_vars {rstate}.
Arguments write_vars {rstate} g.
Arguments date_now {rstate}.
Arguments sleep {rstate} ms.

Declare Scope async_scope.
Delimit Scope async_scope with async.
Notation "x <- m ;; k" := (bind m (fun x => k))
  (at level 61, m at next level, right associativity) : async_scope.
Notation "m ;;; k" := (bind m (fun _ => k))
  (at level 61, right associativity) : async_scope.

End Async.

(** ** Prepared statement manager *)

Module Statements.

Import Data Async.
Local Open Scope async_scope.

(** [.replace(/\s+/g, '_')] on the directory name *)
Fixpoint underscore_blanks (in_blank : bool) (s : string) : string :=
  match s with
  | EmptyString => EmptyString
  | String c r =>
      if is_space c then
        if in_blank then underscore_blanks true r
        else String "_" (underscore_blanks true r)
      else String c (underscore_blanks false r)
  end.

(** [options.workGroup || 'primary'] *)
Definition workGroup_or_primary (o : Options) : string :=
  if truthy (workGroup o) then workGroup o else "primary".

Definition same (a : option string) (b : string) : bool :=
  match a with Some x => String.eqb x b | None => false end.

Definition is_null {A} (a : option A) : bool :=
  match a with None => true | Some _ => false end.

Section Client.

Variable rstate : Type.
Variable send : forall R : Type, Command R -> rstate -> completion R * rstate.

(** [path.basename(__dirname)] *)
Variable basename : string.

Definition statementName : string :=
  "polarity_prepared_statement_" ++ underscore_blanks false basename.

(** [ensurePreparedStatement]: the result is the cached handle together
    with the options object, whose [_typeHints] the call has set. *)
Definition ensurePreparedStatement (query : string) (options : Options)
  : Async rstate (option string * Options) :=
  let parsed := TypeHints.parseTypeHints query in
  let processedQuery := TypeHints.query parsed in
  let typeHints := TypeHints.typeHints parsed in
  let options := set_typeHints options typeHints in
  g <- read_vars ;;
  (if negb (same (currentQuery g) processedQuery) || is_null (currentPreparedStatement g)
   then
     statementExists <-
       catch
         (await_send send
            (GetPreparedStatementCommand statementName (workGroup_or_primary options)) ;;;
          ret true)
         (fun _ => ret false) ;;
     (if statementExists : bool then
        await_send send
          (UpdatePreparedStatementCommand statementName processedQuery
             (workGroup_or_primary options))
      else
        await_send send
          (CreatePreparedStatementCommand statementName processedQuery
             (workGroup_or_primary options))) ;;;
     g <- read_vars ;;
     write_vars (set_statement g (Some statementName) (Some processedQuery))
   else ret tt) ;;;
  g <- read_vars ;;
  ret (currentPreparedStatement g, options).

End Client.

End Statements.

(** ** Query execution state machine *)

Module Execution.

Import Data Async.
Local Open Scope async_scope.

(** The two revisions of the module. *)
Inductive Revision := Resumable | Earlier.

Definition MAX_QUERY_STATUS_POLLING_ATTEMPTS (r : Revision) : nat :=
  match r with Resumable => 10 | Earlier => 15 end.

Definition POLLING_WAIT_INTERVAL : Z := 3000.

Definition pending (queryStatus : string) : bool :=
  String.eqb queryStatus "RUNNING" || String.eqb queryStatus "QUEUED".

Definition failed_or_cancelled (queryStatus : string) : bool :=
  String.eqb queryStatus "FAILED" || String.eqb queryStatus "CANCELLED".

(** [x || null] on a number *)
Definition or_null (x : option Z) : option Z :=
  match x with
  | Some z => if (z =? 0)%Z then None else Some z
  | None => None
  end.

Definition or_else {A} (x y : option A) : option A :=
  match x with Some _ => x | None => y end.

Fixpoint zeros (n : nat) (s : string) : string :=
  match n with
  | O => s
  | S k => String "0" (zeros k s)
  end.

(** A numeral padded with zeros on the left up to a width. *)
Definition pad_left (width : nat) (s : string) : string :=
  zeros (width - String.length s) s.

(** [(ms / 1000).toFixed(3)] on a whole number of milliseconds *)
Definition seconds_text (ms : Z) : string :=
  let a := Z.abs ms in
  let body : string :=
    (Num.numeral (a / 1000) ++ "." ++ pad_left 3 (Num.numeral (a mod 1000)))%string in
  if (ms <? 0)%Z then ("-" ++ body)%string else body.

(** [calculateElapsedTime]: no submission time, or one that is not a
    date, gives no elapsed time. *)
Definition calculateElapsedTime (submissionTime : option Z) (date_now : Z)
  : option Z * option string :=
  match submissionTime with
  | None => (None, None)
  | Some t =>
      let elapsedMs := Z.max 0 (date_now - t) in
      (Some elapsedMs, Some (seconds_text elapsedMs))
  end.

Definition statistics_or_empty (q : option QueryExecution) : Statistics :=
  match q with
  | Some qe =>
      match Stats qe with
      | Some st => st
      | None => Build_Statistics None None None None None None
      end
  | None => Build_Statistics None None None None None None
  end.

Definition incompleteStats (statusResult : option QueryExecution) (status : string)
    (date_now : Z) : ExecutionStats :=
  let partialStats := statistics_or_empty statusResult in
  let submissionTime :=
    match statusResult with Some qe => SubmissionDateTime qe | None => None end in
  let (elapsedMs, elapsedSeconds) := calculateElapsedTime submissionTime date_now in
  {| runtimeMs := None; runtimeSeconds := None;
     elapsedMs := elapsedMs; elapsedSeconds := elapsedSeconds;
     dataScannedBytes := or_null (DataScannedInBytes partialStats);
     dataProcessedBytes := None; queryQueueTimeMs := None;
     queryPlanningTimeMs := None; serviceProcessingTimeMs := None;
     status := Some status |}.

Definition queryStats (qe : QueryExecution) : ExecutionStats :=
  let executionStats := statistics_or_empty (Some qe) in
  let runtime :=
    match SubmissionDateTime qe, CompletionDateTime qe with
    | Some s, Some c => Some (c - s)%Z
    | _, _ => None
    end in
  let athenaRuntimeMs := or_null (EngineExecutionTimeInMillis executionStats) in
  {| runtimeMs := or_else athenaRuntimeMs runtime;
     runtimeSeconds :=
       or_else (option_map seconds_text athenaRuntimeMs) (option_map seconds_text runtime);
     elapsedMs := None; elapsedSeconds := None;
     dataScannedBytes := or_null (DataScannedInBytes executionStats);
     dataProcessedBytes := or_null (DataProcessedInBytes executionStats);
     queryQueueTimeMs := or_null (QueryQueueTimeInMillis executionStats);
     queryPlanningTimeMs := or_null (QueryPlanningTimeInMillis executionStats);
     serviceProcessingTimeMs := or_null (ServiceProcessingTimeInMillis executionStats);
     status := None |}.

(** Rows to row objects: the first row holds the column names. *)
Definition header_at (headers : list (option string)) (index : nat) : string :=
  match nth_error headers index with
  | Some (Some h) => h
  | _ => "undefined"
  end.

(** [obj[name] = text] on an object literal.  The name [__proto__]
    reaches the setter of the prototype, which ignores a value that is
    a text or undefined: no property is stored. *)
Definition store_cell (name : string) (text : option string) (obj : RowObject) : RowObject :=
  if String.eqb name "__proto__" then obj else assign name text obj.

Fixpoint fill (headers : list (option string)) (index : nat) (cols : list (option string))
    (obj : RowObject) : RowObject :=
  match cols with
  | [] => obj
  | col :: more => fill headers (S index) more (store_cell (header_at headers index) col obj)
  end.

Definition rows_to_objects (rows : option (list Row)) : list RowObject :=
  match rows with
  | Some (header :: data) => map (fun row => fill (Data header) 0 (Data row) []) data
  | _ => []
  end.

(** [options.limit || 100] *)
Definition limit_or_default (o : Options) : nat :=
  match limit o with O => 100 | n => n end.

(** Text search used on the submission error. *)
Fixpoint includes_text (needle hay : string) : bool :=
  String.prefix needle hay
  || match hay with
     | EmptyString => false
     | String _ r => includes_text needle r
     end.

Fixpoint non_space_prefix (s : string) : string :=
  match s with
  | EmptyString => EmptyString
  | String c r => if is_space c then EmptyString else String c (non_space_prefix r)
  end.

(** [error.message.match(/bucket ([^\s]+)/)] *)
Fixpoint bucket_match (s : string) : option string :=
  match s with
  | EmptyString => None
  | String _ r =>
      if String.prefix "bucket " s then
        match non_space_prefix (String.substring 7 (String.length s - 7) s) with
        | EmptyString => bucket_match r
        | w => Some w
        end
      else bucket_match r
  end.

Definition start_error (error : Error) : Error :=
  if String.eqb (name error) "InvalidRequestException"
     && truthy (message error) && includes_text "output bucket" (message error)
  then
    let bucketName :=
      match bucket_match (message error) with Some b => b | None => "unknown" end in
    mkError ("S3 output bucket error: " ++ message error
             ++ ". Please ensure the bucket '" ++ bucketName
             ++ "' exists and the IAM user has s3:PutObject and s3:GetBucketLocation permissions, or configure a WorkGroup with a default output location.")
  else
    mkError ("Failed to start Athena query: "
             ++ (if truthy (message error) then message error
                 else if truthy (name error) then name error
                 else "Unknown error")).

(** A template literal prints an absent value as the word undefined. *)
Definition interpolate (x : option string) : string :=
  match x with Some s => s | None => "undefined" end.

(** How the polling loop ends: by the [return] inside it, or by leaving
    the [while] with the last status. *)
Inductive LoopEnd :=
| Returned (r : QueryResult)
| Left (queryStatus : string) (statusResult : option QueryExecution).

Section Client.

Variable rstate : Type.
Variable send : forall R : Type, Command R -> rstate -> completion R * rstate.
Variable revision : Revision.

Definition suspended (queryExecutionId : string) (statusResult : option QueryExecution)
  : Async rstate LoopEnd :=
  match revision with
  | Resumable =>
      t <- date_now ;;
      ret (Returned {| results := None; complete := false;
                       queryExecutionId := queryExecutionId;
                       executionStats := Some (incompleteStats statusResult "RUNNING" t) |})
  | Earlier =>
      ret (Returned {| results := None; complete := false;
                       queryExecutionId := queryExecutionId;
                       executionStats := None |})
  end.

(** The [while (queryStatus === 'RUNNING' || queryStatus === 'QUEUED')]
    loop. *)
Equations? poll (queryExecutionId : string) (attempts : nat)
    (statusResult : option QueryExecution) (queryStatus : string)
  : Async rstate LoopEnd
  by wf (MAX_QUERY_STATUS_POLLING_ATTEMPTS revision - attempts) lt :=
poll queryExecutionId attempts statusResult queryStatus with pending queryStatus := {
  | false := ret (Left queryStatus statusResult)
  | true with le_lt_dec (MAX_QUERY_STATUS_POLLING_ATTEMPTS revision) attempts := {
    | left _ := suspended queryExecutionId statusResult
    | right _ :=
        sleep POLLING_WAIT_INTERVAL ;;;
        statusResult <- await_send send (GetQueryExecutionCommand queryExecutionId) ;;
        poll queryExecutionId (S attempts) (Some statusResult) (State statusResult) } }.
Proof. lia. Qed.

Definition stats_of (qe : QueryExecution) : option ExecutionStats :=
  match revision with
  | Resumable => Some (queryStats qe)
  | Earlier => None
  end.

Definition executeAthenaQuery (queryParams : QueryParams) (options : Options)
  : Async rstate QueryResult :=
  queryExecutionId <-
    catch (await_send send (StartQueryExecutionCommand queryParams))
          (fun error => throw (start_error error)) ;;
  e <- poll queryExecutionId 0 None "RUNNING" ;;
  match e with
  | Returned r => ret r
  | Left queryStatus statusResult =>
      match statusResult with
      | None => throw (mkTypeError "Cannot read properties of null (reading 'QueryExecution')")
      | Some qe =>
          if failed_or_cancelled queryStatus then
            throw (mkError
                     (if String.eqb queryStatus "FAILED"
                      then "Query failed: " ++ interpolate (StateChangeReason qe)
                      else "Query was cancelled"))
          else
            resultsResponse <-
              await_send send (GetQueryResultsCommand queryExecutionId (limit_or_default options)) ;;
            ret {| results := Some (rows_to_objects (Rows resultsResponse));
                   complete := true;
                   queryExecutionId := queryExecutionId;
                   executionStats := stats_of qe |}
      end
  end.

(** The resumption status check (resumable revision only). *)
Definition checkQueryStatusAndGetResults (queryExecutionId : string) (options : Options)
  : Async rstate QueryResult :=
  statusResult <- await_send send (GetQueryExecutionCommand queryExecutionId) ;;
  let queryStatus := State statusResult in
  if String.eqb queryStatus "SUCCEEDED" then
    resultsResponse <-
      await_send send (GetQueryResultsCommand queryExecutionId (limit_or_default options)) ;;
    ret {| results := Some (rows_to_objects (Rows resultsResponse));
           complete := true;
           queryExecutionId := queryExecutionId;
           executionStats := Some (queryStats statusResult) |}
  else if pending queryStatus then
    t <- date_now ;;
    ret {| results := Some [];
           complete := false;
           queryExecutionId := queryExecutionId;
           executionStats := Some (incompleteStats (Some statusResult) queryStatus t) |}
  else if failed_or_cancelled queryStatus then
    let errorReason :=
      match StateChangeReason statusResult with
      | Some r => if truthy r then r else "Unknown error"
      | None => "Unknown error"
      end in
    throw (mkError ("Query " ++ toLowerCase queryStatus ++ ": " ++ errorReason))
  else
    throw (mkError ("Unknown query status: " ++ queryStatus)).

End Client.

End Execution.

(** ** Attribute projection engine *)

Module Attributes.

Import Data.

(** The date library the module calls.  Its entry points may throw, may
    produce an invalid date, or a valid one that prints as a short
    localized date and time.  [toNumber] is the unary plus applied to the
    attribute before [fromSeconds] and [fromMillis]. *)
Record DateLibrary := {
  DateTime : Type;
  number : Type;
  toNumber : string -> number;
  fromISO : string -> completion DateTime;
  fromHTTP : string -> completion DateTime;
  fromRFC2822 : string -> completion DateTime;
  fromSQL : string -> completion DateTime;
  fromSeconds : number -> completion DateTime;
  fromMillis : number -> completion DateTime;
  isValid : DateTime -> bool;
  toLocaleString : DateTime -> completion string
}.

Definition and_then {A B} (c : completion A) (k : A -> completion B) : completion B :=
  match c with Return a => k a | Throw e => Throw e end.

Definition try_catch {A} (body : completion A) (handler : Error -> completion A)
  : completion A :=
  match body with Return a => Return a | Throw e => handler e end.

(** Texts kept as tags and detail values: everything but an absent or
    empty value. *)
Definition present (v : option string) : bool :=
  match v with Some s => truthy s | None => false end.

(** [`${n} ${n === 1 ? 'result' : 'results'}`] *)
Definition count_tag (n : nat) : string :=
  Num.numeral (Z.of_nat n) ++ (if (n =? 1)%nat then " result" else " results").

(** [[...new Set(tags)]]: first occurrences, in order. *)
Fixpoint unique_from (seen : list string) (tags : list string) : list string :=
  match tags with
  | [] => []
  | t :: rest =>
      if existsb (String.eqb t) seen then unique_from seen rest
      else t :: unique_from (t :: seen) rest
  end.

Definition unique (tags : list string) : list string := unique_from [] tags.

(** One token of an attribute option. *)
Definition processToken (column : string) : option AttributeSpec :=
  match split ":" column with
  | [t0] => Some {| label := trim t0; attribute := trim t0; parser := None |}
  | [t0; t1] => Some {| label := trim t0; attribute := trim t1; parser := None |}
  | [t0; t1; t2] =>
      Some {| label := trim t0; attribute := trim t2; parser := Some (toLowerCase (trim t1)) |}
  | _ => None
  end.

Definition processAttributeOption (attributeOption : string) : Plan :=
  map processToken (split "," attributeOption).

(** [option && typeof option === 'string' && option.trim().length > 0] *)
Definition configured (option : option string) : bool :=
  match option with Some s => truthy s && truthy (trim s) | None => false end.

Definition same_option (last : option (option string)) (current : option string) : bool :=
  match last, current with
  | Some (Some a), Some b => String.eqb a b
  | Some None, None => true
  | _, _ => false
  end.

Definition refresh (last : option (option string)) (cached : option Plan)
    (current : option string) : option Plan * option (option string) :=
  if same_option last current then (cached, last)
  else ((if configured current
         then match current with Some s => Some (processAttributeOption s) | None => None end
         else None),
        Some current).

Definition setCachedDisplayAttributes (options : Options) (g : Globals) : Globals :=
  let (title, lastTitle) :=
    refresh (lastDocumentTitleAttributeOption g) (cachedDocumentTitleAttributes g)
            (documentTitleAttribute options) in
  let (detail, lastDetail) :=
    refresh (lastDetailAttributesOption g) (cachedDetailAttributes g)
            (detailAttributes options) in
  let (summary, lastSummary) :=
    refresh (lastSummaryAttributesOption g) (cachedSummaryAttributes g)
            (summaryAttributes options) in
  set_plans g title detail summary lastTitle lastDetail lastSummary.

(** Reading a property of an [undefined] plan entry. *)
Definition undefined_entry : Error :=
  mkTypeError "Cannot read properties of undefined (reading 'attribute')".

(** [!cached || cached.length === 0] *)
Definition no_plan (cached : option Plan) : bool :=
  match cached with None | Some [] => true | Some (_ :: _) => false end.

(** One detail document. *)
Record Document := {
  title : option string;
  attributes : list (string * string);
  resultAsString : option string
}.

Inductive DetailResults :=
| RawRows (rows : option (list RowObject))
| Documents (docs : list Document).

Record Details := {
  showAsJson : bool;
  details_results : DetailResults;
  details_complete : option bool;
  details_queryExecutionId : option string;
  details_executionStats : option ExecutionStats
}.

Record Formatted := { summary : list string; details : Details }.

Section Libraries.

Variable dates : DateLibrary.

(** The path lookup [get(result, path)] of the utility library, on the
    rows the remote service returns. *)
Variable get : RowObject -> string -> option string.

Definition short_or_original (attribute : string) (d : completion (DateTime dates))
  : completion string :=
  and_then d (fun date =>
    if isValid dates date then toLocaleString dates date else Return attribute).

Definition parseAttribute (attribute : option string) (parser : option string)
  : completion string :=
  match attribute with
  | None => Return EmptyString
  | Some attribute =>
      try_catch
        match parser with
        | None => Return attribute
        | Some p =>
            if String.eqb p "date-iso" then
              short_or_original attribute (fromISO dates attribute)
            else if String.eqb p "date-http" then
              short_or_original attribute (fromHTTP dates attribute)
            else if String.eqb p "date-rfc2822" then
              short_or_original attribute (fromRFC2822 dates attribute)
            else if String.eqb p "date-sql" then
              short_or_original attribute (fromSQL dates attribute)
            else if String.eqb p "date-seconds" then
              short_or_original attribute (fromSeconds dates (toNumber dates attribute))
            else if String.eqb p "date-millis" then
              short_or_original attribute (fromMillis dates (toNumber dates attribute))
            else Return attribute
        end
        (fun _ => Return attribute)
  end.

(** [`${attributeObj.label}: ${value}`] when the label is not empty *)
Definition labelled (attributeObj : AttributeSpec) (value : string) : string :=
  if truthy (label attributeObj) then label attributeObj ++ ": " ++ value else value.

(** *** Resumable revision: cached plans *)

Definition getDocumentTitle (g : Globals) (result : RowObject)
  : completion (option string) :=
  match cachedDocumentTitleAttributes g with
  | None | Some [] => Return None
  | Some (None :: _) => Throw undefined_entry
  | Some (Some attributeObj :: _) =>
      let attributeValue := get result (attribute attributeObj) in
      and_then (parseAttribute attributeValue (parser attributeObj)) (fun parsedValue =>
        Return (Some (labelled attributeObj parsedValue)))
  end.

(** The inner [detailAttributes.forEach] on one row. *)
Fixpoint detail_document (detailAttributes : Plan) (result : RowObject)
  : completion (list (string * string)) :=
  match detailAttributes with
  | [] => Return []
  | None :: _ => Throw undefined_entry
  | Some attributeObj :: rest =>
      let attributeValue := get result (attribute attributeObj) in
      if present attributeValue then
        and_then (parseAttribute attributeValue (parser attributeObj)) (fun value =>
          and_then (detail_document rest result) (fun document =>
            Return ((label attributeObj, value) :: document)))
      else detail_document rest result
  end.

Definition searchable (document : list (string * string)) : string :=
  join " " (map (fun attr => toLowerCase (snd attr)) document).

(** The outer [results.forEach]. *)
Fixpoint detail_documents (title_of : RowObject -> completion (option string))
    (detailAttributes : Plan) (results : list RowObject) : completion (list Document) :=
  match results with
  | [] => Return []
  | result :: rest =>
      and_then (detail_document detailAttributes result) (fun document =>
        match document with
        | [] => detail_documents title_of detailAttributes rest
        | _ :: _ =>
            and_then (title_of result) (fun t =>
              and_then (detail_documents title_of detailAttributes rest) (fun more =>
                Return ({| title := t; attributes := document;
                           resultAsString := Some (searchable document) |} :: more)))
        end)
  end.

Definition getDetails (g : Globals) (results : list RowObject) (complete : bool)
    (queryExecutionId : option string) (executionStats : option ExecutionStats)
  : completion Details :=
  if no_plan (cachedDetailAttributes g) then
    Return {| showAsJson := true; details_results := RawRows (Some results);
              details_complete := Some complete;
              details_queryExecutionId := queryExecutionId;
              details_executionStats := executionStats |}
  else
    let detailAttributes :=
      match cachedDetailAttributes g with Some p => p | None => [] end in
    and_then (detail_documents (getDocumentTitle g) detailAttributes results) (fun docs =>
      Return {| showAsJson := false; details_results := Documents docs;
                details_complete := Some complete;
                details_queryExecutionId := queryExecutionId;
                details_executionStats := executionStats |}).

(** The [for] loop of [getSummaryTags] for one attribute, from row [i]:
    [budget] rows are still allowed by [maxSummaryDocuments]. *)
Fixpoint summary_rows (attributeObj : option AttributeSpec) (budget : nat)
    (results : list RowObject) : completion (list string) :=
  match budget, results with
  | S budget', result :: rest =>
      match attributeObj with
      | None => Throw undefined_entry
      | Some a =>
          let tag := get result (attribute a) in
          if present tag then
            and_then (parseAttribute tag (parser a)) (fun value =>
              and_then (summary_rows attributeObj budget' rest) (fun tags =>
                Return (labelled a value :: tags)))
          else summary_rows attributeObj budget' rest
      end
  | _, _ => Return []
  end.

(** The [summaryAttributes.forEach]. *)
Fixpoint summary_tags (summaryAttributes : Plan) (maxSummaryDocuments : nat)
    (results : list RowObject) : completion (list string) :=
  match summaryAttributes with
  | [] => Return []
  | attributeObj :: rest =>
      and_then (summary_rows attributeObj maxSummaryDocuments results) (fun tags =>
        and_then (summary_tags rest maxSummaryDocuments results) (fun more =>
          Return (tags ++ more)))
  end.

Definition with_count (maxSummaryDocuments : nat) (results : list RowObject)
    (tags : list string) : list string :=
  if (length tags =? 0)%nat || (maxSummaryDocuments <? length results)%nat
  then tags ++ [count_tag (length results)]
  else tags.

Definition getSummaryTags (g : Globals) (results : list RowObject) (options : Options)
  : completion (list string) :=
  if no_plan (cachedSummaryAttributes g) then
    Return [count_tag (length results)]
  else
    let summaryAttributes :=
      match cachedSummaryAttributes g with Some p => p | None => [] end in
    and_then (summary_tags summaryAttributes (maxSummaryDocuments options) results)
      (fun tags =>
         Return (unique (with_count (maxSummaryDocuments options) results tags))).

(** *** Earlier revision: plans compiled on every call, tags not
    deduplicated *)

Definition getSummaryTags_earlier (results : list RowObject) (options : Options)
  : completion (list string) :=
  if negb (configured (summaryAttributes options)) then
    Return [count_tag (length results)]
  else
    let summaryAttributes :=
      match summaryAttributes options with
      | Some s => processAttributeOption s
      | None => []
      end in
    and_then (summary_tags summaryAttributes (maxSummaryDocuments options) results)
      (fun tags => Return (with_count (maxSummaryDocuments options) results tags)).

Definition getDocumentTitle_earlier (options : Options) (result : RowObject)
  : completion (option string) :=
  if negb (configured (documentTitleAttribute options)) then Return None
  else
    match documentTitleAttribute options with
    | Some s =>
        match processAttributeOption s with
        | Some attributeObj :: _ =>
            let attributeValue := get result (attribute attributeObj) in
            and_then (parseAttribute attributeValue (parser attributeObj))
              (fun parsedValue => Return (Some (labelled attributeObj parsedValue)))
        | _ => Return None
        end
    | None => Return None
    end.

Definition getDetails_earlier (results : list RowObject) (options : Options)
  : completion Details :=
  if negb (configured (detailAttributes options)) then
    Return {| showAsJson := true; details_results := RawRows (Some results);
              details_complete := None; details_queryExecutionId := None;
              details_executionStats := None |}
  else
    let detailAttributes :=
      match detailAttributes options with
      | Some s => processAttributeOption s
      | None => []
      end in
    and_then (detail_documents (getDocumentTitle_earlier options) detailAttributes results)
      (fun docs =>
         Return {| showAsJson := false; details_results := Documents docs;
                   details_complete := None; details_queryExecutionId := None;
                   details_executionStats := None |}).

End Libraries.

End Attributes.

(** ** Lookup orchestrator *)

Module Lookup.

Import Data Async Attributes.
Local Open Scope async_scope.

Record Entity := { value : string }.

Record LookupResult := { entity : Entity; data : option Formatted }.

(** The flat error shape handed to the callback (the stack text and the
    request metadata of the remote client are not represented). *)
Record Pojo := { pojo_name : string; pojo_message : string; pojo_detail : string }.

Definition errorToPojo (err : Error) (detail : string) : Pojo :=
  {| pojo_name := name err;
     pojo_message := message err;
     pojo_detail :=
       if truthy detail then detail
       else if truthy (message err) then message err
       else "Unexpected error encountered" |}.

(** What the host callback is called with. *)
Inductive Callback (A : Type) :=
| CallbackError (err : Pojo)
| CallbackPayload (payload : A)
| CallbackMessage (error : string).

Arguments CallbackError {A} err.
Arguments CallbackPayload {A} payload.
Arguments CallbackMessage {A} error.

Definition option_differs (a b : option string) : bool :=
  match a, b with
  | Some x, Some y => negb (String.eqb x y)
  | None, None => false
  | _, _ => true
  end.

(** [optionsHaveChanged], resumable revision *)
Definition optionsHaveChanged (options : Options) (g : Globals) : bool * Globals :=
  let changed :=
    match originalOptions g with
    | None => true
    | Some o =>
        negb (String.eqb (region o) (region options))
        || option_differs (endpoint o) (endpoint options)
        || negb (String.eqb (accessKeyId o) (accessKeyId options))
        || negb (String.eqb (secretAccessKey o) (secretAccessKey options))
    end in
  if changed then (true, set_client g (Some options) (athenaClient g)) else (false, g).

(** [optionsHaveChanged], earlier revision: the region objects are
    compared, and the variable starts as an empty object. *)
Definition optionsHaveChanged_earlier (options : Options) (g : Globals) : bool * Globals :=
  let changed :=
    match originalOptions g with
    | None => true
    | Some o =>
        negb (region_object o =? region_object options)%nat
        || option_differs (endpoint o) (endpoint options)
        || negb (String.eqb (accessKeyId o) (accessKeyId options))
        || negb (String.eqb (secretAccessKey o) (secretAccessKey options))
    end in
  if changed then (true, set_client g (Some options) (athenaClient g)) else (false, g).

(** [`${name}`] of a statement name that may be [null] *)
Definition name_text (preparedStatementName : option string) : string :=
  match preparedStatementName with Some n => n | None => "null" end.

(** [(bytes / 1024 / 1024).toFixed(2)] *)
Definition megabytes_text (bytes : Z) : string :=
  let n := ((200 * bytes + 1048576) / 2097152)%Z in
  (Num.numeral (n / 100) ++ "." ++ Execution.pad_left 2 (Num.numeral (n mod 100)))%string.

Definition running_attributes (queryResult : QueryResult) : list (string * string) :=
  let stats := executionStats queryResult in
  let status_text :=
    match stats with
    | Some st => match status st with
                 | Some s => if truthy s then s else "Running"
                 | None => "Running"
                 end
    | None => "Running"
    end in
  [("Status", status_text); ("Query Execution ID", queryExecutionId queryResult)]
  ++ match stats with
     | Some st =>
         match elapsedSeconds st with
         | Some s => if truthy s then [("Elapsed Time", (s ++ "s")%string)] else []
         | None => []
         end
         ++ match dataScannedBytes st with
            | Some b => if (b =? 0)%Z then []
                        else [("Data Scanned", (megabytes_text b ++ " MB")%string)]
            | None => []
            end
     | None => []
     end.

Section Libraries.

Variable dates : DateLibrary.
Variable get : RowObject -> string -> option string.

(** Printing of floating-point parameters, see [Binder]. *)
Variable floatText : string -> string.

Definition no_rows (results : option (list RowObject)) : bool :=
  match results with Some (_ :: _) => false | _ => true end.

Definition rows_of (results : option (list RowObject)) : list RowObject :=
  match results with Some rs => rs | None => [] end.

Definition formatQueryResult (g : Globals) (queryResult : QueryResult) (options : Options)
  : completion Formatted :=
  if negb (complete queryResult) then
    Return {| summary := ["Query Running"];
              details :=
                {| showAsJson := false;
                   details_results :=
                     Documents [ {| title := Some "Query Status";
                                    attributes := running_attributes queryResult;
                                    resultAsString := None |} ];
                   details_complete := Some false;
                   details_queryExecutionId := Some (queryExecutionId queryResult);
                   details_executionStats := executionStats queryResult |} |}
  else if no_rows (results queryResult) then
    Return {| summary := ["No results"];
              details :=
                {| showAsJson := false;
                   details_results := Documents [];
                   details_complete := Some true;
                   details_queryExecutionId := Some (queryExecutionId queryResult);
                   details_executionStats := executionStats queryResult |} |}
  else
    and_then (getSummaryTags dates get g (rows_of (results queryResult)) options)
      (fun summary =>
         and_then (getDetails dates get g (rows_of (results queryResult))
                     (complete queryResult) (Some (queryExecutionId queryResult))
                     (executionStats queryResult))
           (fun details => Return {| summary := summary; details := details |})).

(** The parameter loop of [createQuery]. *)
Fixpoint bind_parameters (i : nat) (typeHints : list TypeHints.TypeHint) (entityValue : string)
  : completion (list string) :=
  match typeHints with
  | [] => Return []
  | typeHint :: rest =>
      match Binder.createParameterValue floatText entityValue (TypeHints.type typeHint) with
      | Throw error =>
          Throw (mkError ("Parameter " ++ Num.numeral (Z.of_nat (i + 1)) ++ ": "
                          ++ message error))
      | Return parameterValue =>
          and_then (bind_parameters (S i) rest entityValue) (fun parameters =>
            Return (parameterValue :: parameters))
      end
  end.

Definition hints_or_none (options : Options) : list TypeHints.TypeHint :=
  match _typeHints options with Some hs => hs | None => [] end.

Definition queryParams_of (queryString : string) (options : Options) : QueryParams :=
  {| QueryString := queryString;
     WorkGroup := Statements.workGroup_or_primary options;
     ResultConfiguration :=
       if truthy (outputLocation options) && truthy (trim (outputLocation options))
       then Some (outputLocation options) else None |}.

(** [createQuery], resumable revision *)
Definition createQuery (entity : Entity) (options : Options)
    (preparedStatementName : option string) : completion QueryParams :=
  if includes "?" (query options) then
    if negb (match preparedStatementName with Some n => truthy n | None => false end)
    then Throw (mkError "Prepared statement name required for parameterized queries")
    else
      and_then (bind_parameters 0 (hints_or_none options) (value entity)) (fun parameters =>
        Return (queryParams_of
                  ("EXECUTE " ++ name_text preparedStatementName ++ " USING "
                   ++ join ", " parameters) options))
  else Return (queryParams_of (query options) options).

Section Client.

Variable rstate : Type.
Variable send : forall R : Type, Command R -> rstate -> completion R * rstate.
Variable basename : string.

(** [initializeAthenaClient] and the reset of the statement cache *)
Definition renew_client (reset_statement : bool) (g : Globals) : Globals :=
  let g := set_client g (originalOptions g) true in
  if reset_statement then set_statement g None None else g.

(** One search task of the resumable revision. *)
Definition searchTask (options : Options) (preparedStatementName : option string)
    (entity : Entity) : Async rstate LookupResult :=
  queryParams <- lift (createQuery entity options preparedStatementName) ;;
  queryResult <- Execution.executeAthenaQuery send Execution.Resumable queryParams options ;;
  g <- read_vars ;;
  if negb (complete queryResult) then
    formattedResult <- lift (formatQueryResult g queryResult options) ;;
    ret {| entity := entity; data := Some formattedResult |}
  else if no_rows (results queryResult) then
    ret {| entity := entity; data := None |}
  else
    formattedResult <- lift (formatQueryResult g queryResult options) ;;
    ret {| entity := entity; data := Some formattedResult |}.

(** [createQuery], earlier revision: the statement is ensured by every
    task. *)
Definition createQuery_earlier (entity : Entity) (options : Options)
  : Async rstate QueryParams :=
  ensured <- Statements.ensurePreparedStatement send basename (query options) options ;;
  let (preparedStatementName, options) := ensured : option string * Options in
  if includes "?" (query options) then
    parameters <- lift (bind_parameters 0 (hints_or_none options) (value entity)) ;;
    ret (queryParams_of
           ("EXECUTE " ++ name_text preparedStatementName ++ " USING "
            ++ join ", " parameters) options)
  else
    ret (queryParams_of ("EXECUTE " ++ name_text preparedStatementName) options).

Definition running_earlier (queryResult : QueryResult) : Formatted :=
  {| summary := ["Query Running"];
     details :=
       {| showAsJson := false;
          details_results :=
            Documents [ {| title := Some "Query Status";
                           attributes := [("Status", "Running");
                                          ("Query Execution ID", queryExecutionId queryResult)];
                           resultAsString := None |} ];
          details_complete := None;
          details_queryExecutionId := None;
          details_executionStats := None |} |}.

Definition searchTask_earlier (options : Options) (entity : Entity)
  : Async rstate LookupResult :=
  queryParams <- createQuery_earlier entity options ;;
  queryResult <- Execution.executeAthenaQuery send Execution.Earlier queryParams options ;;
  if negb (complete queryResult) then
    ret {| entity := entity; data := Some (running_earlier queryResult) |}
  else if no_rows (results queryResult) then
    ret {| entity := entity; data := None |}
  else
    summary <- lift (getSummaryTags_earlier dates get (rows_of (results queryResult)) options) ;;
    details <- lift (getDetails_earlier dates get (rows_of (results queryResult)) options) ;;
    ret {| entity := entity; data := Some {| summary := summary; details := details |} |}.

(** *** Fan-out

    The tasks of one invocation run concurrently.  A batch gives, for
    the task at each position, the world it runs against (the shared
    state as the other tasks left it when this one reads it) and the
    order in which the tasks finish. *)
Record Batch := { view : nat -> World rstate -> World rstate; finish : nat -> nat }.

Fixpoint outcomes_from {A} (batch : Batch) (i : nat) (tasks : list (Async rstate A))
    (w : World rstate) : list (completion A) :=
  match tasks with
  | [] => []
  | task :: rest => result (task (view batch i w)) :: outcomes_from batch (S i) rest w
  end.

(** The error of the failing task that finishes first. *)
Fixpoint first_failure {A} (finish : nat -> nat) (i : nat) (outs : list (completion A))
    (best : option (nat * Error)) : option (nat * Error) :=
  match outs with
  | [] => best
  | Return _ :: rest => first_failure finish (S i) rest best
  | Throw e :: rest =>
      first_failure finish (S i) rest
        match best with
        | Some (t, _) => if (finish i <? t)%nat then Some (finish i, e) else best
        | None => Some (finish i, e)
        end
  end.

Fixpoint values {A} (outs : list (completion A)) : list A :=
  match outs with
  | [] => []
  | Return a :: rest => a :: values rest
  | Throw _ :: rest => values rest
  end.

(** [await async.parallelLimit(tasks, limit)]: the promise rejects with
    the first error to occur and otherwise resolves with the results of
    all tasks in task order.  The limit bounds the number of tasks in
    flight and has no part in what the promise settles to. *)
Definition parallelLimit {A} (batch : Batch) (tasks : list (Async rstate A)) (limit : nat)
  : Async rstate (list A) :=
  fun w =>
    let outs := outcomes_from batch 0 tasks w in
    {| result :=
         match first_failure (finish batch) 0 outs None with
         | Some (_, e) => Throw e
         | None => Return (values outs)
         end;
       final := w;
       trace := [] |}.

(** The [try { await parallelLimit } catch { return cb(error) }; cb(null,
    lookupResults)] tail shared by both revisions. *)
Definition fan_out (batch : Batch) (searchTasks : list (Async rstate LookupResult))
  : Async rstate (Callback (list LookupResult)) :=
  catch
    (lookupResults <- parallelLimit batch searchTasks 10 ;;
     ret (CallbackPayload lookupResults))
    (fun lookupError =>
       ret (CallbackError (errorToPojo lookupError "Error running Athena SQL query"))).

(** What [doLookup] of the resumable revision does before it builds the
    tasks: the client and the caches are brought up to date and the
    prepared statement is ensured, once, when the template has
    placeholders. *)
Definition prepare (options : Options) : Async rstate (option string * Options) :=
  g <- read_vars ;;
  (if Statements.is_null (originalOptions g)
   then write_vars (set_client g (Some options) (athenaClient g))
   else ret tt) ;;;
  g <- read_vars ;;
  (let (changed, g) := optionsHaveChanged options g in
   if changed || negb (athenaClient g) then write_vars (renew_client true g)
   else write_vars g) ;;;
  g <- read_vars ;;
  write_vars (setCachedDisplayAttributes options g) ;;;
  (if includes "?" (query options)
   then Statements.ensurePreparedStatement send basename (query options) options
   else ret (None, options)).

(** [doLookup], resumable revision.  An abrupt completion is a rejected
    promise: the callback is not called. *)
Definition doLookup (batch : Batch) (entities : list Entity) (options : Options)
  : Async rstate (Callback (list LookupResult)) :=
  prepared <- prepare options ;;
  let (preparedStatementName, options) := prepared : option string * Options in
  fan_out batch (map (searchTask options preparedStatementName) entities).

(** What [doLookup] of the earlier revision does before it builds the
    tasks. *)
Definition prepare_earlier (options : Options) : Async rstate unit :=
  g <- read_vars ;;
  let (changed, g) := optionsHaveChanged_earlier options g in
  if changed || negb (athenaClient g) then write_vars (renew_client true g)
  else write_vars g.

(** [doLookup], earlier revision *)
Definition doLookup_earlier (batch : Batch) (entities : list Entity) (options : Options)
  : Async rstate (Callback (list LookupResult)) :=
  prepare_earlier options ;;;
  fan_out batch (map (searchTask_earlier options) entities).

(** [onMessage]: the resumption entry point *)
Record Message := { action : string; message_queryExecutionId : option string }.

Definition onMessage (message : Message) (options : Options)
  : Async rstate (Callback Formatted) :=
  if String.eqb (action message) "CHECK_QUERY_STATUS" then
    catch
      match message_queryExecutionId message with
      | None => ret (CallbackMessage "Missing queryExecutionId in message")
      | Some queryExecutionId =>
          if negb (truthy queryExecutionId)
          then ret (CallbackMessage "Missing queryExecutionId in message")
          else
            g <- read_vars ;;
            (let (changed, g) := optionsHaveChanged options g in
             if changed || negb (athenaClient g) then write_vars (renew_client false g)
             else write_vars g) ;;;
            g <- read_vars ;;
            write_vars (setCachedDisplayAttributes options g) ;;;
            queryResult <- Execution.checkQueryStatusAndGetResults send queryExecutionId options ;;
            g <- read_vars ;;
            responseData <- lift (formatQueryResult g queryResult options) ;;
            ret (CallbackPayload responseData)
      end
      (fun error => ret (CallbackError (errorToPojo error "Error checking Athena query status")))
  else
    ret (CallbackMessage ("Unknown action: " ++ action message)).

End Client.

End Libraries.

End Lookup.

(** ** A reference date library

    The date library is not part of the module.  This instance gives the
    two epoch entry points and the short en-US rendering at a fixed
    offset from UTC, after the library's documentation.  What it does not
    cover stays a parameter: the four text parsers, and the numeric
    reading of texts that are not a plain run of decimal digits. *)

Module ReferenceDates.

Import Attributes.
Local Open Scope Z_scope.

(** Days since the epoch to year, month and day of the civil calendar. *)
Definition civil_from_days (days : Z) : Z * Z * Z :=
  let z := days + 719468 in
  let era := z / 146097 in
  let doe := z - era * 146097 in
  let yoe := (doe - doe / 1460 + doe / 36524 - doe / 146096) / 365 in
  let y := yoe + era * 400 in
  let doy := doe - (365 * yoe + yoe / 4 - yoe / 100) in
  let mp := (5 * doy + 2) / 153 in
  let d := doy - (153 * mp + 2) / 5 + 1 in
  let m := if mp <? 10 then mp + 3 else mp - 9 in
  (if m <=? 2 then y + 1 else y, m, d).

(** The largest time value of the host language, in milliseconds. *)
Definition MAX_DATE : Z := 8640000000000000.

Definition signed_numeral (z : Z) : string :=
  if z <? 0 then ("-" ++ Num.numeral (- z))%string else Num.numeral z.

(** [M/D/YYYY, h:mm AM] for an instant in epoch milliseconds. *)
Definition short_en_US (offset_minutes : Z) (ts : Z) : string :=
  let minutes := ts / 60000 + offset_minutes in
  let '(y, m, d) := civil_from_days (minutes / 1440) in
  let minute_of_day := minutes mod 1440 in
  let h24 := minute_of_day / 60 in
  let h12 := if h24 mod 12 =? 0 then 12 else h24 mod 12 in
  let minute := Execution.pad_left 2 (Num.numeral (minute_of_day mod 60)) in
  let half : string := if h24 <? 12 then " AM" else " PM" in
  (Num.numeral m ++ "/" ++ Num.numeral d ++ "/" ++ signed_numeral y ++ ", "
   ++ Num.numeral h12 ++ ":" ++ minute ++ half)%string.

Fixpoint all_digits (s : string) : bool :=
  match s with
  | EmptyString => true
  | String c r => is_digit c && all_digits r
  end.

Section Parameters.

Variable text_parser : string -> string -> completion (option Z).
Variable other_number : string -> Num.number.
Variable offset_minutes : Z.

(** Unary plus on a text. *)
Definition toNumber (s : string) : Num.number :=
  if truthy s && all_digits s then Num.to_double (Num.decimal_value 0 s)
  else other_number s.

Definition instant (scale : Z) (n : Num.number) : option Z :=
  match n with
  | Num.Int z => Some (scale * z)
  | _ => None
  end.

Definition fromMillis (n : Num.number) : completion (option Z) :=
  match instant 1 n with
  | Some ts => if (ts <? - MAX_DATE) || (MAX_DATE <? ts) then Return None else Return (Some ts)
  | None => Return None
  end.

Definition fromSeconds (n : Num.number) : completion (option Z) :=
  Return (instant 1000 n).

Definition toLocaleString (d : option Z) : completion string :=
  match d with
  | Some ts =>
      if (ts <? - MAX_DATE) || (MAX_DATE <? ts)
      then Throw {| name := "RangeError"; message := "Invalid time value" |}
      else Return (short_en_US offset_minutes ts)
  | None => Return "Invalid DateTime"
  end.

Definition library : DateLibrary :=
  {| DateTime := option Z;
     number := Num.number;
     Attributes.toNumber := toNumber;
     fromISO := text_parser "date-iso";
     fromHTTP := text_parser "date-http";
     fromRFC2822 := text_parser "date-rfc2822";
     fromSQL := text_parser "date-sql";
     Attributes.fromSeconds := fromSeconds;
     Attributes.fromMillis := fromMillis;
     isValid := fun d => match d with Some _ => true | None => false end;
     Attributes.toLocaleString := toLocaleString |}.

End Parameters.

End ReferenceDates.

(** ** A reference remote service

    A small service to run the module against: a store of prepared
    statements per work group, a list of statement texts it refuses, and
    one execution whose status checks are answered from a script. *)

Module Service.

Import Data.

Record Service := {
  statements : list (string * string * string);
  refused : list string;
  start : completion string;
  script : list (completion QueryExecution);
  rows : completion ResultSet
}.

Definition stored (workGroup name : string) (s : Service) : bool :=
  existsb (fun e => String.eqb (fst (fst e)) workGroup && String.eqb (snd (fst e)) name)
          (statements s).

Definition store (workGroup name text : string) (s : Service) : Service :=
  {| statements :=
       (workGroup, name, text)
       :: filter (fun e => negb (String.eqb (fst (fst e)) workGroup
                                 && String.eqb (snd (fst e)) name))
                 (statements s);
     refused := refused s; start := start s; script := script s; rows := rows s |}.

Definition advance (s : Service) : Service :=
  {| statements := statements s; refused := refused s; start := start s;
     script := tl (script s); rows := rows s |}.

Definition service_error (n m : string) : Error := {| name := n; message := m |}.

Definition send (R : Type) (c : Command R) (s : Service) : completion R * Service :=
  match c in Command R return completion R * Service with
  | StartQueryExecutionCommand _ => (start s, s)
  | GetQueryExecutionCommand _ =>
      match script s with
      | answer :: _ => (answer, advance s)
      | [] => (Throw (service_error "InvalidRequestException" "QueryExecution was not found"), s)
      end
  | GetQueryResultsCommand _ _ => (rows s, s)
  | GetPreparedStatementCommand name workGroup =>
      if stored workGroup name s then (Return tt, s)
      else (Throw (service_error "ResourceNotFoundException" "PreparedStatement was not found"), s)
  | CreatePreparedStatementCommand name text workGroup =>
      if existsb (String.eqb text) (refused s)
      then (Throw (service_error "InvalidRequestException" "Query is not valid"), s)
      else if stored workGroup name s
      then (Throw (service_error "InvalidRequestException" "PreparedStatement already exists"), s)
      else (Return tt, store workGroup name text s)
  | UpdatePreparedStatementCommand name text workGroup =>
      if existsb (String.eqb text) (refused s)
      then (Throw (service_error "InvalidRequestException" "Query is not valid"), s)
      else if stored workGroup name s
      then (Return tt, store workGroup name text s)
      else (Throw (service_error "ResourceNotFoundException" "PreparedStatement was not found"), s)
  end.

Definition status_answer (state : string) (reason : option string) : completion QueryExecution :=
  Return {| State := state; StateChangeReason := reason;
            SubmissionDateTime := None; CompletionDateTime := None; Stats := None |}.

Definition idle : Service :=
  {| statements := []; refused := [];
     start := Return "execution-1"; script := [];
     rows := Return {| Rows := Some [] |} |}.

Definition with_script (answers : list (completion QueryExecution)) (s : Service) : Service :=
  {| statements := statements s; refused := refused s; start := start s;
     script := answers; rows := rows s |}.

Definition refusing (texts : list string) (s : Service) : Service :=
  {| statements := statements s; refused := texts; start := start s;
     script := script s; rows := rows s |}.

Definition with_rows (r : completion ResultSet) (s : Service) : Service :=
  {| statements := statements s; refused := refused s; start := start s;
     script := script s; rows := r |}.

Definition world (s : Service) : Async.World Service :=
  {| Async.remote := s; Async.now := 0; Async.vars := initial |}.

Definition options_for (query : string) : Options :=
  {| region := "us-east-1"; region_object := 0; endpoint := None;
     accessKeyId := "key"; secretAccessKey := "secret";
     workGroup := "primary"; outputLocation := EmptyString;
     Data.query := query; limit := 100;
     documentTitleAttribute := None; detailAttributes := None;
     summaryAttributes := None; maxSummaryDocuments := 3;
     _typeHints := None |}.

(** Own-property lookup: what the path lookup of the utility library
    does on a row for a path that is the name of one of its columns. *)
Fixpoint column (row : RowObject) (path : string) : option string :=
  match row with
  | [] => None
  | (k, v) :: rest => if String.eqb k path then v else column rest path
  end.

End Service.

Unset Implicit Arguments.

(** ** Notions used to state the properties *)

Module Notions.

Import Data Async Attributes Execution.

(** A text without placeholder mark. *)
Definition mark_free (s : string) : Prop := includes "?" s = false.

(** One round of the polling loop, and [k] rounds. *)
Definition round (queryExecutionId : string) : list Event :=
  [Slept POLLING_WAIT_INTERVAL; Sent (GetQueryExecutionCommand queryExecutionId)].

Fixpoint rounds (queryExecutionId : string) (k : nat) : list Event :=
  match k with
  | O => []
  | S k' => round queryExecutionId ++ rounds queryExecutionId k'
  end.

(** An answer to a status check that keeps the loop going. *)
Definition pending_answer (a : completion QueryExecution) : bool :=
  match a with
  | Return qe => pending (State qe)
  | Throw _ => false
  end.

(** [StateChangeReason || 'Unknown error'] *)
Definition reason_or_unknown (reason : option string) : string :=
  match reason with
  | Some r => if truthy r then r else "Unknown error"
  | None => "Unknown error"
  end.

Definition known_state (s : string) : bool :=
  existsb (String.eqb s) ["QUEUED"; "RUNNING"; "SUCCEEDED"; "FAILED"; "CANCELLED"].

Section Client.

Variable rstate : Type.
Variable send : forall R : Type, Command R -> rstate -> completion R * rstate.

(** What the remote service answers to [n] status checks in a row, and
    the state it is left in. *)
Fixpoint status_answers (id : string) (n : nat) (rs : rstate)
  : list (completion QueryExecution) :=
  match n with
  | O => []
  | S n' =>
      let (a, rs') := send _ (GetQueryExecutionCommand id) rs in
      a :: status_answers id n' rs'
  end.

(** The world after one round of the loop. *)
Definition after_round (w : World rstate) (rs : rstate) : World rstate :=
  {| remote := rs; now := (now w + POLLING_WAIT_INTERVAL)%Z; vars := vars w |}.

Fixpoint after_checks (id : string) (n : nat) (rs : rstate) : rstate :=
  match n with
  | O => rs
  | S n' => after_checks id n' (snd (send _ (GetQueryExecutionCommand id) rs))
  end.

End Client.

Arguments after_round {rstate} w rs.
Arguments status_answers {rstate} send id n rs.
Arguments after_checks {rstate} send id n rs.

(** The canonical text of a template. *)
Definition canonical (query : string) : string :=
  TypeHints.query (TypeHints.parseTypeHints query).

(** The options as [ensurePreparedStatement] leaves them. *)
Definition hinted (query : string) (options : Options) : Options :=
  set_typeHints options (TypeHints.typeHints (TypeHints.parseTypeHints query)).

(** The cache reflects a canonical text bound to a handle. *)
Definition bound_to (g : Globals) (text : string) : bool :=
  Statements.same (currentQuery g) text
  && negb (Statements.is_null (currentPreparedStatement g)).

Section Statements.

Variable rstate : Type.
Variable send : forall R : Type, Command R -> rstate -> completion R * rstate.
Variable basename : string.

(** Calls made one after the other: each call starts when the one
    before it has settled, in the world that call left; a call that
    throws does not stop the next one.  Calls that overlap are not of
    this form, see [overlapping]. *)
Fixpoint ensure_calls (calls : list (string * Options)) (w : World rstate)
  : list (Run rstate (option string * Options)) :=
  match calls with
  | [] => []
  | (query, options) :: rest =>
      let run := Statements.ensurePreparedStatement send basename query options w in
      run :: ensure_calls rest (final run)
  end.

(** The world the calls leave behind. *)
Fixpoint world_after (calls : list (string * Options)) (w : World rstate) : World rstate :=
  match calls with
  | [] => w
  | (query, options) :: rest =>
      world_after rest
        (final (Statements.ensurePreparedStatement send basename query options w))
  end.

(** The handle a call returned, if it completed normally. *)
Definition handle_of (run : Run rstate (option string * Options)) : option (option string) :=
  match result run with
  | Return (handle, _) => Some handle
  | Throw _ => None
  end.

(** The create and update calls of the runs that completed normally. *)
Fixpoint completed_writes (runs : list (Run rstate (option string * Options))) : nat :=
  match runs with
  | [] => 0
  | run :: rest =>
      (if returns (result run) then count is_create_or_update (trace run) else 0)
      + completed_writes rest
  end.

(** The remote calls of a call that is not served from the cache: one
    existence check, then one update or one create. *)
Definition protocol (text workGroup : string) (t : list Event) : Prop :=
  t = [Sent (GetPreparedStatementCommand (Statements.statementName basename) workGroup);
       Sent (UpdatePreparedStatementCommand (Statements.statementName basename) text
               workGroup)]
  \/ t = [Sent (GetPreparedStatementCommand (Statements.statementName basename) workGroup);
          Sent (CreatePreparedStatementCommand (Statements.statementName basename) text
                  workGroup)].

End Statements.

(** The world a call meets when it starts while an earlier call is
    still waiting for the answer to its create or update: the service
    has carried out the commands of the earlier call, which left
    [behind], and the variables are still those of [w], the earlier
    call having written nothing yet. *)
Definition overlapping {rstate : Type} (w behind : World rstate) : World rstate :=
  {| remote := remote behind; now := now behind; vars := vars w |}.

Arguments ensure_calls {rstate} send basename calls w.
Arguments world_after {rstate} send basename calls w.
Arguments handle_of {rstate} run.
Arguments completed_writes {rstate} runs.

Section Dates.

Variable dates : DateLibrary.

(** The date the library produces for a parser tag, if the tag is one
    of the six date parsers. *)
Definition library_date (p attribute : string) : option (completion (DateTime dates)) :=
  if String.eqb p "date-iso" then Some (fromISO dates attribute)
  else if String.eqb p "date-http" then Some (fromHTTP dates attribute)
  else if String.eqb p "date-rfc2822" then Some (fromRFC2822 dates attribute)
  else if String.eqb p "date-sql" then Some (fromSQL dates attribute)
  else if String.eqb p "date-seconds" then Some (fromSeconds dates (toNumber dates attribute))
  else if String.eqb p "date-millis" then Some (fromMillis dates (toNumber dates attribute))
  else None.

(** A value the parser cannot parse: the library throws, gives an
    invalid date, or throws while printing. *)
Definition unparsable (d : completion (DateTime dates)) : Prop :=
  match d with
  | Throw _ => True
  | Return date =>
      isValid dates date = false
      \/ exists e, toLocaleString dates date = Throw e
  end.

End Dates.

(** *** Example data *)

Definition sample_params : QueryParams :=
  {| QueryString := "SELECT 1"; WorkGroup := "primary"; ResultConfiguration := None |}.

Definition sample_options : Options := Service.options_for "SELECT 1".

(** A service that refuses the statement text of the example. *)
Definition refusing_service : Service.Service :=
  Service.refusing ["SELECT * FROM logs WHERE ip = ?"] Service.idle.

Definition ip_query : string := "SELECT * FROM logs WHERE ip = ?".

Definition three_calls : list (string * Options) :=
  [(ip_query, Service.options_for ip_query);
   (ip_query, Service.options_for ip_query);
   (ip_query, Service.options_for ip_query)].

(** A batch in which every task meets the world as it was at dispatch
    and the tasks finish in task order. *)
Definition plain_batch : Lookup.Batch Service.Service :=
  {| Lookup.view := fun _ w => w; Lookup.finish := fun i => i |}.

(** A template with an integer placeholder, and two entities of which
    the second is not a number. *)
Definition port_options : Options :=
  Service.options_for "SELECT * FROM logs WHERE port = ?:int".

Definition two_entities : list Lookup.Entity :=
  [ {| Lookup.value := "443" |}; {| Lookup.value := "https" |} ].

(** Two entities that both are numbers. *)
Definition two_ports : list Lookup.Entity :=
  [ {| Lookup.value := "443" |}; {| Lookup.value := "80" |} ].

(** A service that refuses the statement text of the template with the
    integer placeholder. *)
Definition closed_port_service : Service.Service :=
  Service.refusing ["SELECT * FROM logs WHERE port = ?"]
    (Service.with_script [Service.status_answer "SUCCEEDED" None] Service.idle).

(** A service that holds the statement of the example from an earlier
    run of the integration. *)
Definition kept_service : Service.Service :=
  Service.store "primary" (Statements.statementName "athena") "SELECT 1" Service.idle.

(** A service whose execution succeeds at the first status check. *)
Definition quick_service : Service.Service :=
  Service.with_script [Service.status_answer "SUCCEEDED" None] Service.idle.

(** A service whose execution stays in the state RUNNING for twenty
    status checks. *)
Definition busy_service : Service.Service :=
  Service.with_script (repeat (Service.status_answer "RUNNING" None) 20) Service.idle.

(** A service that answers the first status check with a state the
    module does not know. *)
Definition unknown_service : Service.Service :=
  Service.with_script [Service.status_answer "WEIRD" None] Service.idle.

(** A service whose execution was cancelled, with a reason. *)
Definition cancelled_service : Service.Service :=
  Service.with_script
    [Service.status_answer "RUNNING" None;
     Service.status_answer "CANCELLED" (Some "quota")] Service.idle.

(** A service whose execution failed, with a reason. *)
Definition failed_service : Service.Service :=
  Service.with_script
    [Service.status_answer "QUEUED" None;
     Service.status_answer "FAILED" (Some "SYNTAX_ERROR: line 1")] Service.idle.

(** A closed date library for the examples: no text parser recognises
    anything, UTC. *)
Definition sample : DateLibrary :=
  ReferenceDates.library (fun _ _ => Return None) (fun _ => Num.NaN) 0.

(** A library whose text parsers throw. *)
Definition throwing : DateLibrary :=
  ReferenceDates.library (fun _ _ => Throw (mkError "unsupported")) (fun _ => Num.NaN) 0.

Definition summary_options (spec : string) (maxSummaryDocuments : nat) : Options :=
  {| region := "us-east-1"; region_object := 0; endpoint := None;
     accessKeyId := "key"; secretAccessKey := "secret";
     workGroup := "primary"; outputLocation := EmptyString;
     query := "SELECT * FROM logs"; limit := 100;
     documentTitleAttribute := None; detailAttributes := Some spec;
     summaryAttributes := Some spec; maxSummaryDocuments := maxSummaryDocuments;
     _typeHints := None |}.

(** The module-level variables after [setCachedDisplayAttributes] on
    fresh variables. *)
Definition cached (spec : string) : Globals :=
  setCachedDisplayAttributes (summary_options spec 3) initial.

(** The rows [{a:"x"}, {a:"x"}, {a:"y"}]. *)
Definition three_rows : list RowObject :=
  [[("a", Some "x")]; [("a", Some "x")]; [("a", Some "y")]].

Definition epoch_text : string := "1649724681".

Definition distinct_at (offset : Z) : bool :=
  let s := ReferenceDates.short_en_US offset 1649724681000 in
  let m := ReferenceDates.short_en_US offset 1649724681 in
  negb (String.eqb s m) && negb (String.eqb s epoch_text) && negb (String.eqb m epoch_text).

Definition offsets : list Z := map (fun n => (Z.of_nat n - 1440)%Z) (seq 0 2881).

End Notions.

(** ** Option validation *)

Module Validation.

(** The three option values the validator looks at; [None] is a value
    that is not a text. *)
Record UserOptions := {
  accessKeyId_value : option string;
  secretAccessKey_value : option string;
  query_value : option string
}.

(** [typeof v !== 'string' || v.trim().length === 0] *)
Definition missing_or_blank (v : option string) : bool :=
  match v with
  | None => true
  | Some s => negb (truthy (trim s))
  end.

(** [typeof v !== 'string' || v.length === 0] *)
Definition missing_or_empty (v : option string) : bool :=
  match v with
  | None => true
  | Some s => negb (truthy s)
  end.

(** [validateOptions] of the resumable revision: the errors handed to
    the callback, as pairs of key and message. *)
Definition validateOptions (userOptions : UserOptions) : list (string * string) :=
  (if missing_or_blank (accessKeyId_value userOptions)
   then [("accessKeyId", "You must provide a valid AWS Access Key ID")] else [])
  ++ (if missing_or_blank (secretAccessKey_value userOptions)
      then [("secretAccessKey", "You must provide a valid AWS Secret Access Key")] else [])
  ++ (if missing_or_empty (query_value userOptions)
      then [("query", "You must provide a valid SQL Query")] else []).

End Validation.

(** ** The paging component of the display *)

Module Component.

Local Open Scope Z_scope.

(** [array.slice(start, end)] *)
Definition relative (len i : Z) : Z :=
  if i <? 0 then Z.max (len + i) 0 else Z.min i len.

Definition slice {A} (l : list A) (start final : Z) : list A :=
  let len := Z.of_nat (length l) in
  let k := relative len start in
  firstn (Z.to_nat (relative len final - k)) (skipn (Z.to_nat k) l).

(** The [pageSize] property; the component never sets it. *)
Definition pageSize : Z := 5.

(** [Math.ceil(totalResults / pageSize)] *)
Definition totalPages (totalResults : nat) : Z :=
  (Z.of_nat totalResults + pageSize - 1) / pageSize.

(** The paging variables of the component. *)
Record Paging := { filterValue : string; currentPage : Z }.

Definition set_page (p : Paging) (page : Z) : Paging :=
  {| filterValue := filterValue p; currentPage := page |}.

Section Entries.

(** The entries of [details.results] and their [resultAsString]
    property, absent on entries that have none. *)
Variable Entry : Type.
Variable resultAsString : Entry -> option string.

(** [pagingData.filter((entry) => entry.resultAsString.includes(f))] *)
Fixpoint filter_entries (f : string) (pagingData : list Entry) : completion (list Entry) :=
  match pagingData with
  | [] => Return []
  | entry :: rest =>
      match resultAsString entry with
      | None =>
          Throw (mkTypeError "Cannot read properties of undefined (reading 'includes')")
      | Some text =>
          match filter_entries f rest with
          | Return kept =>
              Return (if Execution.includes_text f text then entry :: kept else kept)
          | Throw e => Throw e
          end
      end
  end.

(** The computed property [filteredPagingData]: it first sets the page
    back to one, then filters. *)
Definition filteredPagingData (p : Paging) (pagingData : list Entry)
  : Paging * completion (list Entry) :=
  let p := set_page p 1 in
  if truthy (filterValue p) then
    let f := trim (toLowerCase (filterValue p)) in
    if truthy f then (p, filter_entries f pagingData) else (p, Return pagingData)
  else (p, Return pagingData).

Definition isPrevButtonsDisabled (p : Paging) : bool := currentPage p =? 1.

Definition isNextButtonDisabled (p : Paging) (filtered : list Entry) : bool :=
  currentPage p =? totalPages (length filtered).

Definition pagingStartItem (p : Paging) : Z := (currentPage p - 1) * pageSize + 1.

Definition pagingEndItem (p : Paging) : Z := pagingStartItem p - 1 + pageSize.

Definition pagedFilteredData (p : Paging) (filtered : list Entry) : list Entry :=
  let startIndex := (currentPage p - 1) * pageSize in
  let endIndex := startIndex + pageSize in
  slice filtered startIndex endIndex.

(** The paging actions. *)
Definition prevPage (p : Paging) : Paging :=
  if 1 <? currentPage p then set_page p (currentPage p - 1) else p.

Definition nextPage (p : Paging) (filtered : list Entry) : Paging :=
  if currentPage p <? totalPages (length filtered)
  then set_page p (currentPage p + 1) else p.

Definition firstPage (p : Paging) : Paging := set_page p 1.

Definition lastPage (p : Paging) (filtered : list Entry) : Paging :=
  set_page p (totalPages (length filtered)).

End Entries.

Arguments filter_entries {Entry} resultAsString f pagingData.
Arguments filteredPagingData {Entry} resultAsString p pagingData.
Arguments isNextButtonDisabled {Entry} p filtered.
Arguments pagedFilteredData {Entry} p filtered.
Arguments nextPage {Entry} p filtered.
Arguments lastPage {Entry} p filtered.

End Component.

(** ** Further notions used to state the laws *)

Module Laws.

Import Data Async Attributes Execution.

(** Reading a quoted literal back: a backslash makes the next character
    literal. *)
Fixpoint unescape_from (escaped : bool) (s : string) : string :=
  match s with
  | EmptyString => EmptyString
  | String c r =>
      if escaped then String c (unescape_from false r)
      else if Ascii.eqb c backslash then unescape_from true r
      else String c (unescape_from false r)
  end.

Definition unescape (s : string) : string := unescape_from false s.

(** Whether a quote of the text is left without a backslash before it. *)
Fixpoint bare_quote_from (escaped : bool) (s : string) : bool :=
  match s with
  | EmptyString => false
  | String c r =>
      if escaped then bare_quote_from false r
      else if Ascii.eqb c backslash then bare_quote_from true r
      else Ascii.eqb c quote || bare_quote_from false r
  end.

Definition bare_quote (s : string) : bool := bare_quote_from false s.

(** The characters a printed integer can hold. *)
Definition numeric_char (c : ascii) : bool :=
  is_digit c || includes c "-+.eInfinity".

Fixpoint all_chars (p : ascii -> bool) (s : string) : bool :=
  match s with
  | EmptyString => true
  | String c r => p c && all_chars p r
  end.

Definition integer_tags : list string := ["integer"; "int"; "bigint"].
Definition numeric_tags : list string := ["decimal"; "double"; "float"; "real"].
Definition boolean_tags : list string := ["boolean"; "bool"].

(** A type tag that selects the text branch of the binder. *)
Definition text_tag (type : string) : bool :=
  negb (Binder.one_of (integer_tags ++ numeric_tags ++ boolean_tags) (toLowerCase type)).

(** [object[key]]: the value of an own property, if the object has it. *)
Fixpoint property (key : string) (object : RowObject) : option (option string) :=
  match object with
  | [] => None
  | (k, v) :: rest => if String.eqb k key then Some v else property key rest
  end.

(** The time a call spends sleeping. *)
Fixpoint sleeping_time (t : list Event) : Z :=
  match t with
  | [] => 0%Z
  | Slept ms :: rest => (ms + sleeping_time rest)%Z
  | Sent _ :: rest => sleeping_time rest
  end.

Definition is_submission (e : Event) : bool :=
  match e with Sent (StartQueryExecutionCommand _) => true | _ => false end.

Definition is_fetch (e : Event) : bool :=
  match e with Sent (GetQueryResultsCommand _ _) => true | _ => false end.

(** The order in which the host lists the own properties of an object:
    no property is listed after one it would have been listed before,
    so array indices come first, in ascending order. *)
Fixpoint host_order (object : RowObject) : Prop :=
  match object with
  | [] => True
  | (k, _) :: rest =>
      Forall (fun later => listed_before (fst later) k = false) rest /\ host_order rest
  end.

(** The plan an attribute option compiles to: none for an option that
    is absent or blank. *)
Definition compiled (attributeOption : option string) : option Plan :=
  match attributeOption with
  | Some s => if configured attributeOption then Some (processAttributeOption s) else None
  | None => None
  end.

(** A cached plan is current when it is the plan of the option it was
    last compiled from. *)
Definition current (last : option (option string)) (cached : option Plan) : Prop :=
  match last with
  | Some attributeOption => cached = compiled attributeOption
  | None => True
  end.

Definition coherent (g : Globals) : Prop :=
  current (lastDocumentTitleAttributeOption g) (cachedDocumentTitleAttributes g)
  /\ current (lastDetailAttributesOption g) (cachedDetailAttributes g)
  /\ current (lastSummaryAttributesOption g) (cachedSummaryAttributes g).

(** A plan without undefined entry. *)
Definition defined (plan : Plan) : Prop := Forall (fun entry => entry <> None) plan.

(** The title plan does not start with an undefined entry. *)
Definition title_defined (g : Globals) : Prop :=
  match cachedDocumentTitleAttributes g with
  | Some (None :: _) => False
  | _ => True
  end.

(** The module-level variables after a sequence of invocations with the
    given options. *)
Fixpoint cached_after (calls : list Options) (g : Globals) : Globals :=
  match calls with
  | [] => g
  | options :: rest => cached_after rest (setCachedDisplayAttributes options g)
  end.

(** What holds of every document of the detail view: it has an
    attribute, at most one per plan entry, its search text is made of
    its values, and its keys are labels of plan entries whose column
    has a value in one of the rows. *)
Definition well_formed (get : RowObject -> string -> option string) (plan : Plan)
    (results : list RowObject) (document : Document) : Prop :=
  attributes document <> []
  /\ length (attributes document) <= length plan
  /\ resultAsString document = Some (searchable (attributes document))
  /\ exists result,
       In result results
       /\ forall key value,
            In (key, value) (attributes document) ->
            exists attributeObj,
              In (Some attributeObj) plan
              /\ key = label attributeObj
              /\ present (get result (attribute attributeObj)) = true.

(** Two option objects that describe the same connection. *)
Definition same_connection (a b : Options) : bool :=
  String.eqb (region a) (region b)
  && negb (Lookup.option_differs (endpoint a) (endpoint b))
  && String.eqb (accessKeyId a) (accessKeyId b)
  && String.eqb (secretAccessKey a) (secretAccessKey b).

(** The module-level variables as an invocation leaves them before it
    turns to the prepared statement. *)
Definition ready (options : Options) (g : Globals) : Globals :=
  let g :=
    if Statements.is_null (originalOptions g)
    then set_client g (Some options) (athenaClient g) else g in
  let (changed, g) := Lookup.optionsHaveChanged options g in
  let g := if changed || negb (athenaClient g) then Lookup.renew_client true g else g in
  setCachedDisplayAttributes options g.

Definition with_vars {rstate : Type} (w : World rstate) (g : Globals) : World rstate :=
  {| remote := remote w; now := now w; vars := g |}.

(** The client is connected with the given connection options. *)
Definition connected (options : Options) (g : Globals) : Prop :=
  athenaClient g = true
  /\ exists o, originalOptions g = Some o /\ same_connection o options = true.

(** The numbers of the pages of a list, from one. *)
Definition page_numbers (totalResults : nat) : list Z :=
  map (fun k => Z.of_nat (S k)) (seq 0 (Z.to_nat (Component.totalPages totalResults))).

Definition on_page (page : Z) : Component.Paging :=
  {| Component.filterValue := EmptyString; Component.currentPage := page |}.

(** The page shown is one of the pages of the list; a list without
    entry has the page one alone. *)
Definition in_range (p : Component.Paging) (totalResults : nat) : Prop :=
  (1 <= Component.currentPage p <= Z.max 1 (Component.totalPages totalResults))%Z.

(** Whether the search text of an entry holds the filter text. *)
Definition holds {Entry : Type} (resultAsString : Entry -> option string) (f : string)
    (entry : Entry) : bool :=
  match resultAsString entry with
  | Some text => includes_text f text
  | None => false
  end.

Definition searchable_entry {Entry : Type} (resultAsString : Entry -> option string)
    (entry : Entry) : Prop :=
  resultAsString entry <> None.

(** *** Example data *)

(** A service that refuses every submission for want of an output
    bucket. *)
Definition closed_service : Service.Service :=
  {| Service.statements := []; Service.refused := [];
     Service.start :=
       Throw (Service.service_error "InvalidRequestException"
                "Unable to verify/create output bucket logs");
     Service.script := []; Service.rows := Return {| Rows := Some [] |} |}.

End Laws.
(** ** Facts about the type-hint parser *)

Module TypeHintsFacts.

Import TypeHints Notions.

Lemma mark_not_word : is_word_char "?" = false.
Proof. reflexivity. Qed.

Lemma word_char_not_mark c : is_word_char c = true -> Ascii.eqb c "?" = false.
Proof.
  intro H. destruct (Ascii.eqb_spec c "?") as [->|]; [discriminate H | reflexivity].
Qed.

(** Inside a tag name the matcher skips the word characters and then
    goes on as in plain text. *)
Lemma replace_TagName i q :
  replace_placeholders TagName i q = replace_placeholders Text i (after_word q).
Proof.
  induction q as [|c r IH]; [reflexivity|].
  cbn [replace_placeholders after_word in_tag_name andb].
  destruct (is_word_char c) eqn:W; [exact IH|].
  cbn [replace_placeholders in_tag_name andb]. reflexivity.
Qed.

(** The matcher at a placeholder mark: one hint, a bare mark, and the
    text after the whole match. *)
Lemma replace_mark i rest :
  replace_placeholders Text i (String "?" rest) =
  (String "?" (fst (replace_placeholders Text (S i) (after_tag rest))),
   {| index := i; type := hint_type rest |}
     :: snd (replace_placeholders Text (S i) (after_tag rest))).
Proof.
  cbn [replace_placeholders in_tag_name andb]. change (Ascii.eqb "?" "?") with true. cbv iota.
  unfold hint_type, after_tag.
  destruct (type_tag rest) as [w|] eqn:T.
  - destruct rest as [|c r]; [discriminate T|].
    cbn [replace_placeholders]. rewrite replace_TagName.
    destruct (replace_placeholders Text (S i) (after_word r)); reflexivity.
  - destruct (replace_placeholders Text (S i) rest); reflexivity.
Qed.

Lemma replace_other i c rest :
  Ascii.eqb c "?" = false ->
  replace_placeholders Text i (String c rest) =
  (String c (fst (replace_placeholders Text i rest)),
   snd (replace_placeholders Text i rest)).
Proof.
  intro H. cbn [replace_placeholders in_tag_name andb]. rewrite H.
  destruct (replace_placeholders Text i rest); reflexivity.
Qed.

(** Pieces and tags. *)

Lemma pieces_mark rest :
  pieces (String "?" rest) = (EmptyString, fst (pieces rest) :: snd (pieces rest)).
Proof. cbn. destruct (pieces rest); reflexivity. Qed.

Lemma pieces_other c rest :
  Ascii.eqb c "?" = false ->
  pieces (String c rest) = (String c (fst (pieces rest)), snd (pieces rest)).
Proof. intro H. cbn. rewrite H. destruct (pieces rest); reflexivity. Qed.

Lemma word_prefix_pieces s : word_prefix (fst (pieces s)) = word_prefix s.
Proof.
  induction s as [|c r IH]; [reflexivity|].
  destruct (Ascii.eqb c "?") eqn:E.
  - apply Ascii.eqb_eq in E. subst c. rewrite pieces_mark. reflexivity.
  - rewrite (pieces_other _ _ E). cbn. rewrite IH. reflexivity.
Qed.

Lemma type_tag_pieces s : type_tag (fst (pieces s)) = type_tag s.
Proof.
  destruct s as [|c r]; [reflexivity|].
  destruct (Ascii.eqb c "?") eqn:E.
  - apply Ascii.eqb_eq in E. subst c. rewrite pieces_mark. reflexivity.
  - rewrite (pieces_other _ _ E). cbn. rewrite word_prefix_pieces. reflexivity.
Qed.

Lemma pieces_after_word s :
  pieces (after_word s) = (after_word (fst (pieces s)), snd (pieces s)).
Proof.
  induction s as [|c r IH]; [reflexivity|].
  destruct (is_word_char c) eqn:W.
  - rewrite (pieces_other _ _ (word_char_not_mark _ W)). cbn. rewrite W. exact IH.
  - destruct (Ascii.eqb c "?") eqn:E.
    + apply Ascii.eqb_eq in E. subst c. cbn [after_word]. rewrite mark_not_word.
      rewrite pieces_mark. reflexivity.
    + cbn [after_word]. rewrite W. rewrite (pieces_other _ _ E). cbn. rewrite W. reflexivity.
Qed.

Lemma pieces_after_tag s :
  pieces (after_tag s) = (after_tag (fst (pieces s)), snd (pieces s)).
Proof.
  unfold after_tag. rewrite type_tag_pieces.
  destruct (type_tag s) as [w|] eqn:T.
  - destruct s as [|c r]; [discriminate T|].
    destruct (Ascii.eqb c "?") eqn:E.
    + apply Ascii.eqb_eq in E. subst c. discriminate T.
    + rewrite (pieces_other _ _ E). cbn [fst snd]. apply pieces_after_word.
  - destruct (pieces s); reflexivity.
Qed.

Lemma hint_type_pieces s : hint_type (fst (pieces s)) = hint_type s.
Proof. unfold hint_type. rewrite type_tag_pieces. reflexivity. Qed.

Lemma after_word_length s : String.length (after_word s) <= String.length s.
Proof.
  induction s as [|c r IH]; [apply le_n|].
  cbn. destruct (is_word_char c); cbn; lia.
Qed.

Lemma after_tag_length s : String.length (after_tag s) <= String.length s.
Proof.
  unfold after_tag. destruct (type_tag s); [|apply le_n].
  destruct s as [|c r]; [apply le_n|].
  cbn. pose proof (after_word_length r). lia.
Qed.

(** The matcher computes what the specification describes. *)
Lemma replace_spec n : forall q i,
  String.length q <= n ->
  replace_placeholders Text i q =
  (fst (pieces q) ++ glue (map after_tag (snd (pieces q))),
   number_from i (map hint_type (snd (pieces q))))%string.
Proof.
  induction n as [|n IH]; intros q i Hn.
  - destruct q; [reflexivity | cbn in Hn; lia].
  - destruct q as [|c rest]; [reflexivity|].
    cbn [String.length] in Hn.
    destruct (Ascii.eqb c "?") eqn:E.
    + apply Ascii.eqb_eq in E. subst c.
      rewrite replace_mark, pieces_mark.
      rewrite (IH (after_tag rest) (S i)) by (pose proof (after_tag_length rest); lia).
      rewrite pieces_after_tag. cbn [fst snd map glue number_from String.append].
      rewrite hint_type_pieces. reflexivity.
    + rewrite (replace_other _ _ _ E), (pieces_other _ _ E).
      rewrite (IH rest i) by lia. reflexivity.
Qed.

Lemma pieces_free s : mark_free s -> pieces s = (s, []).
Proof.
  unfold mark_free. induction s as [|c r IH]; [reflexivity|].
  cbn [includes]. intro H. apply orb_false_iff in H as [E H].
  rewrite (pieces_other _ _ E), (IH H). reflexivity.
Qed.

Lemma pieces_glue h ps :
  mark_free h -> Forall mark_free ps -> pieces (h ++ glue ps) = (h, ps).
Proof.
  intros Hh Hps. revert h Hh. induction Hps as [|p ps Hp Hps IH]; intros h Hh.
  - cbn [glue]. replace (h ++ EmptyString)%string with h; [apply pieces_free, Hh|].
    clear. induction h; cbn; congruence.
  - cbn [glue]. unfold mark_free in Hh. induction h as [|c r IHh].
    + cbn [String.append]. rewrite pieces_mark, (IH p Hp). reflexivity.
    + cbn [includes] in Hh. apply orb_false_iff in Hh as [E Hh].
      cbn [String.append]. rewrite (pieces_other _ _ E), (IHh Hh). reflexivity.
Qed.

Lemma first_piece_free s : mark_free (fst (pieces s)).
Proof.
  unfold mark_free. induction s as [|c r IH]; [reflexivity|].
  destruct (Ascii.eqb c "?") eqn:E.
  - apply Ascii.eqb_eq in E. subst c. rewrite pieces_mark. reflexivity.
  - rewrite (pieces_other _ _ E). cbn. rewrite E, IH. reflexivity.
Qed.

Lemma other_pieces_free s : Forall mark_free (snd (pieces s)).
Proof.
  induction s as [|c r IH]; [constructor|].
  destruct (Ascii.eqb c "?") eqn:E.
  - apply Ascii.eqb_eq in E. subst c. rewrite pieces_mark.
    constructor; [apply first_piece_free | exact IH].
  - rewrite (pieces_other _ _ E). exact IH.
Qed.

Lemma after_word_free s : mark_free s -> mark_free (after_word s).
Proof.
  unfold mark_free. induction s as [|c r IH]; [reflexivity|].
  cbn [includes after_word]. intro H. destruct (is_word_char c); [|exact H].
  apply orb_false_iff in H as [_ H]. exact (IH H).
Qed.

Lemma after_tag_free s : mark_free s -> mark_free (after_tag s).
Proof.
  unfold after_tag. intro H. destruct (type_tag s); [|exact H].
  destruct s as [|c r]; [exact H|].
  apply after_word_free. unfold mark_free in *. cbn [includes] in H.
  apply orb_false_iff in H as [_ H]. exact H.
Qed.

Lemma stripped_pieces_free s : Forall mark_free (map after_tag (snd (pieces s))).
Proof.
  apply Forall_forall. intros x Hx. apply in_map_iff in Hx as [t [<- Ht]].
  apply after_tag_free.
  pose proof (other_pieces_free s) as F. rewrite Forall_forall in F. exact (F t Ht).
Qed.

Lemma pieces_canonical q :
  pieces (spec_canonical q) = (fst (pieces q), map after_tag (snd (pieces q))).
Proof.
  unfold spec_canonical. apply pieces_glue; [apply first_piece_free | apply stripped_pieces_free].
Qed.

Lemma number_from_length i ts : length (number_from i ts) = length ts.
Proof. revert i. induction ts as [|t ts IH]; intro i; cbn; [reflexivity | rewrite IH; reflexivity]. Qed.

Lemma after_tag_fixed t : after_tag t = t <-> type_tag t = None.
Proof.
  unfold after_tag. destruct (type_tag t) as [w|] eqn:T; split; intro H;
    try reflexivity; try discriminate.
  destruct t as [|c r]; [discriminate T|].
  exfalso. pose proof (after_word_length r) as L. rewrite H in L. cbn in L. lia.
Qed.

(** The placeholders of a template are its marks. *)
Lemma placeholder_count_marks c q :
  placeholder_count (String c q)
  = (if Ascii.eqb c "?" then 1 else 0) + placeholder_count q.
Proof.
  unfold placeholder_count. destruct (Ascii.eqb c "?") eqn:E.
  - apply Ascii.eqb_eq in E. subst c. rewrite pieces_mark. reflexivity.
  - rewrite (pieces_other _ _ E). reflexivity.
Qed.

Lemma parse_spec q :
  parseTypeHints q = {| query := spec_canonical q; typeHints := spec_hints q |}.
Proof.
  unfold parseTypeHints. rewrite (replace_spec (String.length q) q 0 (le_n _)). reflexivity.
Qed.

Lemma canonical_hint_count q :
  placeholder_count (spec_canonical q) = placeholder_count q.
Proof.
  unfold placeholder_count. rewrite pieces_canonical. cbn [snd]. apply length_map.
Qed.

Lemma canonical_fixed q :
  spec_canonical (spec_canonical q) = spec_canonical q <->
  Forall unchained (snd (pieces q)).
Proof.
  assert (E : spec_canonical (spec_canonical q) =
              (fst (pieces q) ++ glue (map after_tag (map after_tag (snd (pieces q)))))%string).
  { unfold spec_canonical at 1. rewrite pieces_canonical. reflexivity. }
  rewrite E. clear E. unfold spec_canonical. split.
  - intro H.
    assert (F : Forall mark_free (map after_tag (map after_tag (snd (pieces q))))).
    { apply Forall_forall. intros x Hx. apply in_map_iff in Hx as [t [<- Ht]].
      apply after_tag_free.
      pose proof (stripped_pieces_free q) as F. rewrite Forall_forall in F. exact (F t Ht). }
    pose proof (pieces_glue _ _ (first_piece_free q) F) as A.
    pose proof (pieces_glue _ _ (first_piece_free q) (stripped_pieces_free q)) as B.
    rewrite H, B in A. symmetry in A. clear B F.
    assert (P : map after_tag (map after_tag (snd (pieces q))) = map after_tag (snd (pieces q)))
      by (injection A; auto).
    clear A H.
    induction (snd (pieces q)) as [|t ts IH]; [constructor|].
    cbn [map] in P. injection P as P1 P2.
    constructor; [apply after_tag_fixed; exact P1 | exact (IH P2)].
  - intro H. f_equal. f_equal.
    induction H as [|t ts Ht _ IH]; [reflexivity|].
    cbn [map]. rewrite IH. f_equal. apply after_tag_fixed. exact Ht.
Qed.

(** C8 (as amended): for every template with K placeholders,
    [parseTypeHints] returns exactly K hints in source order, each with
    the tag of its placeholder or "string" when it has none, and the
    canonical template in which each mark has lost its tag; parsing the
    canonical template again yields K hints again; it yields the same
    template again exactly when no tag of the original is directly
    followed by a further colon and word character. *)
Theorem parseTypeHints_hints_and_canonical (q : string) :
  typeHints (parseTypeHints q) = spec_hints q
  /\ length (typeHints (parseTypeHints q)) = placeholder_count q
  /\ query (parseTypeHints q) = spec_canonical q
  /\ length (typeHints (parseTypeHints (query (parseTypeHints q)))) = placeholder_count q
  /\ (Forall unchained (snd (pieces q)) <->
      query (parseTypeHints (query (parseTypeHints q))) = query (parseTypeHints q)).
Proof.
  rewrite !parse_spec. cbn [query typeHints]. rewrite ?parse_spec. cbn [query typeHints].
  assert (L : forall s, length (spec_hints s) = placeholder_count s).
  { intro s. unfold spec_hints, placeholder_count.
    rewrite number_from_length, length_map. reflexivity. }
  rewrite !L, canonical_hint_count.
  repeat split; try reflexivity; apply canonical_fixed.
Qed.

(** Witness for C8: a template with a typed and an untyped placeholder. *)
Lemma parseTypeHints_hints_and_canonical_witness :
  query (parseTypeHints (query (parseTypeHints "SELECT * FROM logs WHERE port = ?:int AND ip = ?")))
  = query (parseTypeHints "SELECT * FROM logs WHERE port = ?:int AND ip = ?").
Proof.
  apply (proj1 (proj2 (proj2 (proj2 (proj2
    (parseTypeHints_hints_and_canonical
       "SELECT * FROM logs WHERE port = ?:int AND ip = ?")))))).
  repeat constructor.
Defined.

(** C8 (counterexample): a tag followed by a second tag.  The canonical
    template of "?:a:b" is "?:b"; parsing it again gives "?". *)
Lemma parseTypeHints_not_idempotent :
  query (parseTypeHints "?:a:b") = "?:b"
  /\ query (parseTypeHints (query (parseTypeHints "?:a:b"))) = "?"
  /\ query (parseTypeHints (query (parseTypeHints "?:a:b")))
     <> query (parseTypeHints "?:a:b").
Proof. repeat split. discriminate. Qed.

End TypeHintsFacts.

(** ** Facts about the parameter binder *)

Module BinderFacts.

Import Binder.

Section WithFloats.

Variable floatText : string -> string.

(** Texts are quoted after escaping. *)
Lemma bind_string_abc :
  createParameterValue floatText "abc" "string" = Return "'abc'".
Proof. reflexivity. Qed.

Lemma bind_string_quote :
  createParameterValue floatText "O'Brien" "string" = Return "'O\'Brien'".
Proof. reflexivity. Qed.

Lemma bind_integer_abc :
  createParameterValue floatText "abc" "integer"
  = Throw (cannot_convert "abc" "integer").
Proof. reflexivity. Qed.

(** A run of digits too long for plain notation comes back in exponent
    notation. *)
Lemma bind_integer_exponent :
  createParameterValue floatText "1000000000000000000000" "bigint" = Return "1e+21".
Proof. vm_compute. reflexivity. Qed.

(** Booleans: every value whose lower-case form is none of the four
    accepted words is refused. *)
Lemma bind_boolean_refuses (entityValue type : string) :
  one_of ["boolean"; "bool"] (toLowerCase type) = true ->
  one_of ["true"; "1"; "false"; "0"] (toLowerCase entityValue) = false ->
  createParameterValue floatText entityValue type
  = Throw (cannot_convert entityValue "boolean").
Proof.
  intros Ht Hv. unfold createParameterValue.
  assert (H1 : one_of ["integer"; "int"; "bigint"] (toLowerCase type) = false).
  { unfold one_of in *. cbn [existsb] in *.
    repeat (apply orb_prop in Ht as [Ht|Ht]; [apply String.eqb_eq in Ht; rewrite Ht; reflexivity|]).
    discriminate Ht. }
  assert (H2 : one_of ["decimal"; "double"; "float"; "real"] (toLowerCase type) = false).
  { unfold one_of in *. cbn [existsb] in *.
    repeat (apply orb_prop in Ht as [Ht|Ht]; [apply String.eqb_eq in Ht; rewrite Ht; reflexivity|]).
    discriminate Ht. }
  rewrite H1, H2, Ht.
  unfold one_of in Hv. cbn [existsb] in Hv.
  repeat (apply orb_false_iff in Hv as [? Hv]).
  repeat match goal with H : String.eqb _ _ = false |- _ => rewrite H; clear H end.
  reflexivity.
Qed.

(** Integers: the binder fails exactly when [parseInt] finds no digit. *)
Lemma bind_integer_throws_iff (entityValue type : string) :
  one_of ["integer"; "int"; "bigint"] (toLowerCase type) = true ->
  (createParameterValue floatText entityValue type
   = Throw (cannot_convert entityValue "integer")
   <-> Num.parseInt entityValue = Num.NaN).
Proof.
  intro Ht. unfold createParameterValue. rewrite Ht.
  destruct (Num.parseInt entityValue); cbn; split; intro H;
    try reflexivity; try discriminate H.
Qed.

(** C5 (failing input): an integer placeholder bound to a text that only
    starts with digits.  [parseInt] reads the digits and drops the rest,
    so the binder returns the literal 12 instead of failing. *)
Theorem bind_integer_accepts_trailing_text :
  createParameterValue floatText "12abc" "integer" = Return "12".
Proof. reflexivity. Qed.

End WithFloats.

End BinderFacts.

(** ** Facts about the attribute projection engine *)

Module AttributesFacts.

Import Data Attributes Notions.

(** *** Deduplication *)

Lemma unique_from_spec seen tags :
  NoDup (unique_from seen tags)
  /\ (forall t, In t (unique_from seen tags) -> ~ In t seen).
Proof.
  revert seen. induction tags as [|t rest IH]; intro seen; cbn [unique_from].
  - split; [constructor | intros t []].
  - destruct (existsb (String.eqb t) seen) eqn:E.
    + apply IH.
    + destruct (IH (t :: seen)) as [N D]. split.
      * constructor; [|exact N]. intro H. apply (D t H). left. reflexivity.
      * intros u [<-|H].
        -- intro Hin. assert (existsb (String.eqb t) seen = true) as C.
           { apply existsb_exists. exists t. split; [exact Hin | apply String.eqb_refl]. }
           congruence.
        -- intro Hin. apply (D u H). right. exact Hin.
Qed.

Lemma unique_NoDup tags : NoDup (unique tags).
Proof. apply unique_from_spec. Qed.

(** *** Parsing never throws *)

Section Libraries.

Variable dates : DateLibrary.
Variable get : RowObject -> string -> option string.

Lemma try_catch_returns {A} (body : completion A) (a : A) :
  exists v, try_catch body (fun _ => Return a) = Return v.
Proof. destruct body; cbn; eauto. Qed.

Lemma parseAttribute_returns attribute parser :
  exists v, parseAttribute dates attribute parser = Return v.
Proof.
  destruct attribute as [a|]; cbn [parseAttribute]; [apply try_catch_returns | eauto].
Qed.

Lemma parseAttribute_date p attribute d :
  library_date dates p attribute = Some d ->
  parseAttribute dates (Some attribute) (Some p)
  = try_catch (short_or_original dates attribute d) (fun _ => Return attribute).
Proof.
  unfold library_date, parseAttribute. intro H.
  repeat match type of H with
         | (if ?b then _ else _) = _ => destruct b
         end;
    first [ injection H as <-; reflexivity | discriminate H ].
Qed.

Lemma parseAttribute_fallback p attribute d :
  library_date dates p attribute = Some d -> unparsable dates d ->
  parseAttribute dates (Some attribute) (Some p) = Return attribute.
Proof.
  intros H U. rewrite (parseAttribute_date _ _ _ H).
  destruct d as [date|e]; cbn; [|reflexivity].
  destruct U as [V|[e V]].
  - rewrite V. reflexivity.
  - destruct (isValid dates date); [rewrite V|]; reflexivity.
Qed.

(** *** Plans with an undefined entry *)

Lemma detail_document_undefined plan result :
  In None plan -> detail_document dates get plan result = Throw undefined_entry.
Proof.
  induction plan as [|entry rest IH]; intro H; [destruct H | destruct H as [H|H]].
  - subst entry. reflexivity.
  - destruct entry as [a|]; [|reflexivity].
    cbn [detail_document]. rewrite (IH H).
    destruct (present (get result (attribute a))); [|reflexivity].
    destruct (parseAttribute_returns (get result (attribute a)) (parser a)) as [v ->].
    reflexivity.
Qed.

Lemma summary_rows_returns a budget results :
  exists tags, summary_rows dates get (Some a) budget results = Return tags.
Proof.
  revert results. induction budget as [|b IH]; intros [|r rest]; cbn [summary_rows]; eauto.
  destruct (IH rest) as [tags E]. rewrite E.
  destruct (present (get r (attribute a))); [|eauto].
  destruct (parseAttribute_returns (get r (attribute a)) (parser a)) as [v ->].
  cbn. eauto.
Qed.

Lemma summary_tags_undefined plan budget result results :
  In None plan ->
  summary_tags dates get plan (S budget) (result :: results) = Throw undefined_entry.
Proof.
  induction plan as [|entry rest IH]; intro H; [destruct H | destruct H as [H|H]].
  - subst entry. reflexivity.
  - destruct entry as [a|]; [|reflexivity].
    cbn [summary_tags].
    destruct (summary_rows_returns a (S budget) (result :: results)) as [tags ->].
    cbn [and_then]. rewrite (IH H). reflexivity.
Qed.

End Libraries.

(** *** Tokens *)

Lemma processToken_many_fields token :
  4 <= length (split ":" token) -> processToken token = None.
Proof.
  unfold processToken. destruct (split ":" token) as [|a [|b [|c [|d l]]]]; cbn; intro H;
    try lia; reflexivity.
Qed.

(** C10: a comma-separated token with four or more colon-separated
    fields yields an undefined entry at its position in the plan, and
    the consumers of a plan with such an entry read a property of
    undefined: [getDetails] and [getSummaryTags] on any row (for the
    summary, when at least one row may be scanned), [getDocumentTitle]
    when the entry is the first. *)
Theorem processAttributeOption_undefined_entry
    (dates : DateLibrary) (get : RowObject -> string -> option string)
    (attributeOption token : string) (i : nat) :
  nth_error (split "," attributeOption) i = Some token ->
  4 <= length (split ":" token) ->
  nth_error (processAttributeOption attributeOption) i = Some None
  /\ In None (processAttributeOption attributeOption)
  /\ (forall g result results complete id stats,
        cachedDetailAttributes g = Some (processAttributeOption attributeOption) ->
        getDetails dates get g (result :: results) complete id stats
        = Throw undefined_entry)
  /\ (forall g result results options,
        cachedSummaryAttributes g = Some (processAttributeOption attributeOption) ->
        0 < maxSummaryDocuments options ->
        getSummaryTags dates get g (result :: results) options = Throw undefined_entry)
  /\ (forall g result,
        cachedDocumentTitleAttributes g = Some (processAttributeOption attributeOption) ->
        i = 0 ->
        getDocumentTitle dates get g result = Throw undefined_entry).
Proof.
  intros Hi Hn.
  assert (E : nth_error (processAttributeOption attributeOption) i = Some None).
  { unfold processAttributeOption. rewrite nth_error_map, Hi. cbn.
    rewrite (processToken_many_fields _ Hn). reflexivity. }
  assert (M : In None (processAttributeOption attributeOption))
    by (eapply nth_error_In; exact E).
  split; [exact E|]. split; [exact M|]. repeat split.
  - intros g result results complete id stats Hc.
    unfold getDetails. rewrite Hc.
    destruct (processAttributeOption attributeOption) as [|e plan] eqn:P; [destruct M|].
    cbn [no_plan detail_documents and_then].
    rewrite (detail_document_undefined dates get _ result M). reflexivity.
  - intros g result results options Hc Hmax.
    unfold getSummaryTags. rewrite Hc.
    destruct (processAttributeOption attributeOption) as [|e plan] eqn:P; [destruct M|].
    cbn [no_plan].
    destruct (maxSummaryDocuments options) as [|b]; [lia|].
    rewrite (summary_tags_undefined dates get _ b result results M). reflexivity.
  - intros g result Hc ->.
    unfold getDocumentTitle. rewrite Hc.
    destruct (processAttributeOption attributeOption) as [|[a|] plan]; cbn in E;
      [discriminate E | discriminate E | reflexivity].
Qed.

(** Witness for C10. *)
Lemma processAttributeOption_undefined_entry_witness :
  nth_error (processAttributeOption "a,b:c:d:e") 1 = Some None
  /\ getDetails sample Service.column (cached "a,b:c:d:e") three_rows true None None
     = Throw undefined_entry.
Proof.
  destruct (processAttributeOption_undefined_entry sample Service.column
              "a,b:c:d:e" "b:c:d:e" 1 eq_refl (le_n 4)) as [H1 [_ [H2 _]]].
  split; [exact H1 | apply H2; reflexivity].
Defined.

(** C6 (counterexample): with the spec "a" the tags carry the label a,
    and with one summary document the count tag comes after the tag of
    the scanned row. *)
Lemma getSummaryTags_example_differs :
  getSummaryTags sample Service.column (cached "a") three_rows (summary_options "a" 3)
    <> Return ["x"; "y"]
  /\ getSummaryTags sample Service.column (cached "a") three_rows (summary_options "a" 1)
    <> Return ["3 results"].
Proof. split; vm_compute; discriminate. Qed.

(** C6 (as amended): on the rows [{a:"x"}, {a:"x"}, {a:"y"}] with the
    spec "a", [getSummaryTags] returns ["a: x", "a: y"] for three summary
    documents and ["a: x", "3 results"] for one; with the label-less
    spec ":a" it returns ["x", "y"] and ["x", "3 results"]; the earlier
    revision keeps the duplicate; and whatever the resumable revision
    returns has no duplicate tag. *)
Theorem getSummaryTags_example (dates : DateLibrary) :
  getSummaryTags dates Service.column (cached "a") three_rows (summary_options "a" 3)
    = Return ["a: x"; "a: y"]
  /\ getSummaryTags dates Service.column (cached "a") three_rows (summary_options "a" 1)
    = Return ["a: x"; "3 results"]
  /\ getSummaryTags dates Service.column (cached ":a") three_rows (summary_options ":a" 3)
    = Return ["x"; "y"]
  /\ getSummaryTags dates Service.column (cached ":a") three_rows (summary_options ":a" 1)
    = Return ["x"; "3 results"]
  /\ getSummaryTags_earlier dates Service.column three_rows (summary_options "a" 3)
    = Return ["a: x"; "a: x"; "a: y"]
  /\ (forall get g results options tags,
        getSummaryTags dates get g results options = Return tags -> NoDup tags).
Proof.
  repeat split; try reflexivity.
  intros get g results options tags. unfold getSummaryTags.
  destruct (no_plan (cachedSummaryAttributes g)).
  - intro H. injection H as <-. repeat constructor. intros [].
  - destruct (summary_tags _ _ _ _ _) as [ts|e]; cbn; intro H; [|discriminate H].
    injection H as <-. apply unique_NoDup.
Qed.

(** Witness for C6. *)
Lemma getSummaryTags_example_witness : NoDup ["a: x"; "a: y"].
Proof.
  exact (proj2 (proj2 (proj2 (proj2 (proj2 (getSummaryTags_example sample)))))
           Service.column (cached "a") three_rows (summary_options "a" 3)
           ["a: x"; "a: y"] eq_refl).
Defined.

(** *** Epoch parsers of the reference library *)

Lemma distinct_at_offsets : forallb distinct_at offsets = true.
Proof. vm_compute. reflexivity. Qed.

Lemma distinct_in_range offset :
  (-1440 <= offset <= 1440)%Z -> distinct_at offset = true.
Proof.
  intro H. pose proof distinct_at_offsets as F. rewrite forallb_forall in F.
  apply F. unfold offsets. apply in_map_iff.
  exists (Z.to_nat (offset + 1440)). split; [lia|]. apply in_seq. lia.
Qed.

Lemma reference_seconds text_parser other_number offset :
  parseAttribute (ReferenceDates.library text_parser other_number offset)
    (Some epoch_text) (Some "date-seconds")
  = Return (ReferenceDates.short_en_US offset 1649724681000).
Proof. reflexivity. Qed.

Lemma reference_millis text_parser other_number offset :
  parseAttribute (ReferenceDates.library text_parser other_number offset)
    (Some epoch_text) (Some "date-millis")
  = Return (ReferenceDates.short_en_US offset 1649724681).
Proof. reflexivity. Qed.



End AttributesFacts.

(** ** Facts about the query execution state machine *)

Module ExecutionFacts.

Import Data Async Execution Notions.
Local Open Scope async_scope.

Lemma rounds_status_checks id k : count is_status_check (rounds id k) = k.
Proof.
  induction k as [|k IH]; [reflexivity|]. unfold count in *. cbn. rewrite IH. reflexivity.
Qed.

Lemma rounds_sleeps id k : count is_sleep (rounds id k) = k.
Proof.
  induction k as [|k IH]; [reflexivity|]. unfold count in *. cbn. rewrite IH. reflexivity.
Qed.

Lemma count_app p t u : count p (t ++ u) = count p t + count p u.
Proof. unfold count. rewrite filter_app, length_app. reflexivity. Qed.

Section Client.

Variable rstate : Type.
Variable send : forall R : Type, Command R -> rstate -> completion R * rstate.
Variable revision : Revision.

Lemma poll_unfold id attempts statusResult queryStatus :
  poll send revision id attempts statusResult queryStatus =
  if pending queryStatus then
    if le_lt_dec (MAX_QUERY_STATUS_POLLING_ATTEMPTS revision) attempts
    then suspended revision id statusResult
    else
      sleep POLLING_WAIT_INTERVAL ;;;
      statusResult <- await_send send (GetQueryExecutionCommand id) ;;
      poll send revision id (S attempts) (Some statusResult) (State statusResult)
  else ret (Left queryStatus statusResult).
Proof.
  rewrite poll_equation_1. unfold poll_unfold_clause_1.
  destruct (pending queryStatus); [|reflexivity].
  unfold poll_unfold_clause_2 || unfold poll_unfold_clause_1_clause_2.
  destruct (le_lt_dec (MAX_QUERY_STATUS_POLLING_ATTEMPTS revision) attempts); reflexivity.
Qed.

(** One round: sleep, then a status check. *)
Lemma poll_round id attempts statusResult queryStatus w a rs :
  pending queryStatus = true ->
  attempts < MAX_QUERY_STATUS_POLLING_ATTEMPTS revision ->
  send _ (GetQueryExecutionCommand id) (remote w) = (a, rs) ->
  let run := poll send revision id attempts statusResult queryStatus w in
  match a with
  | Return qe =>
      let next := poll send revision id (S attempts) (Some qe) (State qe) (after_round w rs) in
      result run = result next /\ final run = final next
      /\ trace run = round id ++ trace next
  | Throw e =>
      result run = Throw e /\ final run = after_round w rs /\ trace run = round id
  end.
Proof.
  intros Hp Ha Hs. cbv zeta. rewrite poll_unfold, Hp.
  destruct (le_lt_dec (MAX_QUERY_STATUS_POLLING_ATTEMPTS revision) attempts) as [L|_]; [lia|].
  unfold bind, sleep, await_send, after_round. cbn [result final trace remote now vars].
  rewrite Hs.
  destruct a as [qe|e]; [|repeat split].
  destruct (poll send revision id (S attempts) (Some qe) (State qe) _) as [r f t].
  repeat split.
Qed.

Lemma poll_suspended id attempts statusResult queryStatus w :
  pending queryStatus = true ->
  MAX_QUERY_STATUS_POLLING_ATTEMPTS revision <= attempts ->
  let run := poll send revision id attempts statusResult queryStatus w in
  trace run = [] /\ final run = w
  /\ exists r, result run = Return (Returned r)
               /\ complete r = false /\ queryExecutionId r = id /\ results r = None.
Proof.
  intros Hp Ha. cbv zeta. rewrite poll_unfold, Hp.
  destruct (le_lt_dec (MAX_QUERY_STATUS_POLLING_ATTEMPTS revision) attempts) as [_|L]; [|lia].
  unfold suspended. destruct revision; cbn; repeat split; eauto.
Qed.

Lemma poll_left id attempts statusResult queryStatus w :
  pending queryStatus = false ->
  poll send revision id attempts statusResult queryStatus w
  = {| result := Return (Left queryStatus statusResult); final := w; trace := [] |}.
Proof. intro Hp. rewrite poll_unfold, Hp. reflexivity. Qed.

(** The loop runs whole rounds, and never more than the budget allows. *)
Lemma poll_rounds id k : forall attempts statusResult queryStatus w,
  attempts + k = MAX_QUERY_STATUS_POLLING_ATTEMPTS revision ->
  exists j, j <= k
            /\ trace (poll send revision id attempts statusResult queryStatus w) = rounds id j.
Proof.
  induction k as [|k IH]; intros attempts statusResult queryStatus w Hk.
  - exists 0. split; [lia|].
    destruct (pending queryStatus) eqn:Hp.
    + apply poll_suspended; [exact Hp | lia].
    + rewrite (poll_left _ _ _ _ _ Hp). reflexivity.
  - destruct (pending queryStatus) eqn:Hp.
    + destruct (send _ (GetQueryExecutionCommand id) (remote w)) as [a rs] eqn:Hs.
      pose proof (poll_round id attempts statusResult queryStatus w a rs Hp ltac:(lia) Hs) as R.
      cbv zeta in R. destruct a as [qe|e].
      * destruct R as [_ [_ Rt]].
        destruct (IH (S attempts) (Some qe) (State qe) (after_round w rs) ltac:(lia))
          as [j [Hj Ht]].
        exists (S j). split; [lia|]. rewrite Rt, Ht. reflexivity.
      * destruct R as [_ [_ Rt]]. exists 1. split; [lia|]. rewrite Rt. reflexivity.
    + exists 0. split; [lia|]. rewrite (poll_left _ _ _ _ _ Hp). reflexivity.
Qed.

(** Every answer within the budget is pending: the loop ends by its
    inner return, after exactly the budget of rounds. *)
Lemma poll_exhausted id k : forall attempts statusResult queryStatus w,
  attempts + k = MAX_QUERY_STATUS_POLLING_ATTEMPTS revision ->
  pending queryStatus = true ->
  forallb pending_answer (status_answers send id k (remote w)) = true ->
  let run := poll send revision id attempts statusResult queryStatus w in
  trace run = rounds id k
  /\ exists r, result run = Return (Returned r)
               /\ complete r = false /\ queryExecutionId r = id /\ results r = None.
Proof.
  induction k as [|k IH]; intros attempts statusResult queryStatus w Hk Hp Hall; cbv zeta.
  - destruct (poll_suspended id attempts statusResult queryStatus w Hp ltac:(lia))
      as [Ht [_ Hr]]. split; [exact Ht | exact Hr].
  - cbn [status_answers] in Hall.
    destruct (send _ (GetQueryExecutionCommand id) (remote w)) as [a rs] eqn:Hs.
    cbn [forallb] in Hall. apply andb_prop in Hall as [Ha Hall].
    destruct a as [qe|e]; [|discriminate Ha]. cbn [pending_answer] in Ha.
    pose proof (poll_round id attempts statusResult queryStatus w (Return qe) rs
                  Hp ltac:(lia) Hs) as R.
    cbv zeta in R. destruct R as [Rr [_ Rt]].
    destruct (IH (S attempts) (Some qe) (State qe) (after_round w rs) ltac:(lia) Ha Hall)
      as [Ht Hr].
    rewrite Rr, Rt, Ht. split; [reflexivity | exact Hr].
Qed.

(** After [j] pending answers within the budget, an answer that is not
    pending ends the loop. *)
Lemma poll_answered id j : forall attempts statusResult queryStatus w a rs,
  attempts + j < MAX_QUERY_STATUS_POLLING_ATTEMPTS revision ->
  pending queryStatus = true ->
  forallb pending_answer (status_answers send id j (remote w)) = true ->
  send _ (GetQueryExecutionCommand id) (after_checks send id j (remote w)) = (a, rs) ->
  pending_answer a = false ->
  let run := poll send revision id attempts statusResult queryStatus w in
  trace run = rounds id (S j)
  /\ remote (final run) = rs
  /\ result run = match a with
                  | Return qe => Return (Left (State qe) (Some qe))
                  | Throw e => Throw e
                  end.
Proof.
  induction j as [|j IH]; intros attempts statusResult queryStatus w a rs Hj Hp Hall Hs Ha;
    cbv zeta.
  - cbn [after_checks] in Hs.
    pose proof (poll_round id attempts statusResult queryStatus w a rs Hp ltac:(lia) Hs) as R.
    cbv zeta in R. destruct a as [qe|e].
    + destruct R as [Rr [Rf Rt]]. cbn [pending_answer] in Ha.
      rewrite (poll_left _ _ _ _ _ Ha) in Rr, Rf, Rt. cbn [result final trace] in Rr, Rf, Rt.
      rewrite Rr, Rf, Rt. repeat split.
    + destruct R as [Rr [Rf Rt]]. rewrite Rr, Rf, Rt. repeat split.
  - cbn [status_answers after_checks] in Hall, Hs.
    destruct (send _ (GetQueryExecutionCommand id) (remote w)) as [b rs1] eqn:Hb.
    cbn [forallb snd] in Hall, Hs. apply andb_prop in Hall as [Hb1 Hall].
    destruct b as [qe|e]; [|discriminate Hb1]. cbn [pending_answer] in Hb1.
    pose proof (poll_round id attempts statusResult queryStatus w (Return qe) rs1
                  Hp ltac:(lia) Hb) as R.
    cbv zeta in R. destruct R as [Rr [Rf Rt]].
    destruct (IH (S attempts) (Some qe) (State qe) (after_round w rs1) a rs
                ltac:(lia) Hb1 Hall Hs Ha) as [Ht [Hf Hr]].
    rewrite Rr, Rf, Rt, Ht, Hf, Hr. repeat split.
Qed.

(** The loop as [executeAthenaQuery] enters it. *)
Lemma exec_started queryParams options w id rs :
  send _ (StartQueryExecutionCommand queryParams) (remote w) = (Return id, rs) ->
  let loop := poll send revision id 0 None "RUNNING"
                {| remote := rs; now := now w; vars := vars w |} in
  let run := executeAthenaQuery send revision queryParams options w in
  match result loop with
  | Throw e =>
      result run = Throw e
      /\ trace run = Sent (StartQueryExecutionCommand queryParams) :: trace loop
  | Return (Returned r) =>
      result run = Return r
      /\ trace run = Sent (StartQueryExecutionCommand queryParams) :: trace loop
  | Return (Left queryStatus None) =>
      trace run = Sent (StartQueryExecutionCommand queryParams) :: trace loop
  | Return (Left queryStatus (Some qe)) =>
      if failed_or_cancelled queryStatus then
        result run =
          Throw (mkError (if String.eqb queryStatus "FAILED"
                          then "Query failed: " ++ interpolate (StateChangeReason qe)
                          else "Query was cancelled"))
        /\ trace run = Sent (StartQueryExecutionCommand queryParams) :: trace loop
      else
        trace run = Sent (StartQueryExecutionCommand queryParams)
                      :: trace loop
                      ++ [Sent (GetQueryResultsCommand id (limit_or_default options))]
        /\ result run =
             match fst (send _ (GetQueryResultsCommand id (limit_or_default options))
                          (remote (final loop))) with
             | Return resultsResponse =>
                 Return {| results := Some (rows_to_objects (Rows resultsResponse));
                           complete := true;
                           queryExecutionId := id;
                           executionStats := stats_of revision qe |}
             | Throw e => Throw e
             end
  end.
Proof.
  intro Hs. cbv zeta. unfold executeAthenaQuery, bind, catch, await_send, ret, throw.
  rewrite Hs. cbn [result final trace].
  destruct (poll send revision id 0 None "RUNNING" _) as [res fin tr].
  cbn [result final trace].
  destruct res as [[r|queryStatus [qe|]]|e]; cbn [result final trace app];
    rewrite ?app_nil_r; try (split; reflexivity); try reflexivity.
  destruct (failed_or_cancelled queryStatus); cbn [result final trace];
    rewrite ?app_nil_r; try (split; reflexivity).
  destruct (send _ (GetQueryResultsCommand id (limit_or_default options)) (remote fin))
    as [rr rs2].
  cbn [result final trace fst].
  destruct rr; cbn [result final trace]; rewrite ?app_nil_r; split; reflexivity.
Qed.

Lemma exec_start_throws queryParams options w e rs :
  send _ (StartQueryExecutionCommand queryParams) (remote w) = (Throw e, rs) ->
  let run := executeAthenaQuery send revision queryParams options w in
  result run = Throw (start_error e)
  /\ trace run = [Sent (StartQueryExecutionCommand queryParams)].
Proof.
  intro Hs. cbv zeta. unfold executeAthenaQuery, bind, catch, await_send, throw.
  rewrite Hs. cbn. split; reflexivity.
Qed.

(** The trace of an execution: the submission, whole rounds of the
    loop within the budget, and at most the fetch of the results. *)
Lemma exec_trace queryParams options w :
  exists id j tail,
    j <= MAX_QUERY_STATUS_POLLING_ATTEMPTS revision
    /\ trace (executeAthenaQuery send revision queryParams options w)
       = Sent (StartQueryExecutionCommand queryParams) :: rounds id j ++ tail
    /\ (tail = []
        \/ tail = [Sent (GetQueryResultsCommand id (limit_or_default options))]).
Proof.
  destruct (send _ (StartQueryExecutionCommand queryParams) (remote w)) as [[id|e] rs] eqn:Hs.
  - pose proof (exec_started queryParams options w id rs Hs) as E. cbv zeta in E.
    destruct (poll_rounds id (MAX_QUERY_STATUS_POLLING_ATTEMPTS revision) 0 None "RUNNING"
                {| remote := rs; now := now w; vars := vars w |} eq_refl) as [j [Hj Ht]].
    rewrite Ht in E. exists id, j.
    destruct (result (poll send revision id 0 None "RUNNING" _))
      as [[r|queryStatus [qe|]]|e].
    + exists []. rewrite app_nil_r. intuition.
    + destruct (failed_or_cancelled queryStatus).
      * exists []. rewrite app_nil_r. intuition.
      * exists [Sent (GetQueryResultsCommand id (limit_or_default options))]. intuition.
    + exists []. rewrite app_nil_r. intuition.
    + exists []. rewrite app_nil_r. intuition.
  - destruct (exec_start_throws queryParams options w e rs Hs) as [_ Ht].
    exists EmptyString, 0, []. split; [lia|]. split; [exact Ht | left; reflexivity].
Qed.

(** C1: the polling loop performs at most the fixed number of status
    checks (ten in the resumable revision, fifteen in the earlier one),
    each right after one sleep of the fixed interval; and when every
    answer within the budget is QUEUED or RUNNING, the call returns,
    after exactly that many checks, a result with [complete] false and
    the execution id the submission returned. *)
Theorem executeAthenaQuery_polls_within_budget queryParams options w :
  MAX_QUERY_STATUS_POLLING_ATTEMPTS Resumable = 10
  /\ MAX_QUERY_STATUS_POLLING_ATTEMPTS Earlier = 15
  /\ (exists id j tail,
        j <= MAX_QUERY_STATUS_POLLING_ATTEMPTS revision
        /\ trace (executeAthenaQuery send revision queryParams options w)
           = Sent (StartQueryExecutionCommand queryParams) :: rounds id j ++ tail
        /\ (tail = []
            \/ tail = [Sent (GetQueryResultsCommand id (limit_or_default options))]))
  /\ count is_status_check (trace (executeAthenaQuery send revision queryParams options w))
     <= MAX_QUERY_STATUS_POLLING_ATTEMPTS revision
  /\ count is_sleep (trace (executeAthenaQuery send revision queryParams options w))
     = count is_status_check (trace (executeAthenaQuery send revision queryParams options w))
  /\ (forall id rs,
        send _ (StartQueryExecutionCommand queryParams) (remote w) = (Return id, rs) ->
        forallb pending_answer
          (status_answers send id (MAX_QUERY_STATUS_POLLING_ATTEMPTS revision) rs) = true ->
        count is_status_check (trace (executeAthenaQuery send revision queryParams options w))
        = MAX_QUERY_STATUS_POLLING_ATTEMPTS revision
        /\ exists r,
             result (executeAthenaQuery send revision queryParams options w) = Return r
             /\ complete r = false /\ queryExecutionId r = id /\ results r = None).
Proof.
  split; [reflexivity|]. split; [reflexivity|].
  pose proof (exec_trace queryParams options w) as T.
  split; [exact T|].
  destruct T as [id [j [tail [Hj [Ht Htail]]]]].
  assert (C : count is_status_check
                (trace (executeAthenaQuery send revision queryParams options w)) = j
              /\ count is_sleep
                   (trace (executeAthenaQuery send revision queryParams options w)) = j).
  { rewrite Ht.
    change (Sent (StartQueryExecutionCommand queryParams) :: rounds id j ++ tail)
      with ([Sent (StartQueryExecutionCommand queryParams)] ++ rounds id j ++ tail).
    rewrite !count_app, rounds_status_checks, rounds_sleeps.
    destruct Htail as [->| ->]; cbn; lia. }
  destruct C as [C1 C2]. split; [lia|]. split; [lia|].
  intros id' rs Hs Hall.
  pose proof (exec_started queryParams options w id' rs Hs) as E. cbv zeta in E.
  destruct (poll_exhausted id' (MAX_QUERY_STATUS_POLLING_ATTEMPTS revision) 0 None "RUNNING"
              {| remote := rs; now := now w; vars := vars w |} eq_refl eq_refl Hall)
    as [Lt [r [Lr Hr]]].
  rewrite Lr in E. destruct E as [Er Et].
  split.
  - rewrite Et, Lt.
    change (Sent (StartQueryExecutionCommand queryParams) :: rounds id' _)
      with ([Sent (StartQueryExecutionCommand queryParams)]
              ++ rounds id' (MAX_QUERY_STATUS_POLLING_ATTEMPTS revision)).
    rewrite count_app, rounds_status_checks. reflexivity.
  - exists r. split; [exact Er | exact Hr].
Qed.

(** The status check of the resumption path refuses a state it does not
    know. *)
Lemma check_unknown_status id options w qe rs :
  send _ (GetQueryExecutionCommand id) (remote w) = (Return qe, rs) ->
  known_state (State qe) = false ->
  result (checkQueryStatusAndGetResults send id options w)
  = Throw (mkError ("Unknown query status: " ++ State qe)).
Proof.
  intros Hs Hk. unfold known_state in Hk. cbn [existsb] in Hk.
  repeat (apply orb_false_iff in Hk as [? Hk]).
  unfold checkQueryStatusAndGetResults, bind, await_send. rewrite Hs.
  cbn [result final trace]. unfold pending, failed_or_cancelled.
  repeat match goal with H : String.eqb _ _ = false |- _ => rewrite H; clear H end.
  reflexivity.
Qed.

(** The polling path does not: any state that is neither pending nor
    FAILED nor CANCELLED sends it on to the fetch of the results. *)
Lemma exec_other_status queryParams options w id rs j qe rs' :
  send _ (StartQueryExecutionCommand queryParams) (remote w) = (Return id, rs) ->
  j < MAX_QUERY_STATUS_POLLING_ATTEMPTS revision ->
  forallb pending_answer (status_answers send id j rs) = true ->
  send _ (GetQueryExecutionCommand id) (after_checks send id j rs) = (Return qe, rs') ->
  pending (State qe) = false ->
  failed_or_cancelled (State qe) = false ->
  trace (executeAthenaQuery send revision queryParams options w)
  = Sent (StartQueryExecutionCommand queryParams)
      :: rounds id (S j) ++ [Sent (GetQueryResultsCommand id (limit_or_default options))]
  /\ result (executeAthenaQuery send revision queryParams options w)
     = match fst (send _ (GetQueryResultsCommand id (limit_or_default options)) rs') with
       | Return resultsResponse =>
           Return {| results := Some (rows_to_objects (Rows resultsResponse));
                     complete := true;
                     queryExecutionId := id;
                     executionStats := stats_of revision qe |}
       | Throw e => Throw e
       end.
Proof.
  intros Hs Hj Hall Ha Hp Hf.
  pose proof (exec_started queryParams options w id rs Hs) as E. cbv zeta in E.
  destruct (poll_answered id j 0 None "RUNNING"
              {| remote := rs; now := now w; vars := vars w |} (Return qe) rs'
              ltac:(lia) eq_refl Hall Ha Hp) as [Lt [Lf Lr]].
  rewrite Lr, Hf, Lt, Lf in E. exact E.
Qed.

(** A terminal failure within the budget. *)
Lemma exec_failed_or_cancelled queryParams options w id rs j qe rs' :
  send _ (StartQueryExecutionCommand queryParams) (remote w) = (Return id, rs) ->
  j < MAX_QUERY_STATUS_POLLING_ATTEMPTS revision ->
  forallb pending_answer (status_answers send id j rs) = true ->
  send _ (GetQueryExecutionCommand id) (after_checks send id j rs) = (Return qe, rs') ->
  failed_or_cancelled (State qe) = true ->
  result (executeAthenaQuery send revision queryParams options w)
  = Throw (mkError (if String.eqb (State qe) "FAILED"
                    then "Query failed: " ++ interpolate (StateChangeReason qe)
                    else "Query was cancelled")).
Proof.
  intros Hs Hj Hall Ha Hf.
  assert (Hp : pending (State qe) = false).
  { unfold failed_or_cancelled in Hf.
    apply orb_prop in Hf as [Hf|Hf]; apply String.eqb_eq in Hf; rewrite Hf; reflexivity. }
  pose proof (exec_started queryParams options w id rs Hs) as E. cbv zeta in E.
  destruct (poll_answered id j 0 None "RUNNING"
              {| remote := rs; now := now w; vars := vars w |} (Return qe) rs'
              ltac:(lia) eq_refl Hall Ha Hp) as [Lt [Lf Lr]].
  rewrite Lr, Hf in E. apply E.
Qed.

Lemma check_failed_or_cancelled id options w qe rs :
  send _ (GetQueryExecutionCommand id) (remote w) = (Return qe, rs) ->
  failed_or_cancelled (State qe) = true ->
  result (checkQueryStatusAndGetResults send id options w)
  = Throw (mkError ("Query " ++ toLowerCase (State qe) ++ ": "
                    ++ reason_or_unknown (StateChangeReason qe))).
Proof.
  intros Hs Hf.
  unfold checkQueryStatusAndGetResults, bind, await_send. rewrite Hs.
  cbn [result final trace]. rewrite Hf.
  unfold failed_or_cancelled in Hf.
  apply orb_prop in Hf as [Hf|Hf]; apply String.eqb_eq in Hf; rewrite Hf; reflexivity.
Qed.

(** C4 (as amended): an execution that reaches FAILED within the budget
    makes [executeAthenaQuery] throw an error whose message is "Query
    failed: " followed by the remote status-change reason; one that
    reaches CANCELLED makes it throw the fixed message "Query was
    cancelled".  The resumption status check carries the reason (or
    "Unknown error" when there is none) for both states. *)
Theorem terminal_failure_messages :
  (forall queryParams options w id rs j qe rs',
      send _ (StartQueryExecutionCommand queryParams) (remote w) = (Return id, rs) ->
      j < MAX_QUERY_STATUS_POLLING_ATTEMPTS revision ->
      forallb pending_answer (status_answers send id j rs) = true ->
      send _ (GetQueryExecutionCommand id) (after_checks send id j rs) = (Return qe, rs') ->
      (State qe = "FAILED" ->
       result (executeAthenaQuery send revision queryParams options w)
       = Throw (mkError ("Query failed: " ++ interpolate (StateChangeReason qe))))
      /\ (State qe = "CANCELLED" ->
          result (executeAthenaQuery send revision queryParams options w)
          = Throw (mkError "Query was cancelled")))
  /\ (forall id options w qe rs,
        send _ (GetQueryExecutionCommand id) (remote w) = (Return qe, rs) ->
        State qe = "FAILED" \/ State qe = "CANCELLED" ->
        result (checkQueryStatusAndGetResults send id options w)
        = Throw (mkError ("Query " ++ toLowerCase (State qe) ++ ": "
                          ++ reason_or_unknown (StateChangeReason qe)))).
Proof.
  split.
  - intros queryParams options w id rs j qe rs' Hs Hj Hall Ha. split; intro Hq.
    + rewrite (exec_failed_or_cancelled queryParams options w id rs j qe rs' Hs Hj Hall Ha)
        by (unfold failed_or_cancelled; rewrite Hq; reflexivity).
      rewrite Hq. reflexivity.
    + rewrite (exec_failed_or_cancelled queryParams options w id rs j qe rs' Hs Hj Hall Ha)
        by (unfold failed_or_cancelled; rewrite Hq; reflexivity).
      rewrite Hq. reflexivity.
  - intros id options w qe rs Hs Hq. apply (check_failed_or_cancelled id options w qe rs Hs).
    unfold failed_or_cancelled. destruct Hq as [-> | ->]; reflexivity.
Qed.

End Client.

(** Witness for C1: ten status checks on a service that stays busy. *)
Lemma executeAthenaQuery_polls_within_budget_witness :
  count is_status_check
    (trace (executeAthenaQuery Service.send Resumable sample_params sample_options
              (Service.world busy_service))) = 10
  /\ exists r,
       result (executeAthenaQuery Service.send Resumable sample_params sample_options
                 (Service.world busy_service)) = Return r
       /\ complete r = false /\ queryExecutionId r = "execution-1" /\ results r = None.
Proof.
  exact (proj2 (proj2 (proj2 (proj2 (proj2
           (executeAthenaQuery_polls_within_budget _ Service.send Resumable
              sample_params sample_options (Service.world busy_service))))))
           "execution-1" busy_service eq_refl eq_refl).
Defined.

(** C3 (failing input): a status check answered with the state WEIRD.
    The polling path of either revision goes on to fetch the results and
    returns a completed outcome; the resumption status check throws. *)
Theorem unknown_status_not_reported :
  result (executeAthenaQuery Service.send Resumable sample_params sample_options
            (Service.world unknown_service))
  = Return {| results := Some []; complete := true; queryExecutionId := "execution-1";
              executionStats :=
                Some (queryStats {| State := "WEIRD"; StateChangeReason := None;
                                    SubmissionDateTime := None;
                                    CompletionDateTime := None; Stats := None |}) |}
  /\ result (executeAthenaQuery Service.send Earlier sample_params sample_options
               (Service.world unknown_service))
     = Return {| results := Some []; complete := true; queryExecutionId := "execution-1";
                 executionStats := None |}
  /\ result (checkQueryStatusAndGetResults Service.send "execution-1" sample_options
               (Service.world unknown_service))
     = Throw (mkError "Unknown query status: WEIRD").
Proof. repeat split. Qed.

(** C4 (counterexample): an execution cancelled with the reason quota.
    The message of the error does not contain the reason. *)
Lemma cancelled_message_without_reason :
  result (executeAthenaQuery Service.send Resumable sample_params sample_options
            (Service.world cancelled_service))
  = Throw (mkError "Query was cancelled")
  /\ includes_text "quota" "Query was cancelled" = false.
Proof. split; reflexivity. Qed.

(** Witness for C4: an execution that failed after one pending answer. *)
Lemma terminal_failure_messages_witness :
  result (executeAthenaQuery Service.send Resumable sample_params sample_options
            (Service.world failed_service))
  = Throw (mkError "Query failed: SYNTAX_ERROR: line 1").
Proof.
  exact (proj1 (proj1 (terminal_failure_messages _ Service.send Resumable)
                  sample_params sample_options (Service.world failed_service)
                  "execution-1" failed_service 1
                  {| State := "FAILED"; StateChangeReason := Some "SYNTAX_ERROR: line 1";
                     SubmissionDateTime := None; CompletionDateTime := None;
                     Stats := None |}
                  (Service.advance (Service.advance failed_service))
                  eq_refl ltac:(cbn; lia) eq_refl eq_refl)
           eq_refl).
Defined.

End ExecutionFacts.

(** ** Facts about the prepared statement manager *)

Module StatementsFacts.

Import Data Async Statements Notions.
Local Open Scope async_scope.

Section Client.

Variable rstate : Type.
Variable send : forall R : Type, Command R -> rstate -> completion R * rstate.
Variable basename : string.

Lemma workGroup_hinted query options :
  workGroup_or_primary (hinted query options) = workGroup_or_primary options.
Proof. reflexivity. Qed.

(** A call served from the cache. *)
Lemma ensure_hit query options w :
  bound_to (vars w) (canonical query) = true ->
  ensurePreparedStatement send basename query options w
  = {| result := Return (currentPreparedStatement (vars w), hinted query options);
       final := w; trace := [] |}.
Proof.
  unfold bound_to. intro H. apply andb_prop in H as [H1 H2].
  apply negb_true_iff in H2.
  unfold ensurePreparedStatement, bind, read_vars, ret.
  cbn [result final trace]. fold (canonical query). rewrite H1, H2.
  cbn [negb orb result final trace app]. reflexivity.
Qed.

(** A call not served from the cache. *)
Lemma ensure_miss query options w :
  bound_to (vars w) (canonical query) = false ->
  let name := statementName basename in
  let workGroup := workGroup_or_primary options in
  let check := send _ (GetPreparedStatementCommand name workGroup) (remote w) in
  let write :=
    if returns (fst check)
    then send _ (UpdatePreparedStatementCommand name (canonical query) workGroup) (snd check)
    else send _ (CreatePreparedStatementCommand name (canonical query) workGroup) (snd check) in
  let run := ensurePreparedStatement send basename query options w in
  trace run
  = [Sent (GetPreparedStatementCommand name workGroup);
     if returns (fst check)
     then Sent (UpdatePreparedStatementCommand name (canonical query) workGroup)
     else Sent (CreatePreparedStatementCommand name (canonical query) workGroup)]
  /\ remote (final run) = snd write
  /\ match fst write with
     | Return _ =>
         result run = Return (Some name, hinted query options)
         /\ vars (final run) = set_statement (vars w) (Some name) (Some (canonical query))
     | Throw e => result run = Throw e /\ vars (final run) = vars w
     end.
Proof.
  unfold bound_to. intro H. cbv zeta.
  assert (C : negb (same (currentQuery (vars w)) (canonical query))
              || is_null (currentPreparedStatement (vars w)) = true).
  { destruct (same _ _); [|reflexivity]. cbn in H |- *.
    apply negb_false_iff in H. exact H. }
  unfold ensurePreparedStatement, bind, catch, read_vars, write_vars, await_send, ret.
  cbn [result final trace]. fold (canonical query). rewrite C.
  cbn [result final trace remote now vars].
  fold (hinted query options). rewrite !workGroup_hinted.
  destruct (send _ (GetPreparedStatementCommand _ _) (remote w)) as [[[]|e] rs1];
    cbn [result final trace remote now vars fst snd returns app].
  - destruct (send _ (UpdatePreparedStatementCommand _ _ _) rs1) as [[[]|e] rs2];
      cbn [result final trace remote now vars fst snd app]; repeat split.
  - destruct (send _ (CreatePreparedStatementCommand _ _ _) rs1) as [[[]|e'] rs2];
      cbn [result final trace remote now vars fst snd app]; repeat split.
Qed.

Lemma ensure_trace query options w :
  trace (ensurePreparedStatement send basename query options w) = []
  \/ protocol basename (canonical query) (workGroup_or_primary options)
       (trace (ensurePreparedStatement send basename query options w)).
Proof.
  destruct (bound_to (vars w) (canonical query)) eqn:B.
  - left. rewrite (ensure_hit query options w B). reflexivity.
  - right. destruct (ensure_miss query options w B) as [T _]. rewrite T.
    unfold protocol.
    destruct (returns (fst (send _ (GetPreparedStatementCommand _ _) (remote w))));
      [left | right]; reflexivity.
Qed.

Lemma bound_after_set g name text :
  bound_to (set_statement g (Some name) (Some text)) text = true.
Proof. unfold bound_to. cbn. rewrite String.eqb_refl. reflexivity. Qed.

(** After a call that completed normally the cache is bound to its
    text, with the handle the call returned. *)
Lemma ensure_binds query options w :
  returns (result (ensurePreparedStatement send basename query options w)) = true ->
  bound_to (vars (final (ensurePreparedStatement send basename query options w)))
    (canonical query) = true
  /\ handle_of (ensurePreparedStatement send basename query options w)
     = Some (currentPreparedStatement
               (vars (final (ensurePreparedStatement send basename query options w)))).
Proof.
  destruct (bound_to (vars w) (canonical query)) eqn:B.
  - rewrite (ensure_hit query options w B). cbn. intros _. split; [exact B | reflexivity].
  - destruct (ensure_miss query options w B) as [_ [_ M]]. unfold handle_of.
    destruct (fst (if returns (fst (send _ (GetPreparedStatementCommand _ _) (remote w)))
                   then _ else _)) as [u|e].
    + destruct M as [-> ->]. intros _. split; [apply bound_after_set | reflexivity].
    + destruct M as [-> _]. intro H. discriminate H.
Qed.

(** A call that throws leaves the cache as it was. *)
Lemma ensure_throw_keeps query options w :
  returns (result (ensurePreparedStatement send basename query options w)) = false ->
  vars (final (ensurePreparedStatement send basename query options w)) = vars w.
Proof.
  destruct (bound_to (vars w) (canonical query)) eqn:B.
  - rewrite (ensure_hit query options w B). reflexivity.
  - destruct (ensure_miss query options w B) as [_ [_ M]].
    destruct (fst (if returns (fst (send _ (GetPreparedStatementCommand _ _) (remote w)))
                   then _ else _)) as [u|e].
    + destruct M as [-> _]. intro H. discriminate H.
    + destruct M as [_ ->]. reflexivity.
Qed.

(** Calls with the text the cache is bound to are all served from it. *)
Lemma calls_from_bound text calls : forall w,
  bound_to (vars w) text = true ->
  Forall (fun c => canonical (fst c) = text) calls ->
  Forall (fun run => trace run = []
                     /\ handle_of run = Some (currentPreparedStatement (vars w)))
         (ensure_calls send basename calls w).
Proof.
  induction calls as [|[query options] rest IH]; intros w B F; [constructor|].
  inversion F as [|c l Hq Hrest]. subst c l. cbn [fst] in Hq.
  cbn [ensure_calls]. rewrite <- Hq in B. rewrite (ensure_hit query options w B). cbn [final].
  rewrite Hq in B. constructor; [split; reflexivity | exact (IH w B Hrest)].
Qed.

Lemma completed_writes_none (runs : list (Run rstate (option string * Options))) :
  Forall (fun run => trace run = []) runs -> completed_writes runs = 0.
Proof.
  induction 1 as [|run rest H _ IH]; [reflexivity|].
  cbn [completed_writes]. rewrite H, IH. destruct (returns (result run)); reflexivity.
Qed.

Lemma ensure_calls_app before after : forall w,
  ensure_calls send basename (before ++ after) w
  = ensure_calls send basename before w
    ++ ensure_calls send basename after (world_after send basename before w).
Proof.
  induction before as [|[query options] rest IH]; intro w; [reflexivity|].
  cbn [app ensure_calls world_after]. rewrite IH. reflexivity.
Qed.

Lemma writes_of_one_call query options w :
  count is_create_or_update (trace (ensurePreparedStatement send basename query options w))
  <= 1.
Proof.
  destruct (ensure_trace query options w) as [-> | [-> | ->]]; cbn; lia.
Qed.

Lemma completed_writes_bound text calls : forall w,
  Forall (fun c => canonical (fst c) = text) calls ->
  completed_writes (ensure_calls send basename calls w) <= 1.
Proof.
  induction calls as [|[query options] rest IH]; intros w F; [cbn; lia|].
  inversion F as [|c l Hq Hrest]. subst c l. cbn [fst] in Hq.
  cbn [ensure_calls completed_writes].
  destruct (returns (result (ensurePreparedStatement send basename query options w))) eqn:R.
  - destruct (ensure_binds query options w R) as [B _]. rewrite Hq in B.
    pose proof (calls_from_bound _ _ _ B Hrest) as C.
    rewrite (completed_writes_none (ensure_calls send basename rest _)).
    + pose proof (writes_of_one_call query options w). lia.
    + eapply Forall_impl; [|exact C]. intros run [T _]. exact T.
  - specialize (IH (final (ensurePreparedStatement send basename query options w)) Hrest).
    lia.
Qed.

End Client.

(** On the reference service a statement written by a completed call is
    found by the next existence check. *)
Lemma service_write_stores name text workGroup s (exists_ : bool) :
  fst (if exists_
       then Service.send (UpdatePreparedStatementCommand name text workGroup) s
       else Service.send (CreatePreparedStatementCommand name text workGroup) s)
  = Return tt ->
  Service.stored workGroup name
    (snd (if exists_
          then Service.send (UpdatePreparedStatementCommand name text workGroup) s
          else Service.send (CreatePreparedStatementCommand name text workGroup) s))
  = true.
Proof.
  assert (S : forall t, Service.stored workGroup name (Service.store workGroup name t s) = true).
  { intro t. unfold Service.stored, Service.store. cbn. rewrite !String.eqb_refl. reflexivity. }
  destruct exists_; cbn;
    destruct (existsb (String.eqb text) (Service.refused s)); cbn; try discriminate;
    destruct (Service.stored workGroup name s); cbn; try discriminate; intros _; apply (S text).
Qed.

Lemma service_update_after_completed basename query1 options1 query2 options2 w :
  bound_to (vars w) (canonical query1) = false ->
  returns (result (ensurePreparedStatement Service.send basename query1 options1 w)) = true ->
  canonical query2 <> canonical query1 ->
  workGroup_or_primary options2 = workGroup_or_primary options1 ->
  trace (ensurePreparedStatement Service.send basename query2 options2
           (final (ensurePreparedStatement Service.send basename query1 options1 w)))
  = [Sent (GetPreparedStatementCommand (statementName basename)
             (workGroup_or_primary options2));
     Sent (UpdatePreparedStatementCommand (statementName basename) (canonical query2)
             (workGroup_or_primary options2))].
Proof.
  intros B R N W.
  destruct (ensure_miss _ Service.send basename query1 options1 w B) as [_ [Hr M]].
  pose proof (service_write_stores (statementName basename) (canonical query1)
                (workGroup_or_primary options1)
                (snd (Service.send (GetPreparedStatementCommand (statementName basename)
                                        (workGroup_or_primary options1)) (remote w)))
                (returns (fst (Service.send (GetPreparedStatementCommand
                                                 (statementName basename)
                                                 (workGroup_or_primary options1))
                                 (remote w))))) as St.
  destruct (fst (if returns _ then _ else _)) as [[]|e].
  - destruct M as [_ Hv]. specialize (St eq_refl). rewrite <- Hr in St.
    assert (B2 : bound_to
                   (vars (final (ensurePreparedStatement Service.send basename
                                   query1 options1 w))) (canonical query2) = false).
    { rewrite Hv. unfold bound_to. cbn.
      destruct (String.eqb_spec (canonical query1) (canonical query2)) as [E|_];
        [congruence | reflexivity]. }
    destruct (ensure_miss _ Service.send basename query2 options2 _ B2) as [T _].
    rewrite T. rewrite W. cbn [Service.send]. rewrite St. reflexivity.
  - destruct M as [Hres _]. rewrite Hres in R. discriminate R.
Qed.




End StatementsFacts.

(** ** Facts about the lookup orchestrator *)

Module LookupFacts.

Import Data Async Attributes Lookup Notions.
Local Open Scope async_scope.

Section FanOut.

Variable rstate : Type.

Lemma first_failure_none {A} finish (outs : list (completion A)) : forall i best,
  first_failure finish i outs best = None ->
  best = None /\ Forall (fun o => returns o = true) outs.
Proof.
  induction outs as [|[a|e] rest IH]; intros i best H; cbn [first_failure] in H.
  - split; [exact H | constructor].
  - destruct (IH _ _ H) as [B F]. split; [exact B | constructor; [reflexivity | exact F]].
  - destruct (IH _ _ H) as [B _]. destruct best as [[t e']|]; [|discriminate B].
    destruct (Nat.ltb (finish i) t); discriminate B.
Qed.

Lemma first_failure_some {A} finish (outs : list (completion A)) : forall i best t e,
  first_failure finish i outs best = Some (t, e) ->
  In (Throw e) outs \/ exists t', best = Some (t', e).
Proof.
  induction outs as [|[a|e0] rest IH]; intros i best t e H; cbn [first_failure] in H.
  - right. exists t. exact H.
  - destruct (IH _ _ _ _ H) as [I|B]; [left; right; exact I | right; exact B].
  - destruct (IH _ _ _ _ H) as [I|[t' B]]; [left; right; exact I|].
    destruct best as [[t0 e1]|].
    + destruct (Nat.ltb (finish i) t0).
      * injection B as _ <-. left. left. reflexivity.
      * right. exists t'. exact B.
    + injection B as _ <-. left. left. reflexivity.
Qed.

Lemma first_failure_all_return {A} finish (outs : list (completion A)) : forall i best,
  Forall (fun o => returns o = true) outs ->
  first_failure finish i outs best = best.
Proof.
  induction outs as [|[a|e] rest IH]; intros i best F; [reflexivity| |].
  - inversion F; subst. cbn [first_failure]. apply IH. assumption.
  - inversion F as [|o l H _]; subst. discriminate H.
Qed.

Lemma values_all_return {A} (outs : list (completion A)) :
  Forall (fun o => returns o = true) outs -> map Return (values outs) = outs.
Proof.
  induction 1 as [|[a|e] rest H _ IH]; [reflexivity| |discriminate H].
  cbn. rewrite IH. reflexivity.
Qed.

(** What the shared tail of [doLookup] hands to the callback. *)
Lemma fan_out_result (batch : Batch rstate) tasks w :
  result (fan_out batch tasks w)
  = match first_failure (finish batch) 0 (outcomes_from batch 0 tasks w) None with
    | Some (_, e) =>
        Return (CallbackError (errorToPojo e "Error running Athena SQL query"))
    | None => Return (CallbackPayload (values (outcomes_from batch 0 tasks w)))
    end.
Proof.
  unfold fan_out, catch, bind, parallelLimit, ret. cbn [result final trace].
  destruct (first_failure (finish batch) 0 (outcomes_from batch 0 tasks w) None)
    as [[t e]|]; reflexivity.
Qed.

(** All or nothing. *)
Lemma fan_out_all_or_nothing (batch : Batch rstate) tasks w :
  ((exists i e, nth_error (outcomes_from batch 0 tasks w) i = Some (Throw e)) ->
   exists e, In (Throw e) (outcomes_from batch 0 tasks w)
             /\ result (fan_out batch tasks w)
                = Return (CallbackError (errorToPojo e "Error running Athena SQL query")))
  /\ (Forall (fun o => returns o = true) (outcomes_from batch 0 tasks w) ->
      exists lookupResults,
        result (fan_out batch tasks w) = Return (CallbackPayload lookupResults)
        /\ map Return lookupResults = outcomes_from batch 0 tasks w).
Proof.
  rewrite fan_out_result. split.
  - intros [i [e H]].
    destruct (first_failure (finish batch) 0 (outcomes_from batch 0 tasks w) None)
      as [[t e']|] eqn:F.
    + exists e'. split; [|reflexivity].
      destruct (first_failure_some _ _ _ _ _ _ F) as [I|[t' B]]; [exact I | discriminate B].
    + destruct (first_failure_none _ _ _ _ F) as [_ A].
      apply nth_error_In in H. rewrite Forall_forall in A. specialize (A _ H).
      discriminate A.
  - intro A. rewrite (first_failure_all_return _ _ 0 None A).
    exists (values (outcomes_from batch 0 tasks w)). split; [reflexivity|].
    apply values_all_return. exact A.
Qed.

Lemma outcomes_length {A} (batch : Batch rstate) (tasks : list (Async rstate A)) w :
  forall i, length (outcomes_from batch i tasks w) = length tasks.
Proof.
  induction tasks as [|task rest IH]; intro i; [reflexivity|].
  cbn. rewrite IH. reflexivity.
Qed.

(** Results that come from tasks which name their entity are in entity
    order. *)
Lemma results_in_order (batch : Batch rstate) (task : Entity -> Async rstate LookupResult) w :
  (forall e w' r, result (task e w') = Return r -> entity r = e) ->
  forall entities i lookupResults,
    map Return lookupResults = outcomes_from batch i (map task entities) w ->
    map entity lookupResults = entities.
Proof.
  intro T. induction entities as [|e rest IH]; intros i [|r rs] H; cbn in H;
    try discriminate H; [reflexivity|].
  injection H as H1 H2. cbn. rewrite (IH _ _ H2). f_equal.
  apply (T e (view batch i w)). symmetry. exact H1.
Qed.

End FanOut.

Section Tasks.

Variable dates : DateLibrary.
Variable get : RowObject -> string -> option string.
Variable floatText : string -> string.
Variable rstate : Type.
Variable send : forall R : Type, Command R -> rstate -> completion R * rstate.
Variable basename : string.

Lemma searchTask_entity options name e w r :
  result (searchTask dates get floatText send options name e w) = Return r ->
  entity r = e.
Proof.
  unfold searchTask, bind, lift, read_vars, ret. cbn [result final trace].
  destruct (createQuery floatText e options name) as [queryParams|err];
    [|discriminate].
  destruct (Execution.executeAthenaQuery send Execution.Resumable queryParams options w)
    as [[queryResult|err] f t]; [|discriminate].
  cbn [result final trace].
  destruct (negb (complete queryResult)).
  - destruct (formatQueryResult dates get (vars f) queryResult options);
      cbn [result]; intro H; [injection H as <-; reflexivity | discriminate H].
  - destruct (no_rows (results queryResult)).
    + cbn [result]. intro H. injection H as <-. reflexivity.
    + destruct (formatQueryResult dates get (vars f) queryResult options);
        cbn [result]; intro H; [injection H as <-; reflexivity | discriminate H].
Qed.

Lemma searchTask_earlier_entity options e w r :
  result (searchTask_earlier dates get floatText send basename options e w) = Return r ->
  entity r = e.
Proof.
  unfold searchTask_earlier, bind, lift, ret.
  destruct (createQuery_earlier floatText send basename e options w)
    as [[queryParams|err] f t]; [|discriminate].
  destruct (Execution.executeAthenaQuery send Execution.Earlier queryParams options f)
    as [[queryResult|err] f' t']; [|discriminate].
  destruct (negb (complete queryResult)).
  - cbn [result]. intro H. injection H as <-. reflexivity.
  - destruct (no_rows (results queryResult)).
    + cbn [result]. intro H. injection H as <-. reflexivity.
    + destruct (getSummaryTags_earlier dates get _ options); [|discriminate].
      destruct (getDetails_earlier dates get _ options); [|discriminate].
      cbn [result]. intro H. injection H as <-. reflexivity.
Qed.

Lemma doLookup_dispatch batch entities options w name options' :
  result (prepare send basename options w) = Return (name, options') ->
  result (doLookup dates get floatText send basename batch entities options w)
  = result (fan_out batch (map (searchTask dates get floatText send options' name) entities)
              (final (prepare send basename options w))).
Proof.
  unfold doLookup, bind.
  destruct (prepare send basename options w) as [[[n o]|e] f t]; cbn [result final];
    intro H; [|discriminate H].
  injection H as -> ->.
  destruct (fan_out batch _ f). reflexivity.
Qed.

Lemma doLookup_rejects batch entities options w e :
  result (prepare send basename options w) = Throw e ->
  result (doLookup dates get floatText send basename batch entities options w) = Throw e.
Proof.
  unfold doLookup, bind.
  destruct (prepare send basename options w) as [[[n o]|e'] f t]; cbn [result final];
    intro H; [discriminate H|].
  injection H as ->. reflexivity.
Qed.

Lemma prepare_earlier_returns options (w : World rstate) :
  result (prepare_earlier options w) = Return tt.
Proof.
  unfold prepare_earlier, bind, read_vars, write_vars. cbn [result final trace].
  destruct (optionsHaveChanged_earlier options (vars w)) as [changed g].
  destruct (changed || negb (athenaClient g)); reflexivity.
Qed.

Lemma doLookup_earlier_dispatch batch entities options w :
  result (doLookup_earlier dates get floatText send basename batch entities options w)
  = result (fan_out batch
              (map (searchTask_earlier dates get floatText send basename options) entities)
              (final (prepare_earlier options w))).
Proof.
  unfold doLookup_earlier, bind.
  pose proof (prepare_earlier_returns options w) as P.
  destruct (prepare_earlier options w) as [[[]|e] f t]; cbn [result final] in *;
    [|discriminate P].
  destruct (fan_out batch _ f). reflexivity.
Qed.

(** All or nothing, once the tasks of an invocation are dispatched: if
    any task fails the callback receives one normalized error, made
    from the error of a failing task, and no result; if no task fails
    it receives one result per entity, in entity order.  In the
    resumable revision the tasks are dispatched once the preparation
    has returned (if it throws, the invocation is rejected); in the
    earlier revision they always are. *)
Lemma doLookup_all_or_nothing batch entities options w :
  (forall name options',
      result (prepare send basename options w) = Return (name, options') ->
      ((exists i e,
           nth_error
             (outcomes_from batch 0
                (map (searchTask dates get floatText send options' name) entities)
                (final (prepare send basename options w))) i = Some (Throw e)) ->
       exists e,
         In (Throw e)
            (outcomes_from batch 0
               (map (searchTask dates get floatText send options' name) entities)
               (final (prepare send basename options w)))
         /\ result (doLookup dates get floatText send basename batch entities options w)
            = Return (CallbackError (errorToPojo e "Error running Athena SQL query")))
      /\ (Forall (fun o => returns o = true)
                 (outcomes_from batch 0
                    (map (searchTask dates get floatText send options' name) entities)
                    (final (prepare send basename options w))) ->
          exists lookupResults,
            result (doLookup dates get floatText send basename batch entities options w)
            = Return (CallbackPayload lookupResults)
            /\ length lookupResults = length entities
            /\ map entity lookupResults = entities))
  /\ (forall e,
        result (prepare send basename options w) = Throw e ->
        result (doLookup dates get floatText send basename batch entities options w)
        = Throw e)
  /\ ((exists i e,
          nth_error
            (outcomes_from batch 0
               (map (searchTask_earlier dates get floatText send basename options) entities)
               (final (prepare_earlier options w))) i = Some (Throw e)) ->
      exists e,
        In (Throw e)
           (outcomes_from batch 0
              (map (searchTask_earlier dates get floatText send basename options) entities)
              (final (prepare_earlier options w)))
        /\ result (doLookup_earlier dates get floatText send basename batch entities options w)
           = Return (CallbackError (errorToPojo e "Error running Athena SQL query")))
  /\ (Forall (fun o => returns o = true)
             (outcomes_from batch 0
                (map (searchTask_earlier dates get floatText send basename options) entities)
                (final (prepare_earlier options w))) ->
      exists lookupResults,
        result (doLookup_earlier dates get floatText send basename batch entities options w)
        = Return (CallbackPayload lookupResults)
        /\ length lookupResults = length entities
        /\ map entity lookupResults = entities).
Proof.
  split; [|split; [|split]].
  - intros name options' P.
    rewrite (doLookup_dispatch batch entities options w name options' P).
    destruct (fan_out_all_or_nothing _ batch
                (map (searchTask dates get floatText send options' name) entities)
                (final (prepare send basename options w))) as [F S].
    split; [exact F|].
    intro A. destruct (S A) as [lookupResults [R M]].
    exists lookupResults. split; [exact R|].
    assert (O : map entity lookupResults = entities).
    { apply (results_in_order _ batch
               (searchTask dates get floatText send options' name)
               (final (prepare send basename options w))
               (searchTask_entity options' name) entities 0 lookupResults M). }
    split; [|exact O]. rewrite <- (length_map entity lookupResults), O. reflexivity.
  - intros e P. apply (doLookup_rejects batch entities options w e P).
  - rewrite doLookup_earlier_dispatch.
    apply (fan_out_all_or_nothing _ batch
             (map (searchTask_earlier dates get floatText send basename options) entities)
             (final (prepare_earlier options w))).
  - rewrite doLookup_earlier_dispatch.
    destruct (fan_out_all_or_nothing _ batch
                (map (searchTask_earlier dates get floatText send basename options) entities)
                (final (prepare_earlier options w))) as [_ S].
    intro A. destruct (S A) as [lookupResults [R M]].
    exists lookupResults. split; [exact R|].
    assert (O : map entity lookupResults = entities).
    { apply (results_in_order _ batch
               (searchTask_earlier dates get floatText send basename options)
               (final (prepare_earlier options w))
               (searchTask_earlier_entity options) entities 0 lookupResults M). }
    split; [|exact O]. rewrite <- (length_map entity lookupResults), O. reflexivity.
Qed.

End Tasks.

(** Two entities against an integer placeholder; the second is not a
    number, so its task fails. *)
Lemma doLookup_failing_task :
  exists e,
    result (doLookup sample Service.column (fun s => s) Service.send "athena"
              plain_batch two_entities port_options (Service.world quick_service))
    = Return (CallbackError (errorToPojo e "Error running Athena SQL query")).
Proof.
  destruct (doLookup_all_or_nothing sample Service.column (fun s => s) _ Service.send
              "athena" plain_batch two_entities port_options
              (Service.world quick_service)) as [T _].
  destruct (T (Some (Statements.statementName "athena"))
              (hinted (query port_options) port_options) eq_refl) as [F _].
  destruct F as [e [_ R]].
  - exists 1. eexists. reflexivity.
  - exists e. exact R.
Qed.

(** C7 (code bug): the resumable revision prepares the statement before
    the tasks exist and outside the [try] that hands errors to the
    callback.  Against a service that refuses the statement text, with
    two entities that both bind, its promise is rejected with the error
    of the service and the callback is not called, although no task
    failed; the earlier revision, which prepares the statement inside
    every task, hands the same error to the callback. *)
Theorem doLookup_rejects_before_tasks :
  Forall (fun e =>
            returns (createQuery (fun s => s) e (hinted (query port_options) port_options)
                       (Some (Statements.statementName "athena"))) = true) two_ports
  /\ result (doLookup sample Service.column (fun s => s) Service.send "athena"
               plain_batch two_ports port_options (Service.world closed_port_service))
     = Throw (Service.service_error "InvalidRequestException" "Query is not valid")
  /\ result (doLookup_earlier sample Service.column (fun s => s) Service.send "athena"
               plain_batch two_ports port_options (Service.world closed_port_service))
     = Return (CallbackError
                 (errorToPojo
                    (Service.service_error "InvalidRequestException" "Query is not valid")
                    "Error running Athena SQL query")).
Proof.
  split; [repeat constructor|]. split; reflexivity.
Qed.

End LookupFacts.

(** ** Laws of the host-language strings *)

Module TextLaws.

(** The no-break space is a blank, and the capital letters above the
    ASCII range have a lower-case form. *)
Lemma trim_no_break_space : trim (String (chr 160) (String "a" (String (chr 160) ""))) = "a".
Proof. reflexivity. Qed.

Lemma toLowerCase_above_ascii :
  toLowerCase (String (chr 201) (String (chr 215) (String (chr 222) "")))
  = String (chr 233) (String (chr 215) (String (chr 254) "")).
Proof. reflexivity. Qed.

Lemma lower_char_fixed (c : ascii) : lower_char (lower_char c) = lower_char c.
Proof.
  destruct c as [[] [] [] [] [] [] [] []]; vm_compute; reflexivity.
Qed.

Lemma toLowerCase_fixed (s : string) : toLowerCase (toLowerCase s) = toLowerCase s.
Proof.
  induction s as [|c r IH]; [reflexivity|].
  cbn [toLowerCase]. now rewrite lower_char_fixed, IH.
Qed.

Lemma toLowerCase_app (a b : string) :
  toLowerCase (a ++ b) = (toLowerCase a ++ toLowerCase b)%string.
Proof.
  induction a as [|c r IH]; [reflexivity|].
  cbn [append toLowerCase]. now rewrite IH.
Qed.

Lemma toLowerCase_join_blank (parts : list string) :
  Forall (fun p => toLowerCase p = p) parts ->
  toLowerCase (join " " parts) = join " " parts.
Proof.
  induction 1 as [|p rest P _ IH]; [reflexivity|].
  destruct rest as [|q rest]; [exact P|].
  change (join " " (p :: q :: rest)) with (p ++ " " ++ join " " (q :: rest))%string.
  rewrite !toLowerCase_app, P, IH. reflexivity.
Qed.

End TextLaws.

(** ** Laws of the parameter binder *)

Module BinderLaws.

Import Binder Laws.

Lemma unescape_escaped (s : string) :
  unescape_from false (escape_quotes (double_backslashes s)) = s.
Proof.
  induction s as [|c r IH]; [reflexivity|].
  cbn [double_backslashes].
  destruct (Ascii.eqb c backslash) eqn:B.
  - apply Ascii.eqb_eq in B. subst c. cbn. now rewrite IH.
  - cbn [escape_quotes].
    destruct (Ascii.eqb c quote) eqn:Q.
    + apply Ascii.eqb_eq in Q. subst c. cbn. now rewrite IH.
    + cbn [unescape_from]. rewrite B. now rewrite IH.
Qed.

Lemma no_bare_quote_escaped (s : string) :
  bare_quote_from false (escape_quotes (double_backslashes s)) = false.
Proof.
  induction s as [|c r IH]; [reflexivity|].
  cbn [double_backslashes].
  destruct (Ascii.eqb c backslash) eqn:B.
  - apply Ascii.eqb_eq in B. subst c. cbn. exact IH.
  - cbn [escape_quotes].
    destruct (Ascii.eqb c quote) eqn:Q.
    + apply Ascii.eqb_eq in Q. subst c. cbn. exact IH.
    + cbn [bare_quote_from]. rewrite B, Q. exact IH.
Qed.

Lemma includes_escape_quotes (c : ascii) (s : string) :
  Ascii.eqb backslash c = false -> Ascii.eqb quote c = false ->
  includes c (escape_quotes s) = includes c s.
Proof.
  intros B Q. induction s as [|d r IH]; [reflexivity|].
  cbn [escape_quotes]. destruct (Ascii.eqb d quote) eqn:E.
  - apply Ascii.eqb_eq in E. subst d. cbn [includes]. rewrite B, Q, IH. reflexivity.
  - cbn [includes]. now rewrite IH.
Qed.

Lemma includes_double_backslashes (c : ascii) (s : string) :
  includes c (double_backslashes s) = includes c s.
Proof.
  induction s as [|d r IH]; [reflexivity|].
  cbn [double_backslashes]. destruct (Ascii.eqb d backslash) eqn:E.
  - apply Ascii.eqb_eq in E. subst d. cbn [includes]. rewrite IH.
    now destruct (Ascii.eqb backslash c).
  - cbn [includes]. now rewrite IH.
Qed.

Lemma remove_line_breaks_clean (s : string) :
  includes CR (remove_line_breaks s) = false
  /\ includes LF (remove_line_breaks s) = false.
Proof.
  induction s as [|d r [IH1 IH2]]; [split; reflexivity|].
  cbn [remove_line_breaks].
  destruct (Ascii.eqb d CR) eqn:E1; destruct (Ascii.eqb d LF) eqn:E2; cbn [orb];
    try (split; assumption).
  cbn [includes]. rewrite E1, E2, IH1, IH2. split; reflexivity.
Qed.

Lemma remove_line_breaks_fixed (s : string) :
  includes CR s = false -> includes LF s = false -> remove_line_breaks s = s.
Proof.
  induction s as [|d r IH]; [reflexivity|].
  cbn [includes remove_line_breaks]. intros H1 H2.
  apply orb_false_iff in H1 as [E1 H1]. apply orb_false_iff in H2 as [E2 H2].
  rewrite E1, E2. cbn [orb]. now rewrite IH.
Qed.

(** X1.  The escaped text holds no line break and no quote without a
    backslash before it, and it reads back, backslash by backslash, as
    the entity value with its line breaks removed. *)
Theorem escapeEntityValue_reads_back (entityValue : string) :
  unescape (escapeEntityValue entityValue) = remove_line_breaks entityValue
  /\ bare_quote (escapeEntityValue entityValue) = false
  /\ includes CR (escapeEntityValue entityValue) = false
  /\ includes LF (escapeEntityValue entityValue) = false.
Proof.
  unfold unescape, bare_quote, escapeEntityValue.
  rewrite unescape_escaped, no_bare_quote_escaped.
  rewrite !includes_escape_quotes by reflexivity.
  rewrite !includes_double_backslashes.
  destruct (remove_line_breaks_clean entityValue) as [H1 H2].
  now rewrite H1, H2.
Qed.

Section WithFloats.

Variable floatText : string -> string.

(** X2.  A tag that names no integer, numeric or boolean type binds as
    a text: the call returns for every entity value, the literal is the
    escaped value between two quotes, no quote inside it is left bare,
    and the part between the quotes reads back as the value without its
    line breaks. *)
Theorem createParameterValue_text (entityValue type : string) :
  text_tag type = true ->
  exists body,
    createParameterValue floatText entityValue type
    = Return (String quote (body ++ String quote EmptyString))
    /\ body = escapeEntityValue entityValue
    /\ unescape body = remove_line_breaks entityValue
    /\ bare_quote body = false.
Proof.
  intro T. exists (escapeEntityValue entityValue).
  split; [|split; [reflexivity|split;
    [apply unescape_escaped | apply no_bare_quote_escaped]]].
  unfold text_tag, integer_tags, numeric_tags, boolean_tags in T.
  apply negb_true_iff in T.
  unfold createParameterValue.
  unfold one_of in *. cbn [existsb app] in *.
  repeat (apply orb_false_iff in T; destruct T as [?E T]).
  now rewrite E, E0, E1, E2, E3, E4, E5, E6, E7.
Qed.

(** X3.  Under a boolean tag the binder gives [true] exactly for the
    values that are, in lower case, [true] or [1], gives [false] exactly
    for [false] or [0], and refuses every other value: no other literal
    comes out. *)
Theorem createParameterValue_boolean (entityValue type : string) :
  one_of boolean_tags (toLowerCase type) = true ->
  let lowerValue := toLowerCase entityValue in
  createParameterValue floatText entityValue type
  = if one_of ["true"; "1"] lowerValue then Return "true"
    else if one_of ["false"; "0"] lowerValue then Return "false"
    else Throw (cannot_convert entityValue "boolean").
Proof.
  intros T lowerValue. unfold createParameterValue.
  assert (I : one_of ["integer"; "int"; "bigint"] (toLowerCase type) = false).
  { unfold one_of, boolean_tags in *. cbn [existsb] in *.
    apply orb_true_iff in T as [T | T].
    - apply String.eqb_eq in T. now rewrite T.
    - rewrite orb_false_r in T. apply String.eqb_eq in T. now rewrite T. }
  assert (N : one_of ["decimal"; "double"; "float"; "real"] (toLowerCase type) = false).
  { unfold one_of, boolean_tags in *. cbn [existsb] in *.
    apply orb_true_iff in T as [T | T].
    - apply String.eqb_eq in T. now rewrite T.
    - rewrite orb_false_r in T. apply String.eqb_eq in T. now rewrite T. }
  rewrite I, N. unfold boolean_tags in T. rewrite T.
  unfold one_of. cbn [existsb]. fold lowerValue.
  now rewrite !orb_false_r.
Qed.

Lemma all_chars_app (p : ascii -> bool) (a b : string) :
  all_chars p (a ++ b) = all_chars p a && all_chars p b.
Proof.
  induction a as [|c r IH]; [reflexivity|].
  cbn [append all_chars]. now rewrite IH, andb_assoc.
Qed.

Lemma all_chars_rev (p : ascii -> bool) (s acc : string) :
  all_chars p (rev_string acc s) = all_chars p s && all_chars p acc.
Proof.
  revert acc. induction s as [|c r IH]; intro acc; [reflexivity|].
  cbn [rev_string all_chars]. rewrite IH. cbn [all_chars].
  now destruct (p c), (all_chars p r), (all_chars p acc).
Qed.

Lemma all_chars_strip (p : ascii -> bool) (s : string) :
  all_chars p s = true -> all_chars p (Num.strip_zeros s) = true.
Proof.
  induction s as [|c r IH]; [reflexivity|].
  cbn [Num.strip_zeros]. intro H.
  destruct (Ascii.eqb c "0"); [|exact H].
  cbn [all_chars] in H. apply andb_true_iff in H as [_ H]. now apply IH.
Qed.

Lemma all_chars_weaken (p q : ascii -> bool) (s : string) :
  (forall c, p c = true -> q c = true) ->
  all_chars p s = true -> all_chars q s = true.
Proof.
  intro W. induction s as [|c r IH]; [reflexivity|].
  cbn [all_chars]. intro H. apply andb_true_iff in H as [H1 H2].
  now rewrite (W _ H1), IH.
Qed.

Lemma digit_char (n : Z) : is_digit (chr (Z.to_nat (48 + n mod 10))) = true.
Proof.
  pose proof (Z.mod_pos_bound n 10 ltac:(lia)) as B.
  assert (E : exists k, (k < 10)%nat /\ Z.to_nat (48 + n mod 10) = (48 + k)%nat).
  { exists (Z.to_nat (n mod 10)). lia. }
  destruct E as (k & K & ->).
  do 10 (destruct k as [|k]; [reflexivity|]). lia.
Qed.

Lemma numeral_fuel_digits (fuel : nat) (n : Z) (acc : string) :
  all_chars is_digit acc = true ->
  all_chars is_digit (Num.numeral_fuel fuel n acc) = true.
Proof.
  revert n acc. induction fuel as [|f IH]; intros n acc H; [exact H|].
  cbn [Num.numeral_fuel].
  assert (H' : all_chars is_digit (String (chr (Z.to_nat (48 + n mod 10))) acc) = true).
  { cbn [all_chars]. now rewrite digit_char, H. }
  destruct (n <? 10)%Z; [exact H'|]. now apply IH.
Qed.

Lemma numeral_digits (n : Z) : all_chars is_digit (Num.numeral n) = true.
Proof. unfold Num.numeral. now apply numeral_fuel_digits. Qed.

Lemma digit_numeric (c : ascii) : is_digit c = true -> numeric_char c = true.
Proof. unfold numeric_char. now intros ->. Qed.

Lemma numeral_numeric (n : Z) : all_chars numeric_char (Num.numeral n) = true.
Proof. exact (all_chars_weaken _ _ _ digit_numeric (numeral_digits n)). Qed.

Lemma positive_toString_numeric (z : Z) :
  all_chars numeric_char (Num.positive_toString z) = true.
Proof.
  unfold Num.positive_toString.
  set (w := Num.shortest _ z).
  destruct (w <? 10 ^ 21)%Z; [apply numeral_numeric|].
  set (n := String.length (Num.numeral w)).
  assert (S : all_chars numeric_char
                (rev_string EmptyString
                   (Num.strip_zeros (rev_string EmptyString (Num.numeral w)))) = true).
  { rewrite all_chars_rev. cbn [all_chars]. rewrite andb_true_r.
    apply all_chars_strip. rewrite all_chars_rev. cbn [all_chars].
    rewrite andb_true_r. apply numeral_numeric. }
  destruct (rev_string EmptyString _) as [|c more]; [apply numeral_numeric|].
  cbn [all_chars] in S. apply andb_true_iff in S as [C M].
  destruct more as [|d more'].
  - cbn [all_chars]. rewrite C, all_chars_app, numeral_numeric. reflexivity.
  - cbn [all_chars]. rewrite C. rewrite !all_chars_app, M, numeral_numeric. reflexivity.
Qed.

(** X4.  A literal bound under an integer tag is made of digits, a
    sign, a dot, the exponent mark and the letters of the word Infinity
    only, whatever the entity value holds after its leading digits: no
    quote, blank or other character of the value reaches the statement. *)
Theorem createParameterValue_integer_alphabet (entityValue type literal : string) :
  one_of integer_tags (toLowerCase type) = true ->
  createParameterValue floatText entityValue type = Return literal ->
  all_chars numeric_char literal = true.
Proof.
  intros T. unfold createParameterValue. unfold integer_tags in T. rewrite T.
  destruct (Num.parseInt entityValue) as [|[]|z]; cbn [Num.isNaN Num.toString];
    intro R; inversion R; subst literal; try reflexivity.
  destruct (z =? 0)%Z; [reflexivity|].
  destruct (z <? 0)%Z.
  - cbn [append all_chars]. rewrite positive_toString_numeric. reflexivity.
  - apply positive_toString_numeric.
Qed.

End WithFloats.

Lemma createParameterValue_text_witness :
  exists body,
    createParameterValue (fun s => s) "O'Brien" "VarChar"
    = Return (String quote (body ++ String quote EmptyString))
    /\ body = escapeEntityValue "O'Brien"
    /\ unescape body = remove_line_breaks "O'Brien"
    /\ bare_quote body = false.
Proof. apply (createParameterValue_text (fun s => s) "O'Brien" "VarChar"). reflexivity. Defined.

Lemma createParameterValue_boolean_witness :
  createParameterValue (fun s => s) "TRUE" "Bool" = Return "true".
Proof. apply (createParameterValue_boolean (fun s => s) "TRUE" "Bool"). reflexivity. Defined.

Lemma createParameterValue_integer_alphabet_witness :
  all_chars numeric_char "42" = true.
Proof.
  apply (createParameterValue_integer_alphabet (fun s => s) "42'; DROP" "INT" "42");
    vm_compute; reflexivity.
Defined.

End BinderLaws.

(** ** Laws of the statement text built for one entity *)

Module QueryLaws.

Import Data Binder Lookup Laws.

Section WithFloats.

Variable floatText : string -> string.

Lemma bind_parameters_returns (typeHints : list TypeHints.TypeHint) (entityValue : string) :
  forall i parameters,
    bind_parameters floatText i typeHints entityValue = Return parameters ->
    Forall2 (fun typeHint parameter =>
               createParameterValue floatText entityValue (TypeHints.type typeHint)
               = Return parameter) typeHints parameters.
Proof.
  induction typeHints as [|h hs IH]; intros i parameters R; cbn [bind_parameters] in R.
  - inversion R. constructor.
  - destruct (createParameterValue floatText entityValue (TypeHints.type h)) as [p|e] eqn:P;
      [|discriminate R].
    destruct (bind_parameters floatText (S i) hs entityValue) as [ps|e] eqn:B;
      cbn [Attributes.and_then] in R; [|discriminate R].
    inversion R. subst parameters. constructor; [exact P | exact (IH _ _ B)].
Qed.

Lemma bind_parameters_throws (typeHints : list TypeHints.TypeHint) (entityValue : string) :
  forall i error,
    bind_parameters floatText i typeHints entityValue = Throw error ->
    exists k typeHint cause,
      nth_error typeHints k = Some typeHint
      /\ createParameterValue floatText entityValue (TypeHints.type typeHint) = Throw cause
      /\ Forall (fun earlier =>
                   returns (createParameterValue floatText entityValue
                              (TypeHints.type earlier)) = true) (firstn k typeHints)
      /\ error = mkError ("Parameter " ++ Num.numeral (Z.of_nat (i + k + 1)) ++ ": "
                          ++ message cause)%string.
Proof.
  induction typeHints as [|h hs IH]; intros i error T; cbn [bind_parameters] in T;
    [discriminate T|].
  destruct (createParameterValue floatText entityValue (TypeHints.type h)) as [p|e] eqn:P.
  - destruct (bind_parameters floatText (S i) hs entityValue) as [ps|e] eqn:B;
      cbn [Attributes.and_then] in T; [discriminate T|].
    inversion T. subst e.
    destruct (IH _ _ B) as (k & th & cause & N & C & F & E).
    exists (S k), th, cause. repeat split; try assumption.
    + cbn [firstn]. constructor; [now rewrite P | exact F].
    + rewrite E. now replace (S i + k + 1) with (i + S k + 1) by lia.
  - inversion T. exists 0, h, e. repeat split; try assumption.
    + constructor.
    + now rewrite Nat.add_0_r.
Qed.

(** X5.  For a template with placeholders and a statement name, the
    statement text is the EXECUTE form with one literal for every type
    hint, in hint order, each bound from the same entity value under
    that hint's type; the call fails exactly at the first hint whose
    binding fails, and its message names that hint's position counted
    from one. *)
Theorem createQuery_binds_every_hint (entity : Entity) (options : Options) (statement : string) :
  includes "?" (query options) = true ->
  truthy statement = true ->
  match createQuery floatText entity options (Some statement) with
  | Return queryParams =>
      exists parameters,
        Forall2 (fun typeHint parameter =>
                   createParameterValue floatText (value entity) (TypeHints.type typeHint)
                   = Return parameter) (hints_or_none options) parameters
        /\ QueryString queryParams
           = ("EXECUTE " ++ statement ++ " USING " ++ join ", " parameters)%string
  | Throw error =>
      exists k typeHint cause,
        nth_error (hints_or_none options) k = Some typeHint
        /\ createParameterValue floatText (value entity) (TypeHints.type typeHint)
           = Throw cause
        /\ Forall (fun earlier =>
                     returns (createParameterValue floatText (value entity)
                                (TypeHints.type earlier)) = true)
             (firstn k (hints_or_none options))
        /\ error = mkError ("Parameter " ++ Num.numeral (Z.of_nat (k + 1)) ++ ": "
                            ++ message cause)%string
  end.
Proof.
  intros M N. unfold createQuery. rewrite M, N. cbn [negb].
  destruct (bind_parameters floatText 0 (hints_or_none options) (value entity))
    as [ps|e] eqn:B; cbn [Attributes.and_then].
  - exists ps. split; [exact (bind_parameters_returns _ _ _ _ B) | reflexivity].
  - exact (bind_parameters_throws _ _ _ _ B).
Qed.

Lemma trim_empty_iff_blank (location : string) :
  (truthy location && truthy (trim location)) = truthy (trim location).
Proof. destruct location; reflexivity. Qed.

(** X6.  Whatever the template, a submission names a work group, the
    configured one or else [primary]; it carries an output location
    only when the configured one has a character that is not a blank;
    and a template without placeholder is submitted as it is, the same
    text for every entity. *)
Theorem createQuery_envelope (entity : Entity) (options : Options)
    (preparedStatementName : option string) (queryParams : QueryParams) :
  createQuery floatText entity options preparedStatementName = Return queryParams ->
  WorkGroup queryParams <> EmptyString
  /\ WorkGroup queryParams
     = (if truthy (workGroup options) then workGroup options else "primary")
  /\ match ResultConfiguration queryParams with
     | Some location => location = outputLocation options /\ trim location <> EmptyString
     | None => trim (outputLocation options) = EmptyString
     end
  /\ (includes "?" (query options) = false -> QueryString queryParams = query options).
Proof.
  intro R.
  assert (E : exists text, queryParams = queryParams_of text options
                           /\ (includes "?" (query options) = false -> text = query options)).
  { unfold createQuery in R. destruct (includes "?" (query options)).
    - destruct (negb _); [discriminate R|].
      destruct (bind_parameters _ _ _ _) as [ps|e]; cbn [Attributes.and_then] in R;
        [|discriminate R].
      inversion R. eexists. split; [reflexivity | discriminate].
    - inversion R. eexists. split; [reflexivity | reflexivity]. }
  destruct E as (text & -> & Q).
  unfold queryParams_of. cbn [WorkGroup ResultConfiguration QueryString].
  rewrite trim_empty_iff_blank. unfold Statements.workGroup_or_primary.
  repeat split.
  - destruct (workGroup options); cbn; discriminate.
  - destruct (trim (outputLocation options)) eqn:T; cbn [truthy].
    + reflexivity.
    + split; [reflexivity | rewrite T; discriminate].
  - exact Q.
Qed.

Lemma spec_hints_length (q : string) :
  length (TypeHints.spec_hints q) = TypeHints.placeholder_count q.
Proof.
  unfold TypeHints.spec_hints, TypeHints.placeholder_count.
  now rewrite TypeHintsFacts.number_from_length, length_map.
Qed.

Lemma number_from_types (types : list string) :
  forall i, map TypeHints.type (TypeHints.number_from i types) = types.
Proof.
  induction types as [|t ts IH]; intro i; [reflexivity|].
  cbn [TypeHints.number_from map TypeHints.type]. now rewrite IH.
Qed.

Lemma bind_parameters_all_return (typeHints : list TypeHints.TypeHint) (entityValue : string) :
  Forall (fun typeHint =>
            returns (createParameterValue floatText entityValue (TypeHints.type typeHint))
            = true) typeHints ->
  forall i, returns (bind_parameters floatText i typeHints entityValue) = true.
Proof.
  induction 1 as [|h hs H _ IH]; intro i; [reflexivity|].
  cbn [bind_parameters].
  destruct (createParameterValue floatText entityValue (TypeHints.type h)); [|discriminate H].
  specialize (IH (S i)).
  destruct (bind_parameters floatText (S i) hs entityValue); [reflexivity | discriminate IH].
Qed.

(** X7.  With the type hints that parsing the template leaves in the
    options, a statement that is built has exactly as many literals as
    the template has placeholder marks; and when no placeholder of the
    template carries a tag, the statement is built for every entity
    value: binding cannot fail. *)
Theorem createQuery_one_literal_per_mark (entity : Entity) (options : Options)
    (statement : string) :
  includes "?" (query options) = true ->
  truthy statement = true ->
  let options' := Notions.hinted (query options) options in
  (forall queryParams,
      createQuery floatText entity options' (Some statement) = Return queryParams ->
      exists parameters,
        length parameters = TypeHints.placeholder_count (query options)
        /\ QueryString queryParams
           = ("EXECUTE " ++ statement ++ " USING " ++ join ", " parameters)%string)
  /\ (Forall (fun piece => TypeHints.type_tag piece = None)
        (snd (TypeHints.pieces (query options))) ->
      returns (createQuery floatText entity options' (Some statement)) = true).
Proof.
  intros M N options'.
  assert (H : hints_or_none options' = TypeHints.spec_hints (query options)).
  { unfold options', Notions.hinted, hints_or_none. cbn [_typeHints set_typeHints].
    now rewrite TypeHintsFacts.parse_spec. }
  assert (Q : query options' = query options) by reflexivity.
  split.
  - intros queryParams R. unfold createQuery in R. rewrite Q, M, N in R. cbn [negb] in R.
    destruct (bind_parameters floatText 0 (hints_or_none options') (value entity))
      as [ps|e] eqn:B; cbn [Attributes.and_then] in R; [|discriminate R].
    inversion R. exists ps. split; [|reflexivity].
    rewrite <- (Forall2_length (bind_parameters_returns _ _ _ _ B)), H.
    apply spec_hints_length.
  - intro U. unfold createQuery. rewrite Q, M, N. cbn [negb].
    assert (A : returns (bind_parameters floatText 0 (hints_or_none options') (value entity))
                = true).
    { apply bind_parameters_all_return. rewrite H.
      unfold TypeHints.spec_hints.
      apply Forall_forall. intros h Hh.
      apply (in_map TypeHints.type) in Hh. rewrite number_from_types in Hh.
      apply in_map_iff in Hh as (piece & <- & P).
      rewrite Forall_forall in U. unfold TypeHints.hint_type. rewrite (U _ P).
      reflexivity. }
    destruct (bind_parameters floatText 0 (hints_or_none options') (value entity));
      [reflexivity | discriminate A].
Qed.

End WithFloats.

Lemma createQuery_binds_every_hint_witness :
  exists parameters,
    Forall2 (fun typeHint parameter =>
               createParameterValue (fun s => s) "443" (TypeHints.type typeHint)
               = Return parameter)
      (hints_or_none (Notions.hinted (query Notions.port_options) Notions.port_options))
      parameters
    /\ "EXECUTE statement USING 443"
       = ("EXECUTE " ++ "statement" ++ " USING " ++ join ", " parameters)%string.
Proof.
  exact (createQuery_binds_every_hint (fun s => s) {| value := "443" |}
           (Notions.hinted (query Notions.port_options) Notions.port_options)
           "statement" eq_refl eq_refl).
Defined.

Lemma createQuery_envelope_witness :
  "primary" <> EmptyString
  /\ "primary" = "primary"
  /\ trim EmptyString = EmptyString
  /\ (includes "?" "SELECT 1" = false -> "SELECT 1" = "SELECT 1").
Proof.
  exact (createQuery_envelope (fun s => s) {| value := "443" |} Notions.sample_options None
           (queryParams_of "SELECT 1" Notions.sample_options) eq_refl).
Defined.

Lemma createQuery_one_literal_per_mark_witness :
  returns (createQuery (fun s => s) {| value := "10.0.0.1" |}
             (Notions.hinted Notions.ip_query (Service.options_for Notions.ip_query))
             (Some "statement")) = true.
Proof.
  apply (createQuery_one_literal_per_mark (fun s => s) {| value := "10.0.0.1" |}
           (Service.options_for Notions.ip_query) "statement" eq_refl eq_refl).
  repeat constructor.
Defined.

End QueryLaws.

(** ** Laws of the query execution *)

Module ExecutionLaws.

Import Data Async Execution Notions Laws.
Local Open Scope async_scope.

Lemma property_has_own (k : string) (o : RowObject) :
  has_own k o = false <-> property k o = None.
Proof.
  induction o as [|[k' v'] rest IH]; cbn [has_own property]; [tauto|].
  destruct (String.eqb k' k); cbn [orb]; [split; discriminate | exact IH].
Qed.

Lemma keys_overwrite (k : string) (v : option string) (o : RowObject) :
  has_own k o = true -> map fst (overwrite k v o) = map fst o.
Proof.
  induction o as [|[k' v'] rest IH]; cbn [has_own overwrite map fst]; [discriminate|].
  destruct (String.eqb_spec k' k) as [->|N]; cbn [orb map fst]; [reflexivity|].
  intro H. now rewrite IH.
Qed.

Lemma property_overwrite (k k' : string) (v : option string) (o : RowObject) :
  has_own k' o = true ->
  property k (overwrite k' v o) = if String.eqb k' k then Some v else property k o.
Proof.
  induction o as [|[k2 v2] rest IH]; cbn [has_own overwrite property]; [discriminate|].
  destruct (String.eqb_spec k2 k') as [->|N]; cbn [orb property].
  - intros _. destruct (String.eqb k' k); reflexivity.
  - intro H. rewrite (IH H).
    destruct (String.eqb_spec k2 k) as [->|N2]; [|reflexivity].
    destruct (String.eqb_spec k' k) as [E|_]; [congruence | reflexivity].
Qed.

Lemma keys_insert (k : string) (v : option string) (o : RowObject) (x : string) :
  In x (map fst (insert k v o)) <-> x = k \/ In x (map fst o).
Proof.
  induction o as [|[k' v'] rest IH]; cbn [insert map fst In]; [intuition|].
  destruct (listed_before k k'); cbn [map fst In]; [intuition|].
  rewrite IH. intuition.
Qed.

Lemma nodup_insert (k : string) (v : option string) (o : RowObject) :
  has_own k o = false -> NoDup (map fst o) -> NoDup (map fst (insert k v o)).
Proof.
  induction o as [|[k' v'] rest IH]; cbn [has_own insert map fst]; intros H D.
  - repeat constructor. intros [].
  - apply orb_false_iff in H as [N H]. apply String.eqb_neq in N.
    inversion D as [|a l Hn Hd]. subst a l.
    destruct (listed_before k k'); cbn [map fst].
    + constructor; [|exact D]. cbn [In]. intros [E|I]; [congruence|].
      apply property_has_own in H. clear - H I.
      induction rest as [|[k2 v2] rest IH]; [destruct I|].
      cbn [property map fst In] in *. destruct (String.eqb_spec k2 k) as [->|N];
        [discriminate H|]. destruct I as [E|I]; [congruence | exact (IH H I)].
    + constructor; [|exact (IH H Hd)]. rewrite keys_insert. intros [E|I]; [congruence|].
      exact (Hn I).
Qed.

Lemma property_insert (k k' : string) (v : option string) (o : RowObject) :
  has_own k' o = false ->
  property k (insert k' v o) = if String.eqb k' k then Some v else property k o.
Proof.
  induction o as [|[k2 v2] rest IH]; cbn [has_own insert property]; [reflexivity|].
  intro H. apply orb_false_iff in H as [N H].
  destruct (listed_before k' k2); cbn [property].
  - destruct (String.eqb k' k); reflexivity.
  - rewrite (IH H). destruct (String.eqb_spec k2 k) as [->|N2]; [|reflexivity].
    rewrite String.eqb_sym, N. reflexivity.
Qed.

Lemma property_assign (k k' : string) (v : option string) (o : RowObject) :
  property k (assign k' v o) = if String.eqb k' k then Some v else property k o.
Proof.
  unfold assign. destruct (has_own k' o) eqn:H;
    [now apply property_overwrite | now apply property_insert].
Qed.

Lemma keys_assign (k : string) (v : option string) (o : RowObject) :
  NoDup (map fst o) -> NoDup (map fst (assign k v o)).
Proof.
  intro D. unfold assign. destruct (has_own k o) eqn:H.
  - now rewrite keys_overwrite.
  - now apply nodup_insert.
Qed.

Lemma listed_before_asymmetric (a b : string) :
  listed_before a b = true -> listed_before b a = false.
Proof.
  unfold listed_before. destruct (array_index a), (array_index b); try discriminate;
    try reflexivity.
  intro H. apply Z.ltb_lt in H. apply Z.ltb_ge. lia.
Qed.

Lemma listed_before_earlier (k k' b : string) :
  listed_before k k' = true -> listed_before b k' = false -> listed_before b k = false.
Proof.
  unfold listed_before.
  destruct (array_index k), (array_index k'), (array_index b); try discriminate;
    try reflexivity.
  intros H1 H2. apply Z.ltb_lt in H1. apply Z.ltb_ge in H2. apply Z.ltb_ge. lia.
Qed.

Lemma host_order_keys (o o' : RowObject) :
  map fst o' = map fst o -> host_order o -> host_order o'.
Proof.
  revert o'. induction o as [|[k v] rest IH]; intros [|[k' v'] rest'] E; cbn [map fst] in E;
    try discriminate E; [trivial|].
  inversion E as [[E1 E2]]. subst k'. cbn [host_order]. intros [F H].
  split; [|exact (IH _ E2 H)].
  rewrite Forall_forall in *. intros x I.
  apply (in_map fst) in I. rewrite E2 in I. apply in_map_iff in I as (y & <- & I).
  exact (F y I).
Qed.

Lemma host_order_insert (k : string) (v : option string) (o : RowObject) :
  host_order o -> host_order (insert k v o).
Proof.
  induction o as [|[k' v'] rest IH]; cbn [insert host_order]; [intros _; split; constructor|].
  intros [F H]. destruct (listed_before k k') eqn:L; cbn [host_order].
  - split; [|split; assumption].
    constructor; [exact (listed_before_asymmetric _ _ L)|].
    eapply Forall_impl; [|exact F]. intros x. apply listed_before_earlier. exact L.
  - split; [|exact (IH H)].
    rewrite Forall_forall in *. intros x I.
    assert (I' : In (fst x) (map fst (insert k v rest))) by now apply in_map.
    apply keys_insert in I' as [E|I']; [now rewrite E|].
    apply in_map_iff in I' as (y & E & I'). rewrite <- E. exact (F y I').
Qed.

Lemma host_order_assign (k : string) (v : option string) (o : RowObject) :
  host_order o -> host_order (assign k v o).
Proof.
  intro H. unfold assign. destruct (has_own k o) eqn:O.
  - exact (host_order_keys _ _ (keys_overwrite k v o O) H).
  - now apply host_order_insert.
Qed.

Lemma fill_invariant (headers cols : list (option string)) :
  forall index obj,
    NoDup (map fst obj) /\ host_order obj /\ property "__proto__" obj = None ->
    NoDup (map fst (fill headers index cols obj))
    /\ host_order (fill headers index cols obj)
    /\ property "__proto__" (fill headers index cols obj) = None.
Proof.
  induction cols as [|col more IH]; intros index obj I; cbn [fill]; [exact I|].
  apply IH. destruct I as (D & H & P). unfold store_cell.
  destruct (String.eqb_spec (header_at headers index) "__proto__") as [E|N];
    [repeat split; assumption|].
  split; [now apply keys_assign|]. split; [now apply host_order_assign|].
  rewrite property_assign. apply String.eqb_neq in N. now rewrite N.
Qed.

Lemma property_fill_other (headers cols : list (option string)) (k : string) :
  forall index obj,
    ~ In k (map (header_at headers) (seq index (length cols))) ->
    property k (fill headers index cols obj) = property k obj.
Proof.
  induction cols as [|col more IH]; intros index obj N; cbn [fill]; [reflexivity|].
  cbn [length seq map In] in N.
  rewrite IH by tauto. unfold store_cell.
  destruct (String.eqb (header_at headers index) "__proto__"); [reflexivity|].
  rewrite property_assign.
  destruct (String.eqb_spec (header_at headers index) k) as [E|_]; [tauto | reflexivity].
Qed.

Lemma property_fill (headers cols : list (option string)) :
  forall index obj,
    NoDup (map (header_at headers) (seq index (length cols))) ->
    forall i cell,
      nth_error cols i = Some cell ->
      header_at headers (index + i) <> "__proto__"%string ->
      property (header_at headers (index + i)) (fill headers index cols obj) = Some cell.
Proof.
  induction cols as [|col more IH]; intros index obj D i cell C P.
  - destruct i; discriminate C.
  - cbn [length seq map] in D. inversion D as [|a l Hn Hd]. subst a l.
    cbn [fill]. destruct i as [|i]; cbn [nth_error] in C.
    + inversion C. subst cell. rewrite Nat.add_0_r in *.
      rewrite property_fill_other by exact Hn.
      unfold store_cell. apply String.eqb_neq in P. rewrite P.
      rewrite property_assign. now rewrite String.eqb_refl.
    + replace (index + S i) with (S index + i) in * by lia.
      now apply IH.
Qed.

(** X8.  The rows of a result become one object per row after the
    header row, in row order.  No object has a column name twice, its
    properties are in the order the host lists them (array indices
    first, ascending), and it never has a property named [__proto__]:
    a cell under that column name is dropped.  When the column names
    under a row's cells are distinct, the object gives, at each other
    column name, the cell of that row in that column.  A result without
    rows, or with the header row only, gives no object. *)
Theorem rows_to_objects_columns (header : Row) (data : list Row) :
  rows_to_objects None = []
  /\ rows_to_objects (Some []) = []
  /\ length (rows_to_objects (Some (header :: data))) = length data
  /\ forall n row,
       nth_error data n = Some row ->
       exists object,
         nth_error (rows_to_objects (Some (header :: data))) n = Some object
         /\ NoDup (map fst object)
         /\ host_order object
         /\ property "__proto__" object = None
         /\ (NoDup (map (header_at (Data header)) (seq 0 (length (Data row)))) ->
             forall i cell,
               nth_error (Data row) i = Some cell ->
               header_at (Data header) i <> "__proto__"%string ->
               property (header_at (Data header) i) object = Some cell).
Proof.
  split; [reflexivity|]. split; [reflexivity|].
  cbn [rows_to_objects]. split; [apply length_map|].
  intros n row R. exists (fill (Data header) 0 (Data row) []).
  split; [now rewrite nth_error_map, R|].
  destruct (fill_invariant (Data header) (Data row) 0 []) as (D & H & P);
    [repeat split; constructor|].
  split; [exact D|]. split; [exact H|]. split; [exact P|].
  intros N i cell C Q. exact (property_fill _ _ 0 [] N i cell C Q).
Qed.

Lemma seconds_text_fraction (r : Z) :
  (0 <= r < 1000)%Z ->
  String.length (pad_left 3 (Num.numeral r)) = 3
  /\ all_chars is_digit (pad_left 3 (Num.numeral r)) = true.
Proof.
  intro B.
  assert (E : exists k, k < 1000 /\ r = Z.of_nat k).
  { exists (Z.to_nat r). lia. }
  destruct E as (k & K & ->). clear B.
  assert (A : forallb (fun k => Nat.eqb (String.length (pad_left 3 (Num.numeral (Z.of_nat k)))) 3
                                && all_chars is_digit (pad_left 3 (Num.numeral (Z.of_nat k))))
                (seq 0 1000) = true) by (vm_compute; reflexivity).
  rewrite forallb_forall in A.
  assert (I : In k (seq 0 1000)) by (apply in_seq; lia).
  apply A, andb_true_iff in I as [L D]. apply Nat.eqb_eq in L. split; assumption.
Qed.

(** X9.  The elapsed time of a running query is absent exactly when
    the status carries no submission time; otherwise it is the time
    since submission, never negative (a submission time in the future
    counts as zero), and its text in seconds has exactly three digits
    after the dot. *)
Theorem calculateElapsedTime_bounds (submissionTime : option Z) (date_now : Z) :
  match submissionTime, calculateElapsedTime submissionTime date_now with
  | None, (None, None) => True
  | Some t, (Some elapsedMs, Some elapsedSeconds) =>
      (0 <= elapsedMs)%Z
      /\ ((t <= date_now)%Z -> elapsedMs = (date_now - t)%Z)
      /\ ((date_now <= t)%Z -> elapsedMs = 0%Z)
      /\ exists fraction,
           elapsedSeconds
           = (Num.numeral (elapsedMs / 1000) ++ "." ++ fraction)%string
           /\ String.length fraction = 3
           /\ all_chars is_digit fraction = true
  | _, _ => False
  end.
Proof.
  destruct submissionTime as [t|]; cbn [calculateElapsedTime]; [|exact I].
  split; [lia|]. split; [lia|]. split; [lia|].
  unfold seconds_text.
  assert (P : (0 <= Z.max 0 (date_now - t))%Z) by lia.
  destruct (Z.ltb_spec (Z.max 0 (date_now - t)) 0) as [L|_]; [lia|].
  rewrite (Z.abs_eq _ P).
  eexists. split; [reflexivity|].
  apply seconds_text_fraction. apply Z.mod_pos_bound. lia.
Qed.

Section Client.

Variable rstate : Type.
Variable send : forall R : Type, Command R -> rstate -> completion R * rstate.

(** X10.  When the submission is refused nothing else is sent, and the
    error that comes out is a plain error whose message starts with one
    of two fixed prefixes and carries the message of the refusal. *)
Theorem executeAthenaQuery_submission_refused (revision : Revision)
    (queryParams : QueryParams) (options : Options) (w : World rstate)
    (refusal : Error) (rs : rstate) :
  send _ (StartQueryExecutionCommand queryParams) (remote w) = (Throw refusal, rs) ->
  let run := executeAthenaQuery send revision queryParams options w in
  trace run = [Sent (StartQueryExecutionCommand queryParams)]
  /\ exists error,
       result run = Throw error
       /\ name error = "Error"
       /\ ((exists advice,
              message error
              = ("S3 output bucket error: " ++ message refusal ++ advice)%string)
           \/ message error
              = ("Failed to start Athena query: "
                 ++ (if truthy (message refusal) then message refusal
                     else if truthy (name refusal) then name refusal
                     else "Unknown error"))%string).
Proof.
  intro Hs. cbv zeta.
  destruct (ExecutionFacts.exec_start_throws rstate send revision queryParams options w
              refusal rs Hs) as [R T].
  split; [exact T|].
  exists (start_error refusal). split; [exact R|].
  unfold start_error. destruct (_ && _); cbn [name message mkError].
  - split; [reflexivity|]. left. eexists. reflexivity.
  - split; [reflexivity|]. right. reflexivity.
Qed.

Lemma sleeping_time_app (t u : list Event) :
  sleeping_time (t ++ u) = (sleeping_time t + sleeping_time u)%Z.
Proof.
  induction t as [|[ms|R c] t IH]; cbn [app sleeping_time]; lia.
Qed.

Lemma sleeping_time_rounds (id : string) (j : nat) :
  sleeping_time (rounds id j) = (3000 * Z.of_nat j)%Z.
Proof.
  induction j as [|j IH]; [reflexivity|].
  cbn [rounds round app sleeping_time]. rewrite IH. unfold POLLING_WAIT_INTERVAL. lia.
Qed.

Lemma poll_clock (revision : Revision) (id : string) (k : nat) :
  forall attempts statusResult queryStatus w,
    attempts + k = MAX_QUERY_STATUS_POLLING_ATTEMPTS revision ->
    let run := poll send revision id attempts statusResult queryStatus w in
    vars (final run) = vars w
    /\ now (final run) = (now w + sleeping_time (trace run))%Z
    /\ exists j, j <= k /\ trace run = rounds id j.
Proof.
  induction k as [|k IH]; intros attempts statusResult queryStatus w Hk; cbv zeta.
  - destruct (pending queryStatus) eqn:Hp.
    + destruct (ExecutionFacts.poll_suspended rstate send revision id attempts statusResult
                  queryStatus w Hp ltac:(lia)) as (T & F & _).
      rewrite T, F. cbn. repeat split; try lia. exists 0. split; [lia | reflexivity].
    + rewrite (ExecutionFacts.poll_left rstate send revision id attempts statusResult
                 queryStatus w Hp).
      cbn. repeat split; try lia. exists 0. split; [lia | reflexivity].
  - destruct (pending queryStatus) eqn:Hp.
    + destruct (send _ (GetQueryExecutionCommand id) (remote w)) as [a rs] eqn:Hs.
      pose proof (ExecutionFacts.poll_round rstate send revision id attempts statusResult
                    queryStatus w a rs Hp ltac:(lia) Hs) as R.
      cbv zeta in R. destruct a as [qe|e].
      * destruct R as (_ & Rf & Rt).
        destruct (IH (S attempts) (Some qe) (State qe) (after_round w rs) ltac:(lia))
          as (V & N & j & Hj & T).
        rewrite Rf, Rt, V, N, T. unfold after_round. cbn [vars now].
        rewrite sleeping_time_app. unfold round, POLLING_WAIT_INTERVAL.
        cbn [sleeping_time]. repeat split; try lia.
        exists (S j). split; [lia | reflexivity].
      * destruct R as (_ & Rf & Rt). rewrite Rf, Rt.
        unfold round, after_round, POLLING_WAIT_INTERVAL.
        cbn [vars now app sleeping_time]. repeat split; try lia.
        exists 1. split; [lia | reflexivity].
    + rewrite (ExecutionFacts.poll_left rstate send revision id attempts statusResult
                 queryStatus w Hp).
      cbn. repeat split; try lia. exists 0. split; [lia | reflexivity].
Qed.

(** X11.  An execution leaves the module-level variables as they were
    and submits once; the time it spends sleeping is three seconds for
    every status check, at most thirty seconds in the resumable
    revision and forty-five in the earlier one; and its clock moves by
    exactly that time. *)
Theorem executeAthenaQuery_sleeping_time (revision : Revision)
    (queryParams : QueryParams) (options : Options) (w : World rstate) :
  let run := executeAthenaQuery send revision queryParams options w in
  vars (final run) = vars w
  /\ count is_submission (trace run) = 1
  /\ sleeping_time (trace run)
     = (3000 * Z.of_nat (count is_status_check (trace run)))%Z
  /\ (sleeping_time (trace run)
      <= 3000 * Z.of_nat (MAX_QUERY_STATUS_POLLING_ATTEMPTS revision))%Z
  /\ now (final run) = (now w + sleeping_time (trace run))%Z.
Proof.
  cbv zeta. unfold executeAthenaQuery, bind, catch, await_send, ret, throw.
  destruct (send _ (StartQueryExecutionCommand queryParams) (remote w)) as [[id|e] rs] eqn:Hs;
    cbn [result final trace];
    [|unfold count;
      cbn [vars now app filter is_submission is_status_check length sleeping_time];
      repeat split; lia].
  destruct (poll_clock revision id (MAX_QUERY_STATUS_POLLING_ATTEMPTS revision) 0 None
              "RUNNING" {| remote := rs; now := now w; vars := vars w |} eq_refl)
    as (V & N & j & Hj & T).
  destruct (poll send revision id 0 None "RUNNING" _) as [res fin tr].
  cbn [result final trace vars now] in V, N, T |- *. subst tr.
  assert (C : forall tail,
             count is_submission tail = 0 -> count is_status_check tail = 0 ->
             sleeping_time tail = 0%Z ->
             count is_submission
               (Sent (StartQueryExecutionCommand queryParams) :: rounds id j ++ tail) = 1
             /\ sleeping_time
                  (Sent (StartQueryExecutionCommand queryParams) :: rounds id j ++ tail)
                = (3000 * Z.of_nat
                            (count is_status_check
                               (Sent (StartQueryExecutionCommand queryParams)
                                  :: rounds id j ++ tail)))%Z
             /\ (sleeping_time
                   (Sent (StartQueryExecutionCommand queryParams) :: rounds id j ++ tail)
                 <= 3000 * Z.of_nat (MAX_QUERY_STATUS_POLLING_ATTEMPTS revision))%Z
             /\ sleeping_time (rounds id j)
                = sleeping_time
                    (Sent (StartQueryExecutionCommand queryParams) :: rounds id j ++ tail)).
  { intros tail C1 C2 C3.
    change (Sent (StartQueryExecutionCommand queryParams) :: rounds id j ++ tail)
      with ([Sent (StartQueryExecutionCommand queryParams)] ++ rounds id j ++ tail).
    rewrite !ExecutionFacts.count_app, !sleeping_time_app, C1, C2, C3.
    rewrite ExecutionFacts.rounds_status_checks, sleeping_time_rounds.
    assert (S0 : count is_submission (rounds id j) = 0).
    { clear. induction j as [|j IH]; [reflexivity | exact IH]. }
    rewrite S0. unfold count.
    cbn [filter is_submission is_status_check length sleeping_time].
    repeat split; lia. }
  destruct res as [[r|queryStatus [qe|]]|e]; cbn [result final trace app].
  - destruct (C [] eq_refl eq_refl eq_refl) as (C1 & C2 & C3 & C4).
    rewrite C4 in N. repeat split; assumption.
  - destruct (failed_or_cancelled queryStatus); cbn [result final trace].
    + destruct (C [] eq_refl eq_refl eq_refl) as (C1 & C2 & C3 & C4).
      rewrite C4 in N. repeat split; assumption.
    + destruct (send _ (GetQueryResultsCommand id (limit_or_default options)) (remote fin))
        as [rr rs2].
      destruct (C [Sent (GetQueryResultsCommand id (limit_or_default options))]
                  eq_refl eq_refl eq_refl) as (C1 & C2 & C3 & C4).
      rewrite C4 in N.
      destruct rr; cbn [result final trace vars now]; rewrite ?app_nil_r;
        repeat split; assumption.
  - destruct (C [] eq_refl eq_refl eq_refl) as (C1 & C2 & C3 & C4).
    rewrite C4 in N. repeat split; assumption.
  - destruct (C [] eq_refl eq_refl eq_refl) as (C1 & C2 & C3 & C4).
    rewrite C4 in N. rewrite ?app_nil_r in *. repeat split; assumption.
Qed.

Lemma check_effects (queryExecutionId : string) (options : Options) (w : World rstate) :
  let run := checkQueryStatusAndGetResults send queryExecutionId options w in
  (trace run = [Sent (GetQueryExecutionCommand queryExecutionId)]
   \/ trace run = [Sent (GetQueryExecutionCommand queryExecutionId);
                   Sent (GetQueryResultsCommand queryExecutionId (limit_or_default options))])
  /\ vars (final run) = vars w
  /\ now (final run) = now w.
Proof.
  cbv zeta. unfold checkQueryStatusAndGetResults, bind, await_send, date_now, ret, throw.
  destruct (send _ (GetQueryExecutionCommand queryExecutionId) (remote w)) as [[qe|e] rs];
    cbn [result final trace remote now vars]; [|repeat split; left; reflexivity].
  destruct (String.eqb (State qe) "SUCCEEDED"); cbn [result final trace remote now vars].
  - destruct (send _ (GetQueryResultsCommand queryExecutionId (limit_or_default options)) rs)
      as [[rr|e] rs2]; cbn [result final trace vars now remote app];
      (split; [right; reflexivity | split; reflexivity]).
  - destruct (pending (State qe)); cbn [result final trace vars now remote app];
      [split; [left; reflexivity | split; reflexivity]|].
    destruct (failed_or_cancelled (State qe)); cbn [result final trace vars now remote app];
      (split; [left; reflexivity | split; reflexivity]).
Qed.

(** X12.  The resumption check asks for the status once, never
    sleeps, never submits, fetches results at most once and only for
    the state SUCCEEDED, and leaves the module-level variables and the
    clock as they were.  For a pending state it returns an incomplete
    result with the same execution id, an empty list of results and the
    state it saw as status. *)
Theorem checkQueryStatusAndGetResults_single_check (queryExecutionId : string)
    (options : Options) (w : World rstate) :
  let run := checkQueryStatusAndGetResults send queryExecutionId options w in
  count is_status_check (trace run) = 1
  /\ count is_sleep (trace run) = 0
  /\ count is_submission (trace run) = 0
  /\ vars (final run) = vars w
  /\ now (final run) = now w
  /\ forall qe rs,
       send _ (GetQueryExecutionCommand queryExecutionId) (remote w) = (Return qe, rs) ->
       count is_fetch (trace run) = (if String.eqb (State qe) "SUCCEEDED" then 1 else 0)
       /\ (pending (State qe) = true ->
           exists stats,
             result run
             = Return {| results := Some []; complete := false;
                         Data.queryExecutionId := queryExecutionId;
                         executionStats := Some stats |}
             /\ status stats = Some (State qe)
             /\ runtimeMs stats = None).
Proof.
  cbv zeta. unfold checkQueryStatusAndGetResults, bind, await_send, date_now, ret, throw.
  destruct (send _ (GetQueryExecutionCommand queryExecutionId) (remote w)) as [[qe|e] rs]
    eqn:Hs; cbn [result final trace remote now vars].
  - destruct (String.eqb (State qe) "SUCCEEDED") eqn:S;
      cbn [result final trace remote now vars].
    + destruct (send _ (GetQueryResultsCommand queryExecutionId (limit_or_default options))
                  rs) as [[rr|e] rs2]; cbn [result final trace vars now remote app];
        do 5 (split; [reflexivity|]);
        intros qe' rs' E; inversion E; subst qe' rs'; rewrite S;
        (split; [reflexivity|]);
        intro P; apply String.eqb_eq in S; rewrite S in P; discriminate P.
    + destruct (pending (State qe)) eqn:P; cbn [result final trace vars now remote app].
      * do 5 (split; [reflexivity|]).
        intros qe' rs' E; inversion E; subst qe' rs'. rewrite S.
        split; [reflexivity|]. intros _. eexists. split; [reflexivity|].
        unfold incompleteStats. destruct (calculateElapsedTime _ _). split; reflexivity.
      * destruct (failed_or_cancelled (State qe));
          cbn [result final trace vars now remote app];
          do 5 (split; [reflexivity|]);
          intros qe' rs' E; inversion E; subst qe' rs'; rewrite S;
          (split; [reflexivity|]); intro P'; rewrite P in P'; discriminate P'.
  - do 5 (split; [reflexivity|]). intros qe rs' E. discriminate E.
Qed.

(** X13.  Resuming gives what waiting would have given: when a status
    answer with the state SUCCEEDED ends the polling loop within its
    budget, the result of the execution is the result the resumption
    check returns on seeing the same status answer and the same answer
    to the fetch of the results. *)
Theorem resumed_result_matches_waiting (queryParams : QueryParams) (options : Options)
    (w resumed : World rstate) (id : string) (rs rs' rs2 : rstate) (j : nat)
    (qe : QueryExecution) :
  send _ (StartQueryExecutionCommand queryParams) (remote w) = (Return id, rs) ->
  j < MAX_QUERY_STATUS_POLLING_ATTEMPTS Resumable ->
  forallb pending_answer (status_answers send id j rs) = true ->
  send _ (GetQueryExecutionCommand id) (after_checks send id j rs) = (Return qe, rs') ->
  State qe = "SUCCEEDED" ->
  send _ (GetQueryExecutionCommand id) (remote resumed) = (Return qe, rs2) ->
  fst (send _ (GetQueryResultsCommand id (limit_or_default options)) rs2)
  = fst (send _ (GetQueryResultsCommand id (limit_or_default options)) rs') ->
  result (checkQueryStatusAndGetResults send id options resumed)
  = result (executeAthenaQuery send Resumable queryParams options w).
Proof.
  intros Hs Hj Hall Ha S Hr F.
  destruct (ExecutionFacts.exec_other_status rstate send Resumable queryParams options w id
              rs j qe rs' Hs Hj Hall Ha) as [_ R].
  { now rewrite S. }
  { now rewrite S. }
  rewrite R, <- F.
  assert (E : String.eqb (State qe) "SUCCEEDED" = true) by (rewrite S; reflexivity).
  unfold checkQueryStatusAndGetResults, bind, await_send, ret.
  rewrite Hr. cbn [result final trace remote now vars]. rewrite E.
  cbn [result final trace remote now vars].
  destruct (send _ (GetQueryResultsCommand id (limit_or_default options)) rs2)
    as [[rr|e] rs3]; reflexivity.
Qed.

End Client.

Lemma executeAthenaQuery_submission_refused_witness :
  trace (executeAthenaQuery Service.send Resumable sample_params sample_options
           (Service.world closed_service))
  = [Sent (StartQueryExecutionCommand sample_params)]
  /\ exists error,
       result (executeAthenaQuery Service.send Resumable sample_params sample_options
                 (Service.world closed_service))
       = Throw error
       /\ name error = "Error"
       /\ ((exists advice,
              message error
              = ("S3 output bucket error: "
                 ++ "Unable to verify/create output bucket logs" ++ advice)%string)
           \/ message error
              = "Failed to start Athena query: Unable to verify/create output bucket logs").
Proof.
  exact (executeAthenaQuery_submission_refused Service.Service (@Service.send) Resumable
           sample_params sample_options (Service.world closed_service)
           (Service.service_error "InvalidRequestException"
              "Unable to verify/create output bucket logs")
           closed_service eq_refl).
Defined.

Lemma resumed_result_matches_waiting_witness :
  result (checkQueryStatusAndGetResults Service.send "execution-1" sample_options
            (Service.world quick_service))
  = result (executeAthenaQuery Service.send Resumable sample_params sample_options
              (Service.world quick_service)).
Proof.
  apply (resumed_result_matches_waiting Service.Service (@Service.send) sample_params
           sample_options (Service.world quick_service) (Service.world quick_service)
           "execution-1" quick_service (Service.advance quick_service)
           (Service.advance quick_service) 0
           {| State := "SUCCEEDED"; StateChangeReason := None; SubmissionDateTime := None;
              CompletionDateTime := None; Stats := None |});
    first [reflexivity | cbn; lia].
Defined.

End ExecutionLaws.

(** ** Laws of the attribute plans and the projection *)

Module AttributesLaws.

Import Data Attributes Laws.

Lemma same_option_eq (last : option (option string)) (given : option string) :
  same_option last given = true -> last = Some given.
Proof.
  destruct last as [[a|]|], given as [b|]; cbn; intro H; try discriminate H;
    [apply String.eqb_eq in H; now subst | reflexivity].
Qed.

Lemma same_option_refl (given : option string) : same_option (Some given) given = true.
Proof. destruct given as [b|]; cbn; [apply String.eqb_refl | reflexivity]. Qed.

Lemma refresh_current (last : option (option string)) (cached : option Plan)
    (given : option string) :
  current last cached ->
  refresh last cached given = (compiled given, Some given).
Proof.
  intro C. unfold refresh. destruct (same_option last given) eqn:S.
  - apply same_option_eq in S. subst last. cbn in C. now rewrite C.
  - unfold compiled. destruct given as [s|]; [|reflexivity].
    destruct (configured (Some s)); reflexivity.
Qed.

Lemma setCachedDisplayAttributes_current_state (options : Options) (g : Globals) :
  coherent g ->
  cachedDocumentTitleAttributes (setCachedDisplayAttributes options g)
  = compiled (documentTitleAttribute options)
  /\ cachedDetailAttributes (setCachedDisplayAttributes options g)
     = compiled (detailAttributes options)
  /\ cachedSummaryAttributes (setCachedDisplayAttributes options g)
     = compiled (summaryAttributes options)
  /\ coherent (setCachedDisplayAttributes options g).
Proof.
  intros (C1 & C2 & C3).
  unfold setCachedDisplayAttributes.
  rewrite (refresh_current _ _ _ C1), (refresh_current _ _ _ C2), (refresh_current _ _ _ C3).
  repeat split.
Qed.

(** X14.  When every cached plan is the plan of the option it was
    compiled from, a call leaves each cache holding the plan of the
    option just given, so a cached plan is never stale; the caches stay
    in that state, a second call with the same options changes nothing,
    and the client and the statement cache are not touched. *)
Theorem setCachedDisplayAttributes_current (options : Options) (g : Globals) :
  coherent g ->
  let g' := setCachedDisplayAttributes options g in
  cachedDocumentTitleAttributes g' = compiled (documentTitleAttribute options)
  /\ cachedDetailAttributes g' = compiled (detailAttributes options)
  /\ cachedSummaryAttributes g' = compiled (summaryAttributes options)
  /\ coherent g'
  /\ setCachedDisplayAttributes options g' = g'
  /\ originalOptions g' = originalOptions g
  /\ athenaClient g' = athenaClient g
  /\ currentPreparedStatement g' = currentPreparedStatement g
  /\ currentQuery g' = currentQuery g.
Proof.
  intros (C1 & C2 & C3). cbv zeta.
  unfold setCachedDisplayAttributes.
  rewrite (refresh_current _ _ _ C1), (refresh_current _ _ _ C2), (refresh_current _ _ _ C3).
  cbn [set_plans cachedDocumentTitleAttributes cachedDetailAttributes
         cachedSummaryAttributes lastDocumentTitleAttributeOption
         lastDetailAttributesOption lastSummaryAttributesOption
         originalOptions athenaClient currentPreparedStatement currentQuery].
  repeat split.
  unfold refresh. rewrite !same_option_refl. reflexivity.
Qed.

Lemma setCachedDisplayAttributes_current_witness :
  cachedDetailAttributes
    (setCachedDisplayAttributes (Notions.summary_options "a, b:c" 3) initial)
  = compiled (Some "a, b:c").
Proof.
  apply (setCachedDisplayAttributes_current (Notions.summary_options "a, b:c" 3) initial).
  repeat split.
Defined.

Lemma cached_after_coherent (calls : list Options) :
  forall g, coherent g -> coherent (cached_after calls g).
Proof.
  induction calls as [|o rest IH]; intros g C; [exact C|].
  cbn [cached_after]. apply IH.
  now destruct (setCachedDisplayAttributes_current_state o g C) as (_ & _ & _ & C').
Qed.

Lemma cached_after_last (calls : list Options) (options : Options) :
  forall g, cached_after (calls ++ [options]) g
            = setCachedDisplayAttributes options (cached_after calls g).
Proof.
  induction calls as [|o rest IH]; intro g; [reflexivity|].
  cbn [app cached_after]. apply IH.
Qed.

(** X15.  From the initial variables, after any sequence of
    invocations the cached plans are those of the options of the last
    invocation. *)
Theorem cached_plans_follow_options (calls : list Options) (options : Options) :
  let g := cached_after (calls ++ [options]) initial in
  cachedDocumentTitleAttributes g = compiled (documentTitleAttribute options)
  /\ cachedDetailAttributes g = compiled (detailAttributes options)
  /\ cachedSummaryAttributes g = compiled (summaryAttributes options).
Proof.
  cbv zeta. rewrite cached_after_last.
  assert (I : coherent initial) by (repeat split).
  destruct (setCachedDisplayAttributes_current_state options _
              (cached_after_coherent calls initial I)) as (T & D & S & _).
  repeat split; assumption.
Qed.

Lemma unique_from_In (tags seen : list string) (t : string) :
  In t (unique_from seen tags) <-> In t tags /\ ~ In t seen.
Proof.
  revert seen. induction tags as [|u rest IH]; intro seen; cbn [unique_from In].
  - tauto.
  - destruct (existsb (String.eqb u) seen) eqn:E.
    + rewrite IH. apply existsb_exists in E as (x & Hx & Ex).
      apply String.eqb_eq in Ex. subst x.
      split; [tauto|]. intros [[->|H] N]; [contradiction | tauto].
    + cbn [In]. rewrite IH. cbn [In].
      assert (N : ~ In u seen).
      { intro Hin. assert (existsb (String.eqb u) seen = true) as C.
        { apply existsb_exists. exists u. split; [exact Hin | apply String.eqb_refl]. }
        congruence. }
      destruct (string_dec u t) as [->|D]; [tauto|]. tauto.
Qed.

Lemma unique_from_length (tags seen : list string) :
  length (unique_from seen tags) <= length tags.
Proof.
  revert seen. induction tags as [|u rest IH]; intro seen; cbn [unique_from length];
    [apply le_n|].
  destruct (existsb (String.eqb u) seen); cbn [length].
  - specialize (IH seen). lia.
  - specialize (IH (u :: seen)). lia.
Qed.

Section Libraries.

Variable dates : DateLibrary.
Variable get : RowObject -> string -> option string.

Lemma summary_rows_length (a : AttributeSpec) (budget : nat) (results : list RowObject) :
  exists tags,
    summary_rows dates get (Some a) budget results = Return tags
    /\ length tags <= Nat.min budget (length results).
Proof.
  revert results. induction budget as [|b IH]; intros [|r rest]; cbn [summary_rows];
    try (exists []; split; [reflexivity | cbn; lia]).
  destruct (IH rest) as (tags & E & L). rewrite E.
  destruct (present (get r (attribute a))).
  - destruct (AttributesFacts.parseAttribute_returns dates (get r (attribute a)) (parser a))
      as [v ->].
    cbn [and_then]. eexists. split; [reflexivity|]. cbn [length]. lia.
  - exists tags. split; [reflexivity|]. cbn [length]. lia.
Qed.

Lemma summary_tags_length (plan : Plan) (budget : nat) (results : list RowObject) :
  defined plan ->
  exists tags,
    summary_tags dates get plan budget results = Return tags
    /\ length tags <= length plan * Nat.min budget (length results).
Proof.
  induction 1 as [|entry rest D _ IH]; cbn [summary_tags].
  - exists []. split; [reflexivity | cbn; lia].
  - destruct entry as [a|]; [|contradiction].
    destruct (summary_rows_length a budget results) as (tags & -> & L).
    destruct IH as (more & -> & M).
    cbn [and_then]. eexists. split; [reflexivity|].
    rewrite length_app. cbn [length]. lia.
Qed.

Lemma with_count_not_empty (maxSummaryDocuments : nat) (results : list RowObject)
    (tags : list string) :
  with_count maxSummaryDocuments results tags <> [].
Proof.
  unfold with_count. destruct tags as [|t tags]; cbn [length Nat.eqb orb]; [discriminate|].
  destruct (maxSummaryDocuments <? length results)%nat; discriminate.
Qed.

Lemma unique_not_empty (tags : list string) : tags <> [] -> unique tags <> [].
Proof. destruct tags as [|t rest]; [contradiction | discriminate]. Qed.

Lemma getSummaryTags_returns (g : Globals) (results : list RowObject) (options : Options) :
  (forall plan, cachedSummaryAttributes g = Some plan -> defined plan) ->
  exists tags,
    getSummaryTags dates get g results options = Return tags /\ tags <> [].
Proof.
  intro D. unfold getSummaryTags.
  destruct (no_plan (cachedSummaryAttributes g)) eqn:N.
  - eexists. split; [reflexivity | discriminate].
  - destruct (cachedSummaryAttributes g) as [plan|] eqn:C; [|discriminate N].
    destruct (summary_tags_length plan (maxSummaryDocuments options) results (D plan eq_refl))
      as (tags & -> & _).
    cbn [and_then]. eexists. split; [reflexivity|].
    apply unique_not_empty, with_count_not_empty.
Qed.

(** X16.  When the cached summary plan has no undefined entry the
    summary is produced for any rows: it is never empty, holds no tag
    twice, holds the result count whenever there are more rows than
    summary documents allowed, is the result count alone when no plan
    is cached, and has at most one tag per plan entry and scanned row
    besides the count. *)
Theorem getSummaryTags_shape (g : Globals) (results : list RowObject) (options : Options) :
  (forall plan, cachedSummaryAttributes g = Some plan -> defined plan) ->
  exists tags,
    getSummaryTags dates get g results options = Return tags
    /\ tags <> []
    /\ NoDup tags
    /\ (maxSummaryDocuments options < length results ->
        In (count_tag (length results)) tags)
    /\ (no_plan (cachedSummaryAttributes g) = true -> tags = [count_tag (length results)])
    /\ (forall plan,
          cachedSummaryAttributes g = Some plan ->
          length tags
          <= length plan * Nat.min (maxSummaryDocuments options) (length results) + 1).
Proof.
  intro D. unfold getSummaryTags.
  destruct (no_plan (cachedSummaryAttributes g)) eqn:N.
  - eexists. split; [reflexivity|]. split; [discriminate|].
    split; [repeat constructor; intros []|].
    split; [intros _; left; reflexivity|].
    split; [reflexivity|].
    intros plan E. cbn [length]. lia.
  - destruct (cachedSummaryAttributes g) as [plan|] eqn:C; [|discriminate N].
    destruct (summary_tags_length plan (maxSummaryDocuments options) results (D plan eq_refl))
      as (tags & -> & L).
    cbn [and_then]. eexists. split; [reflexivity|].
    set (all := with_count (maxSummaryDocuments options) results tags).
    assert (A : all <> [] /\ length all <= length tags + 1
                /\ (maxSummaryDocuments options < length results ->
                    In (count_tag (length results)) all)).
    { unfold all, with_count.
      destruct (Nat.ltb_spec (maxSummaryDocuments options) (length results)) as [Lt|Ge].
      - rewrite orb_true_r. rewrite length_app. cbn [length].
        split; [now destruct tags|]. split; [lia|].
        intros _. apply in_or_app. right. left. reflexivity.
      - rewrite orb_false_r. destruct tags as [|t tags']; cbn [length Nat.eqb app].
        + split; [discriminate|]. split; [lia|]. lia.
        + split; [discriminate|]. split; [lia|]. lia. }
    destruct A as (A1 & A2 & A3).
    split.
    { destruct all as [|t rest] eqn:E; [contradiction|].
      unfold unique. cbn [unique_from existsb]. discriminate. }
    split; [apply AttributesFacts.unique_NoDup|].
    split.
    { intro Lt. unfold unique. apply unique_from_In. split; [exact (A3 Lt) | intros []]. }
    split; [discriminate|].
    intros plan' E. inversion E. subst plan'.
    pose proof (unique_from_length all []) as U. unfold unique. lia.
Qed.

Lemma getDocumentTitle_returns (g : Globals) (result : RowObject) :
  title_defined g -> exists t, getDocumentTitle dates get g result = Return t.
Proof.
  unfold title_defined, getDocumentTitle.
  destruct (cachedDocumentTitleAttributes g) as [[|[a|] rest]|]; intro T;
    try contradiction; eauto.
  destruct (AttributesFacts.parseAttribute_returns dates (get result (attribute a))
              (parser a)) as [v ->].
  cbn [and_then]. eauto.
Qed.

Lemma detail_document_labels (plan : Plan) (result : RowObject) :
  defined plan ->
  exists document,
    detail_document dates get plan result = Return document
    /\ length document <= length plan
    /\ forall key value,
         In (key, value) document ->
         exists attributeObj,
           In (Some attributeObj) plan
           /\ key = label attributeObj
           /\ present (get result (attribute attributeObj)) = true.
Proof.
  induction 1 as [|entry rest D _ IH]; cbn [detail_document].
  - exists []. split; [reflexivity|]. split; [apply le_n | intros k v []].
  - destruct entry as [a|]; [|contradiction].
    destruct IH as (document & E & L & K). rewrite E.
    destruct (present (get result (attribute a))) eqn:P.
    + destruct (AttributesFacts.parseAttribute_returns dates (get result (attribute a))
                  (parser a)) as [v ->].
      cbn [and_then]. eexists. split; [reflexivity|].
      split; [cbn [length]; lia|].
      intros k v' [H|H].
      * inversion H. subst k v'. exists a. split; [left; reflexivity|]. split; [reflexivity|].
        exact P.
      * destruct (K k v' H) as (b & Hb & Hk). exists b. split; [right; exact Hb | exact Hk].
    + exists document. split; [reflexivity|]. split; [cbn [length]; lia|].
      intros k v' H. destruct (K k v' H) as (b & Hb & Hk).
      exists b. split; [right; exact Hb | exact Hk].
Qed.

Lemma searchable_lower (document : list (string * string)) :
  toLowerCase (searchable document) = searchable document.
Proof.
  unfold searchable. apply TextLaws.toLowerCase_join_blank.
  apply Forall_forall. intros p H. apply in_map_iff in H as (attr & <- & _).
  apply TextLaws.toLowerCase_fixed.
Qed.

Lemma detail_documents_well_formed (g : Globals) (plan : Plan) (results : list RowObject) :
  defined plan ->
  title_defined g ->
  exists docs,
    detail_documents dates get (getDocumentTitle dates get g) plan results = Return docs
    /\ length docs <= length results
    /\ Forall (well_formed get plan results) docs.
Proof.
  intros D T. induction results as [|result rest IH]; cbn [detail_documents].
  - exists []. split; [reflexivity|]. split; [apply le_n | constructor].
  - destruct (detail_document_labels plan result D) as (document & -> & L & K).
    destruct IH as (docs & E & Ld & F). rewrite E. cbn [and_then].
    assert (F' : Forall (well_formed get plan (result :: rest)) docs).
    { eapply Forall_impl; [|exact F]. intros d (W1 & W2 & W3 & r & Hr & W4).
      repeat split; try assumption. exists r. split; [right; exact Hr | exact W4]. }
    destruct document as [|attr document].
    + exists docs. split; [reflexivity|]. split; [cbn [length]; lia | exact F'].
    + destruct (getDocumentTitle_returns g result T) as [t ->]. cbn [and_then].
      eexists. split; [reflexivity|]. split; [cbn [length]; lia|].
      constructor; [|exact F'].
      unfold well_formed. cbn [attributes resultAsString].
      split; [discriminate|]. split; [exact L|]. split; [reflexivity|].
      exists result. split; [left; reflexivity | exact K].
Qed.

Lemma getDetails_returns (g : Globals) (results : list RowObject) (complete : bool)
    (queryExecutionId : option string) (executionStats : option ExecutionStats) :
  (forall plan, cachedDetailAttributes g = Some plan -> defined plan) ->
  title_defined g ->
  exists details,
    getDetails dates get g results complete queryExecutionId executionStats = Return details
    /\ details_complete details = Some complete
    /\ details_queryExecutionId details = queryExecutionId
    /\ details_executionStats details = executionStats
    /\ match details_results details with
       | RawRows _ => True
       | Documents docs =>
           Forall (fun document => resultAsString document <> None) docs
       end.
Proof.
  intros D T. unfold getDetails.
  destruct (cachedDetailAttributes g) as [[|entry plan]|] eqn:C; cbn [no_plan].
  - eexists. repeat split.
  - destruct (detail_documents_well_formed g (entry :: plan) results (D _ eq_refl) T)
      as (docs & -> & L & F).
    cbn [and_then]. eexists. split; [reflexivity|].
    cbn [details_complete details_queryExecutionId details_executionStats details_results].
    do 3 (split; [reflexivity|]).
    eapply Forall_impl; [|exact F]. intros d (_ & _ & R & _). rewrite R. discriminate.
  - eexists. repeat split.
Qed.

(** X17.  When the cached detail plan has no undefined entry and the
    title plan does not start with one, the detail view is produced for
    any rows, with the completion flag, execution id and statistics it
    was given.  Without a plan it is the rows themselves, shown as
    JSON.  With a plan it is a list of documents, at most one per row:
    each has at least one attribute and at most one per plan entry,
    each key is the label of a plan entry whose column has a value in
    the row, and its search text is the lower-case text of its values. *)
Theorem getDetails_documents (g : Globals) (results : list RowObject) (complete : bool)
    (queryExecutionId : option string) (executionStats : option ExecutionStats) :
  (forall plan, cachedDetailAttributes g = Some plan -> defined plan) ->
  title_defined g ->
  exists details,
    getDetails dates get g results complete queryExecutionId executionStats = Return details
    /\ details_complete details = Some complete
    /\ details_queryExecutionId details = queryExecutionId
    /\ details_executionStats details = executionStats
    /\ match cachedDetailAttributes g with
       | None | Some [] =>
           showAsJson details = true /\ details_results details = RawRows (Some results)
       | Some plan =>
           showAsJson details = false
           /\ exists docs,
                details_results details = Documents docs
                /\ length docs <= length results
                /\ Forall (well_formed get plan results) docs
                /\ Forall (fun document =>
                             exists text,
                               resultAsString document = Some text
                               /\ toLowerCase text = text) docs
       end.
Proof.
  intros D T. unfold getDetails.
  destruct (cachedDetailAttributes g) as [[|entry plan]|] eqn:C; cbn [no_plan].
  - eexists. repeat split.
  - destruct (detail_documents_well_formed g (entry :: plan) results (D _ eq_refl) T)
      as (docs & -> & L & F).
    cbn [and_then]. eexists. split; [reflexivity|].
    cbn [details_complete details_queryExecutionId details_executionStats showAsJson
           details_results].
    do 4 (split; [reflexivity|]).
    exists docs. split; [reflexivity|]. split; [exact L|]. split; [exact F|].
    eapply Forall_impl; [|exact F]. intros d (_ & _ & R & _).
    eexists. split; [exact R | apply searchable_lower].
  - eexists. repeat split.
Qed.

End Libraries.

Lemma getSummaryTags_shape_witness :
  exists tags,
    getSummaryTags Notions.sample Service.column (Notions.cached "a") Notions.three_rows
      (Notions.summary_options "a" 1) = Return tags
    /\ tags <> []
    /\ NoDup tags
    /\ (1 < 3 -> In (count_tag 3) tags)
    /\ (false = true -> tags = [count_tag 3])
    /\ (forall plan,
          cachedSummaryAttributes (Notions.cached "a") = Some plan ->
          length tags <= length plan * Nat.min 1 3 + 1).
Proof.
  apply (getSummaryTags_shape Notions.sample Service.column (Notions.cached "a")
           Notions.three_rows (Notions.summary_options "a" 1)).
  intros plan E. inversion E. repeat constructor. discriminate.
Defined.

Lemma getDetails_documents_witness :
  exists details,
    getDetails Notions.sample Service.column (Notions.cached "a") Notions.three_rows true
      None None = Return details
    /\ details_complete details = Some true
    /\ details_queryExecutionId details = None
    /\ details_executionStats details = None
    /\ showAsJson details = false
    /\ exists docs,
         details_results details = Documents docs
         /\ length docs <= 3
         /\ Forall (well_formed Service.column (processAttributeOption "a")
                      Notions.three_rows) docs
         /\ Forall (fun document =>
                      exists text,
                        resultAsString document = Some text
                        /\ toLowerCase text = text) docs.
Proof.
  apply (getDetails_documents Notions.sample Service.column (Notions.cached "a")
           Notions.three_rows true None None).
  - intros plan E. inversion E. repeat constructor. discriminate.
  - exact I.
Defined.

Lemma split_not_empty (sep : ascii) (s : string) : split sep s <> [].
Proof.
  induction s as [|c r IH]; cbn [split]; [discriminate|].
  destruct (Ascii.eqb c sep); [discriminate|].
  destruct (split sep r); discriminate.
Qed.

Lemma processToken_defined (token : string) :
  processToken token <> None <-> length (split ":" token) <= 3.
Proof.
  unfold processToken. pose proof (split_not_empty ":" token) as N.
  destruct (split ":" token) as [|a [|b [|c [|d l]]]]; cbn [length];
    split; intro H; try discriminate; try lia; try contradiction;
    exfalso; apply H; reflexivity.
Qed.

(** X18.  A plan has one entry for every comma-separated token of the
    option, so it is never empty; it is free of undefined entries
    exactly when every token has at most three colon-separated fields;
    and the parser tag of an entry, when it has one, is in lower case. *)
Theorem processAttributeOption_tokens (attributeOption : string) :
  length (processAttributeOption attributeOption) = length (split "," attributeOption)
  /\ processAttributeOption attributeOption <> []
  /\ (defined (processAttributeOption attributeOption)
      <-> Forall (fun token => length (split ":" token) <= 3) (split "," attributeOption))
  /\ forall entry tag,
       In (Some entry) (processAttributeOption attributeOption) ->
       parser entry = Some tag -> toLowerCase tag = tag.
Proof.
  unfold processAttributeOption, defined.
  split; [apply length_map|].
  split.
  { pose proof (split_not_empty "," attributeOption) as N.
    destruct (split "," attributeOption); [contradiction | discriminate]. }
  split.
  { rewrite Forall_map.
    split; intro F; (eapply Forall_impl; [|exact F]); intros token H;
      now apply processToken_defined. }
  intros entry tag H P. apply in_map_iff in H as (token & E & _).
  unfold processToken in E.
  destruct (split ":" token) as [|a [|b [|c [|d l]]]]; try discriminate E;
    inversion E; subst entry; cbn [parser] in P; try discriminate P.
  inversion P. apply TextLaws.toLowerCase_fixed.
Qed.

End AttributesLaws.

(** ** Laws of the lookup entry points *)

Module LookupLaws.

Import Data Async Attributes Lookup Notions Laws.
Local Open Scope async_scope.

Lemma option_differs_same (a : option string) : option_differs a a = false.
Proof. destruct a as [x|]; cbn; [now rewrite String.eqb_refl | reflexivity]. Qed.

Lemma same_connection_refl (options : Options) : same_connection options options = true.
Proof.
  unfold same_connection. now rewrite !String.eqb_refl, option_differs_same.
Qed.

Lemma option_differs_false (a b : option string) : option_differs a b = false <-> a = b.
Proof.
  destruct a as [x|], b as [y|]; cbn; split; intro H; try discriminate; try reflexivity.
  - apply negb_false_iff, String.eqb_eq in H. now subst.
  - inversion H. now rewrite String.eqb_refl.
Qed.

Lemma same_connection_fields (a b : Options) :
  same_connection a b = true
  <-> region a = region b /\ endpoint a = endpoint b
      /\ accessKeyId a = accessKeyId b /\ secretAccessKey a = secretAccessKey b.
Proof.
  unfold same_connection.
  rewrite !andb_true_iff, negb_true_iff, !String.eqb_eq, option_differs_false. tauto.
Qed.

Lemma same_connection_trans (a b c : Options) :
  same_connection a b = true -> same_connection b c = true -> same_connection a c = true.
Proof.
  rewrite !same_connection_fields. intros (A1 & A2 & A3 & A4) (B1 & B2 & B3 & B4).
  repeat split; congruence.
Qed.

Lemma optionsHaveChanged_same (options : Options) (g : Globals) (o : Options) :
  originalOptions g = Some o ->
  optionsHaveChanged options g
  = if same_connection o options then (false, g)
    else (true, set_client g (Some options) (athenaClient g)).
Proof.
  intro E. unfold optionsHaveChanged, same_connection. rewrite E.
  destruct (String.eqb (region o) (region options)); [|reflexivity].
  destruct (option_differs (endpoint o) (endpoint options)); [reflexivity|].
  destruct (String.eqb (accessKeyId o) (accessKeyId options)); [|reflexivity].
  destruct (String.eqb (secretAccessKey o) (secretAccessKey options)); reflexivity.
Qed.

(** X19.  The connection options count as changed exactly on the first
    call and when the region, the endpoint or one of the two keys
    differs from the remembered ones; a call that reports a change
    remembers the new options, so the same options asked again right
    after count as unchanged, and a call that reports none changes no
    variable. *)
Theorem optionsHaveChanged_connection (options : Options) (g : Globals) :
  fst (optionsHaveChanged options g)
  = match originalOptions g with
    | None => true
    | Some o => negb (same_connection o options)
    end
  /\ (fst (optionsHaveChanged options g) = false -> snd (optionsHaveChanged options g) = g)
  /\ (fst (optionsHaveChanged options g) = true ->
      originalOptions (snd (optionsHaveChanged options g)) = Some options)
  /\ optionsHaveChanged options (snd (optionsHaveChanged options g))
     = (false, snd (optionsHaveChanged options g)).
Proof.
  destruct (originalOptions g) as [o|] eqn:E.
  - rewrite (optionsHaveChanged_same options g o E).
    destruct (same_connection o options) eqn:S; cbn [fst snd negb].
    + split; [reflexivity|]. split; [reflexivity|]. split; [discriminate|].
      now rewrite (optionsHaveChanged_same options g o E), S.
    + split; [reflexivity|]. split; [discriminate|]. split; [reflexivity|].
      rewrite (optionsHaveChanged_same options
                 (set_client g (Some options) (athenaClient g)) options eq_refl).
      now rewrite same_connection_refl.
  - assert (U : optionsHaveChanged options g
                = (true, set_client g (Some options) (athenaClient g))).
    { unfold optionsHaveChanged. now rewrite E. }
    rewrite U. cbn [fst snd].
    split; [reflexivity|]. split; [discriminate|]. split; [reflexivity|].
    rewrite (optionsHaveChanged_same options
               (set_client g (Some options) (athenaClient g)) options eq_refl).
    now rewrite same_connection_refl.
Qed.

Section Client.

Variable rstate : Type.
Variable send : forall R : Type, Command R -> rstate -> completion R * rstate.
Variable basename : string.

(** The invocation first brings the variables up to date, then turns to
    the prepared statement when the template has a placeholder. *)
Lemma prepare_ready (options : Options) (w : World rstate) :
  prepare send basename options w
  = if includes "?" (query options)
    then Statements.ensurePreparedStatement send basename (query options) options
           (with_vars w (ready options (vars w)))
    else {| result := Return (None, options);
            final := with_vars w (ready options (vars w));
            trace := [] |}.
Proof.
  unfold prepare, ready, with_vars, bind, read_vars, write_vars, ret.
  cbn [result final trace vars remote now].
  destruct (Statements.is_null (originalOptions (vars w)));
    cbn [result final trace vars remote now];
    destruct (optionsHaveChanged options _) as [changed g];
    destruct (changed || negb (athenaClient g));
    cbn [result final trace vars remote now app];
    destruct (includes "?" (query options));
    cbn [result final trace vars remote now app];
    try reflexivity;
    match goal with
    | |- context [Statements.ensurePreparedStatement ?s ?b ?q ?o ?w'] =>
        destruct (Statements.ensurePreparedStatement s b q o w') as [res fin tr];
        destruct res; reflexivity
    end.
Qed.

Lemma ready_connected (options : Options) (g : Globals) : connected options (ready options g).
Proof.
  unfold ready.
  set (g1 := if Statements.is_null (originalOptions g)
             then set_client g (Some options) (athenaClient g) else g).
  assert (E : exists o, originalOptions g1 = Some o).
  { unfold g1. destruct (originalOptions g) as [o|] eqn:O; cbn [Statements.is_null].
    - exists o. exact O.
    - exists options. reflexivity. }
  destruct E as (o & E). rewrite (optionsHaveChanged_same options g1 o E).
  assert (K : forall h, connected options h ->
                        connected options (setCachedDisplayAttributes options h)).
  { intros h (A & o' & B & C). unfold setCachedDisplayAttributes.
    destruct (refresh _ _ _), (refresh _ _ _), (refresh _ _ _).
    split; [exact A|]. exists o'. split; [exact B | exact C]. }
  destruct (same_connection o options) eqn:S; cbn [orb]; apply K.
  - destruct (athenaClient g1) eqn:A; cbn [negb].
    + split; [exact A|]. exists o. split; [exact E | exact S].
    + unfold renew_client. split; [reflexivity|]. exists o. split; [exact E | exact S].
  - unfold renew_client. split; [reflexivity|]. exists options.
    split; [reflexivity | apply same_connection_refl].
Qed.

Lemma ready_again (options options' : Options) (g : Globals) :
  connected options g ->
  same_connection options options' = true ->
  ready options' g = setCachedDisplayAttributes options' g.
Proof.
  intros (A & o & E & S) S'. unfold ready. rewrite E. cbn [Statements.is_null].
  rewrite (optionsHaveChanged_same options' g o E).
  pose proof (same_connection_trans _ _ _ S S') as T.
  rewrite T, A. reflexivity.
Qed.

Lemma ensure_keeps_connection (options connection : Options) (query : string)
    (w : World rstate) :
  connected connection (vars w) ->
  connected connection
    (vars (final (Statements.ensurePreparedStatement send basename query options w))).
Proof.
  intro C. destruct (bound_to (vars w) (canonical query)) eqn:B.
  - now rewrite (StatementsFacts.ensure_hit rstate send basename query options w B).
  - destruct (StatementsFacts.ensure_miss rstate send basename query options w B)
      as (_ & _ & M).
    destruct (fst _) in M; destruct M as [_ ->]; exact C.
Qed.

Lemma bound_to_cached (options : Options) (g : Globals) (text : string) :
  bound_to (setCachedDisplayAttributes options g) text = bound_to g text.
Proof.
  unfold setCachedDisplayAttributes.
  destruct (refresh _ _ _), (refresh _ _ _), (refresh _ _ _). reflexivity.
Qed.

Lemma statement_cached (options : Options) (g : Globals) :
  currentPreparedStatement (setCachedDisplayAttributes options g)
  = currentPreparedStatement g.
Proof.
  unfold setCachedDisplayAttributes.
  destruct (refresh _ _ _), (refresh _ _ _), (refresh _ _ _). reflexivity.
Qed.

Section Libraries.

Variable dates : DateLibrary.
Variable get : RowObject -> string -> option string.
Variable floatText : string -> string.

(** X20.  For a template without placeholder the invocation sends
    nothing before its tasks and prepares no statement, and the promise
    of the lookup is never rejected: the callback is called, with what
    the tasks, built without statement name, settle to. *)
Theorem doLookup_plain_template (batch : Batch rstate) (entities : list Entity)
    (options : Options) (w : World rstate) :
  includes "?" (query options) = false ->
  trace (prepare send basename options w) = []
  /\ result (prepare send basename options w) = Return (None, options)
  /\ remote (final (prepare send basename options w)) = remote w
  /\ exists callback,
       result (doLookup dates get floatText send basename batch entities options w)
       = Return callback
       /\ result (fan_out batch
                    (map (searchTask dates get floatText send options None) entities)
                    (final (prepare send basename options w)))
          = Return callback.
Proof.
  intro P. rewrite prepare_ready, P. cbn [result final trace with_vars remote].
  do 3 (split; [reflexivity|]).
  assert (F : forall tasks w',
             exists callback, result (fan_out batch tasks w') = Return callback).
  { intros tasks w'. unfold fan_out, catch, bind, parallelLimit, ret.
    cbn [result final trace].
    destruct (first_failure _ _ _ _) as [[t e]|]; eexists; reflexivity. }
  unfold doLookup, bind. rewrite prepare_ready, P.
  destruct (F (map (searchTask dates get floatText send options None) entities)
              (with_vars w (ready options (vars w)))) as (callback & R).
  destruct (fan_out batch _ _) as [res fin tr]. cbn [result final trace] in *.
  subst res. exists callback. split; reflexivity.
Qed.

Lemma canonical_plain (query : string) :
  includes "?" query = false -> canonical query = query.
Proof.
  intro F. unfold canonical. rewrite TypeHintsFacts.parse_spec. cbn [TypeHints.query].
  unfold TypeHints.spec_canonical. rewrite (TypeHintsFacts.pieces_free query F).
  cbn [fst snd map TypeHints.glue].
  clear F. induction query as [|c r IH]; [reflexivity|]. cbn [append]. now rewrite IH.
Qed.

Lemma ensure_options (query : string) (options : Options) (w : World rstate)
    (handle : option string) (o : Options) :
  result (Statements.ensurePreparedStatement send basename query options w)
  = Return (handle, o) ->
  o = hinted query options.
Proof.
  intro R. destruct (bound_to (vars w) (canonical query)) eqn:B.
  - rewrite (StatementsFacts.ensure_hit rstate send basename query options w B) in R.
    now inversion R.
  - destruct (StatementsFacts.ensure_miss rstate send basename query options w B)
      as (_ & _ & M).
    destruct (fst _) in M; destruct M as [M _]; rewrite M in R; [|discriminate R].
    now inversion R.
Qed.

(** X21.  The earlier revision prepares a statement for a template
    without placeholder as well: unless the cache already holds the
    template, every task asks whether the statement exists and writes
    it, with the template as its text, and the text it submits is
    EXECUTE followed by the cached statement name.  The resumable
    revision sends nothing for such a template and submits the template
    itself. *)
Theorem createQuery_earlier_plain_template (entity : Entity) (options : Options)
    (w : World rstate) :
  includes "?" (query options) = false ->
  let run := createQuery_earlier floatText send basename entity options w in
  (if bound_to (vars w) (query options) then trace run = []
   else protocol basename (query options) (Statements.workGroup_or_primary options)
          (trace run))
  /\ (forall queryParams,
        result run = Return queryParams ->
        bound_to (vars (final run)) (query options) = true
        /\ QueryString queryParams
           = ("EXECUTE " ++ name_text (currentPreparedStatement (vars (final run))))%string)
  /\ createQuery floatText entity options None
     = Return (queryParams_of (query options) options).
Proof.
  intro P. cbv zeta.
  pose proof (canonical_plain (query options) P) as Q.
  pose proof (ensure_options (query options) options w) as O.
  pose proof (StatementsFacts.ensure_binds rstate send basename (query options) options w)
    as E.
  assert (T : if bound_to (vars w) (query options)
              then trace (Statements.ensurePreparedStatement send basename (query options)
                            options w) = []
              else protocol basename (query options)
                     (Statements.workGroup_or_primary options)
                     (trace (Statements.ensurePreparedStatement send basename
                               (query options) options w))).
  { destruct (bound_to (vars w) (query options)) eqn:B; rewrite <- Q in B.
    - now rewrite (StatementsFacts.ensure_hit rstate send basename (query options) options
                     w B).
    - destruct (StatementsFacts.ensure_miss rstate send basename (query options) options
                  w B) as (T & _).
      rewrite Q in T. rewrite T. unfold protocol.
      destruct (returns (fst (send _ (GetPreparedStatementCommand _ _) (remote w))));
        [left | right]; reflexivity. }
  rewrite Q in E. unfold handle_of in E.
  unfold createQuery_earlier, bind.
  destruct (Statements.ensurePreparedStatement send basename (query options) options w)
    as [[[h o]|e] f t]; cbn [result final trace] in *.
  - rewrite (O h o eq_refl). cbn [query hinted set_typeHints]. rewrite P.
    cbn [ret result final trace]. rewrite app_nil_r.
    split; [exact T|]. split; [|unfold createQuery; now rewrite P].
    intros queryParams R. inversion R.
    destruct (E eq_refl) as [B H]. inversion H as [Hh].
    split; [exact B | reflexivity].
  - split; [exact T|]. split; [intros queryParams R; discriminate R|].
    unfold createQuery. now rewrite P.
Qed.

(** The documents of a formatted result. *)
Lemma formatQueryResult_documents (g : Globals) (queryResult : QueryResult)
    (options : Options) :
  (forall plan, cachedSummaryAttributes g = Some plan -> defined plan) ->
  (forall plan, cachedDetailAttributes g = Some plan -> defined plan) ->
  title_defined g ->
  exists formatted,
    formatQueryResult dates get g queryResult options = Return formatted
    /\ (complete queryResult = true ->
        match details_results (details formatted) with
        | RawRows _ => True
        | Documents docs => Forall (fun document => resultAsString document <> None) docs
        end)
    /\ (complete queryResult = false ->
        exists document,
          details_results (details formatted) = Documents [document]
          /\ resultAsString document = None).
Proof.
  intros S D T. unfold formatQueryResult.
  destruct (complete queryResult) eqn:C; cbn [negb].
  - destruct (no_rows (results queryResult)) eqn:N.
    + eexists. split; [reflexivity|]. cbn [details details_results].
      split; [intros _; constructor | discriminate].
    + destruct (AttributesLaws.getSummaryTags_returns dates get g
                  (rows_of (results queryResult)) options S) as (tags & -> & Ne).
      destruct (AttributesLaws.getDetails_returns dates get g
                  (rows_of (results queryResult)) true
                  (Some (queryExecutionId queryResult)) (executionStats queryResult) D T)
        as (dt & -> & D1 & D2 & D3 & D4).
      cbn [and_then]. eexists. split; [reflexivity|]. cbn [details].
      split; [intros _; exact D4 | discriminate].
  - eexists. split; [reflexivity|]. cbn [details details_results].
    split; [discriminate|]. intros _. eexists. split; reflexivity.
Qed.

(** X22.  When no cached plan has an undefined entry where it is
    read, a query result is always formatted: the summary is never
    empty and the details carry the completion flag, the execution id
    and the statistics of the result.  A result that is not complete
    gives the summary Query Running and one status document, which
    names the execution id and has no search text; a complete result
    without rows gives the summary No results and no document; and the
    documents of a complete result with rows all have a search text. *)
Theorem formatQueryResult_shape (g : Globals) (queryResult : QueryResult) (options : Options) :
  (forall plan, cachedSummaryAttributes g = Some plan -> defined plan) ->
  (forall plan, cachedDetailAttributes g = Some plan -> defined plan) ->
  title_defined g ->
  exists formatted,
    formatQueryResult dates get g queryResult options = Return formatted
    /\ summary formatted <> []
    /\ details_complete (details formatted) = Some (complete queryResult)
    /\ details_queryExecutionId (details formatted) = Some (queryExecutionId queryResult)
    /\ details_executionStats (details formatted) = executionStats queryResult
    /\ (complete queryResult = false ->
        summary formatted = ["Query Running"]
        /\ exists document,
             details_results (details formatted) = Documents [document]
             /\ resultAsString document = None
             /\ In ("Query Execution ID", queryExecutionId queryResult)
                  (attributes document))
    /\ (complete queryResult = true ->
        match details_results (details formatted) with
        | RawRows _ => True
        | Documents docs => Forall (fun document => resultAsString document <> None) docs
        end
        /\ (no_rows (results queryResult) = true ->
            summary formatted = ["No results"]
            /\ details_results (details formatted) = Documents [])).
Proof.
  intros S D T. unfold formatQueryResult.
  destruct (complete queryResult) eqn:C; cbn [negb].
  - destruct (no_rows (results queryResult)) eqn:N.
    + eexists. split; [reflexivity|]. cbn [summary details details_complete
        details_queryExecutionId details_executionStats details_results].
      split; [discriminate|]. do 3 (split; [reflexivity|]).
      split; [discriminate|]. intros _. split; [constructor|].
      intros _. split; reflexivity.
    + destruct (AttributesLaws.getSummaryTags_returns dates get g
                  (rows_of (results queryResult)) options S) as (tags & -> & Ne).
      destruct (AttributesLaws.getDetails_returns dates get g
                  (rows_of (results queryResult)) true
                  (Some (queryExecutionId queryResult)) (executionStats queryResult) D T)
        as (dt & -> & D1 & D2 & D3 & D4).
      cbn [and_then]. eexists. split; [reflexivity|]. cbn [summary details].
      split; [exact Ne|]. split; [exact D1|]. split; [exact D2|]. split; [exact D3|].
      split; [discriminate|]. intros _. split; [exact D4 | discriminate].
  - eexists. split; [reflexivity|]. cbn [summary details details_complete
      details_queryExecutionId details_executionStats details_results].
    split; [discriminate|]. do 3 (split; [reflexivity|]).
    split; [|discriminate]. intros _. split; [reflexivity|].
    eexists. split; [reflexivity|]. cbn [resultAsString attributes].
    split; [reflexivity|]. unfold running_attributes. right. left. reflexivity.
Qed.

Lemma catch_after_update {A B : Type} (m : Async rstate A) (k : A -> Async rstate B)
    (handler : Error -> Async rstate B) (w w1 : World rstate) (a : A) :
  m w = {| result := Return a; final := w1; trace := [] |} ->
  catch (bind m k) handler w = catch (k a) handler w1.
Proof.
  intro H. unfold catch, bind. rewrite H.
  destruct (k a w1) as [[r|e] f t]; cbn [app]; [reflexivity|].
  destruct (handler e f). reflexivity.
Qed.

(** The status check of the resumption entry point with its callback. *)
Lemma onMessage_check (queryExecutionId : string) (options : Options) (w : World rstate) :
  let run :=
    catch
      (queryResult <-
         Execution.checkQueryStatusAndGetResults send queryExecutionId options ;;
       g <- read_vars ;;
       responseData <- lift (formatQueryResult dates get g queryResult options) ;;
       ret (CallbackPayload responseData))
      (fun error => ret (CallbackError (errorToPojo error "Error checking Athena query status")))
      w in
  (exists callback, result run = Return callback)
  /\ count is_submission (trace run) = 0
  /\ count is_sleep (trace run) = 0
  /\ count is_status_check (trace run) <= 1
  /\ now (final run) = now w
  /\ vars (final run) = vars w.
Proof.
  cbv zeta.
  destruct (ExecutionLaws.check_effects rstate send queryExecutionId options w)
    as (Tr & V & N).
  cbv zeta in Tr, V, N.
  unfold catch, bind, read_vars, lift, ret.
  destruct (Execution.checkQueryStatusAndGetResults send queryExecutionId options w)
    as [res fin tr].
  cbn [result final trace vars now] in Tr, V, N.
  assert (Cn : count is_submission tr = 0 /\ count is_sleep tr = 0
               /\ count is_status_check tr <= 1).
  { destruct Tr as [-> | ->]; unfold count; cbn; repeat split; lia. }
  destruct res as [queryResult|e]; cbn [result final trace vars now app].
  - destruct (formatQueryResult dates get (vars fin) queryResult options)
      as [formatted|e]; cbn [result final trace vars now app]; rewrite ?app_nil_r;
      (split; [eauto|]); (repeat split; try apply Cn; congruence).
  - rewrite ?app_nil_r. split; [eauto|]. repeat split; try apply Cn; congruence.
Qed.

(** X23.  The resumption entry point always calls the callback: its
    promise is never rejected.  It never submits a query and never
    sleeps, asks for the status at most once, and leaves the clock and
    the statement cache as they were.  A message with another action,
    or without an execution id, is answered with an error message and
    nothing is sent. *)
Theorem onMessage_always_answers (message : Message) (options : Options) (w : World rstate) :
  let run := onMessage dates get send message options w in
  (exists callback, result run = Return callback)
  /\ count is_submission (trace run) = 0
  /\ count is_sleep (trace run) = 0
  /\ count is_status_check (trace run) <= 1
  /\ now (final run) = now w
  /\ currentPreparedStatement (vars (final run)) = currentPreparedStatement (vars w)
  /\ currentQuery (vars (final run)) = currentQuery (vars w)
  /\ (action message <> "CHECK_QUERY_STATUS" ->
      trace run = []
      /\ result run = Return (CallbackMessage ("Unknown action: " ++ action message)))
  /\ (action message = "CHECK_QUERY_STATUS" ->
      message_queryExecutionId message = None
      \/ message_queryExecutionId message = Some EmptyString ->
      trace run = []
      /\ result run = Return (CallbackMessage "Missing queryExecutionId in message")).
Proof.
  cbv zeta. unfold onMessage.
  destruct (String.eqb_spec (action message) "CHECK_QUERY_STATUS") as [A|A].
  2:{ cbn [ret result final trace]. split; [eauto|].
      do 6 (split; [reflexivity || apply Nat.le_0_l|]).
      split; [intros _; split; reflexivity | intro; contradiction]. }
  assert (M : let run := catch (ret (CallbackMessage "Missing queryExecutionId in message"))
                           (fun error =>
                              ret (CallbackError
                                     (errorToPojo error
                                        "Error checking Athena query status")))
                           w in
              (exists callback : Callback Formatted, result run = Return callback)
              /\ count is_submission (trace run) = 0
              /\ count is_sleep (trace run) = 0
              /\ count is_status_check (trace run) <= 1
              /\ now (final run) = now w
              /\ currentPreparedStatement (vars (final run))
                 = currentPreparedStatement (vars w)
              /\ currentQuery (vars (final run)) = currentQuery (vars w)
              /\ trace run = []
              /\ result run = Return (CallbackMessage "Missing queryExecutionId in message")).
  { cbv zeta. unfold catch, ret. cbn [result final trace].
    split; [eauto|]. do 6 (split; [reflexivity || apply Nat.le_0_l|]). split; reflexivity. }
  cbv zeta in M.
  destruct (message_queryExecutionId message) as [id|] eqn:I.
  2:{ destruct M as (M1 & M2 & M3 & M4 & M5 & M6 & M7 & M8 & M9).
      do 7 (split; [assumption|]).
      split; [intro; contradiction | intros _ _; split; assumption]. }
  destruct id as [|c id]; cbn [truthy negb].
  { destruct M as (M1 & M2 & M3 & M4 & M5 & M6 & M7 & M8 & M9).
    do 7 (split; [assumption|]).
    split; [intro; contradiction | intros _ _; split; assumption]. }
  clear M.
  destruct (optionsHaveChanged options (vars w)) as [changed g] eqn:O.
  assert (G : currentPreparedStatement g = currentPreparedStatement (vars w)
              /\ currentQuery g = currentQuery (vars w)).
  { unfold optionsHaveChanged in O.
    destruct (match originalOptions (vars w) with None => true | Some _ => _ end);
      inversion O; split; reflexivity. }
  set (g1 := if changed || negb (athenaClient g) then renew_client false g else g).
  set (g2 := setCachedDisplayAttributes options g1).
  assert (G2 : currentPreparedStatement g2 = currentPreparedStatement (vars w)
               /\ currentQuery g2 = currentQuery (vars w)).
  { unfold g2, g1, setCachedDisplayAttributes.
    destruct (refresh _ _ _), (refresh _ _ _), (refresh _ _ _).
    destruct (changed || negb (athenaClient g)); exact G. }
  rewrite (catch_after_update _ _ _ w w (vars w) eq_refl).
  rewrite (catch_after_update _ _ _ w (with_vars w g1) tt).
  2:{ rewrite O. unfold g1, with_vars, write_vars.
      destruct (changed || negb (athenaClient g)); reflexivity. }
  rewrite (catch_after_update _ _ _ (with_vars w g1) (with_vars w g1) g1 eq_refl).
  rewrite (catch_after_update _ _ _ (with_vars w g1) (with_vars w g2) tt eq_refl).
  destruct (onMessage_check (String c id) options (with_vars w g2))
    as (K1 & K2 & K3 & K4 & K5 & K6).
  cbv zeta in K1, K2, K3, K4, K5, K6.
  do 4 (split; [assumption|]).
  split; [exact K5|]. rewrite K6. cbn [vars with_vars].
  split; [apply G2|]. split; [apply G2|].
  split; [intro; contradiction|].
  intros _ [H|H]; discriminate H.
Qed.

End Libraries.

(** X24.  Once an invocation has prepared the statement of a template,
    a later invocation with the same connection options and a template
    of the same canonical text sends nothing to prepare it: it is
    served from the cache and gets the same statement name. *)
Theorem prepare_served_from_cache (options options' : Options) (w later : World rstate)
    (handle : option string) (hinted_options : Options) :
  includes "?" (query options) = true ->
  result (prepare send basename options w) = Return (handle, hinted_options) ->
  same_connection options options' = true ->
  includes "?" (query options') = true ->
  canonical (query options') = canonical (query options) ->
  vars later = vars (final (prepare send basename options w)) ->
  trace (prepare send basename options' later) = []
  /\ result (prepare send basename options' later)
     = Return (handle, hinted (query options') options')
  /\ remote (final (prepare send basename options' later)) = remote later.
Proof.
  intros P R S P' Q L.
  rewrite (prepare_ready options w), P in R, L.
  set (w0 := with_vars w (ready options (vars w))) in *.
  set (run := Statements.ensurePreparedStatement send basename (query options) options w0)
    in *.
  assert (Rt : returns (result run) = true) by now rewrite R.
  destruct (StatementsFacts.ensure_binds rstate send basename (query options) options w0 Rt)
    as [B H]. fold run in B, H.
  unfold handle_of in H. rewrite R in H. inversion H as [Hh]. clear H.
  assert (C : connected options (vars (final run))).
  { apply ensure_keeps_connection. apply ready_connected. }
  rewrite prepare_ready, P', L.
  rewrite (ready_again options options' (vars (final run)) C S).
  assert (B' : bound_to (vars (with_vars later
                                 (setCachedDisplayAttributes options' (vars (final run)))))
                 (canonical (query options')) = true).
  { cbn [vars with_vars]. now rewrite bound_to_cached, Q. }
  rewrite (StatementsFacts.ensure_hit rstate send basename (query options') options' _ B').
  cbn [result final trace vars remote with_vars].
  now rewrite statement_cached.
Qed.

(** X25.  When the client is missing or the connection options differ
    from the remembered ones, the invocation forgets the cached
    statement: for a template with placeholders it asks the service
    whether the statement exists and writes it again, whatever the
    cache held. *)
Theorem prepare_after_connection_change (options : Options) (w : World rstate) :
  includes "?" (query options) = true ->
  athenaClient (vars w) = false
  \/ (exists o, originalOptions (vars w) = Some o /\ same_connection o options = false) ->
  protocol basename (canonical (query options)) (Statements.workGroup_or_primary options)
    (trace (prepare send basename options w)).
Proof.
  intros P H. rewrite prepare_ready, P.
  assert (N : currentPreparedStatement (ready options (vars w)) = None).
  { unfold ready. set (g := vars w) in *.
    destruct (originalOptions g) as [o|] eqn:O; cbn [Statements.is_null].
    - rewrite (optionsHaveChanged_same options g o O).
      destruct (same_connection o options) eqn:S.
      + destruct H as [A | (o' & E & S')]; [|congruence].
        rewrite A. cbn [negb orb]. now rewrite statement_cached.
      + cbn [orb]. now rewrite statement_cached.
    - destruct H as [A | (o' & E & _)]; [|discriminate E].
      rewrite (optionsHaveChanged_same options
                 (set_client g (Some options) (athenaClient g)) options eq_refl).
      rewrite same_connection_refl. cbn [athenaClient set_client]. rewrite A.
      cbn [negb orb]. now rewrite statement_cached. }
  assert (B : bound_to (vars (with_vars w (ready options (vars w))))
                (canonical (query options)) = false).
  { unfold bound_to. cbn [vars with_vars]. rewrite N. cbn. apply andb_false_r. }
  destruct (StatementsFacts.ensure_miss rstate send basename (query options) options _ B)
    as (T & _).
  rewrite T. unfold protocol.
  destruct (returns _); [left | right]; reflexivity.
Qed.

End Client.

Lemma doLookup_plain_template_witness :
  trace (prepare Service.send "athena" sample_options (Service.world quick_service)) = []
  /\ result (prepare Service.send "athena" sample_options (Service.world quick_service))
     = Return (None, sample_options).
Proof.
  destruct (doLookup_plain_template Service.Service Service.send "athena" sample
              Service.column (fun s => s) plain_batch two_entities sample_options
              (Service.world quick_service) eq_refl) as (T & R & _).
  split; [exact T | exact R].
Defined.

Lemma prepare_served_from_cache_witness :
  trace (prepare Service.send "athena" port_options
           (final (prepare Service.send "athena" port_options
                     (Service.world Service.idle)))) = [].
Proof.
  apply (prepare_served_from_cache Service.Service Service.send "athena" port_options
           port_options (Service.world Service.idle)
           (final (prepare Service.send "athena" port_options (Service.world Service.idle)))
           (Some (Statements.statementName "athena"))
           (hinted (query port_options) port_options));
    reflexivity.
Defined.

Lemma prepare_after_connection_change_witness :
  protocol "athena" (canonical (query port_options)) "primary"
    (trace (prepare Service.send "athena" port_options (Service.world Service.idle))).
Proof.
  apply (prepare_after_connection_change Service.Service Service.send "athena" port_options
           (Service.world Service.idle) eq_refl).
  left. reflexivity.
Defined.

Lemma formatQueryResult_shape_witness :
  exists formatted,
    formatQueryResult sample Service.column (cached "a")
      {| results := Some three_rows; complete := true; queryExecutionId := "execution-1";
         executionStats := None |} (summary_options "a" 3) = Return formatted
    /\ summary formatted <> [].
Proof.
  destruct (formatQueryResult_shape sample Service.column (cached "a")
              {| results := Some three_rows; complete := true;
                 queryExecutionId := "execution-1"; executionStats := None |}
              (summary_options "a" 3)) as (formatted & R & N & _).
  - intros plan E. inversion E. repeat constructor. discriminate.
  - intros plan E. inversion E. repeat constructor. discriminate.
  - exact I.
  - exists formatted. split; [exact R | exact N].
Defined.

Lemma createQuery_earlier_plain_template_witness :
  protocol "athena" "SELECT 1" "primary"
    (trace (createQuery_earlier (fun s => s) Service.send "athena" {| value := "10.0.0.1" |}
              sample_options (Service.world Service.idle))).
Proof.
  destruct (createQuery_earlier_plain_template Service.Service Service.send "athena"
              (fun s => s) {| value := "10.0.0.1" |} sample_options
              (Service.world Service.idle) eq_refl) as (T & _).
  exact T.
Defined.

End LookupLaws.

(** ** Laws of the option validation *)

Module ValidationLaws.

Import Validation.

(** X26.  The validator reports no error exactly when both keys are
    texts with a character that is not a blank and the query is a text
    that is not empty; a query made of blanks only passes.  The errors
    come in the order access key, secret key, query, one at most for
    each. *)
Theorem validateOptions_accepts (userOptions : UserOptions) :
  (validateOptions userOptions = []
   <-> (exists key, accessKeyId_value userOptions = Some key /\ trim key <> EmptyString)
       /\ (exists secret,
             secretAccessKey_value userOptions = Some secret /\ trim secret <> EmptyString)
       /\ (exists query, query_value userOptions = Some query /\ query <> EmptyString))
  /\ map fst (validateOptions userOptions)
     = filter (fun key =>
                 if String.eqb key "accessKeyId"
                 then missing_or_blank (accessKeyId_value userOptions)
                 else if String.eqb key "secretAccessKey"
                 then missing_or_blank (secretAccessKey_value userOptions)
                 else missing_or_empty (query_value userOptions))
         ["accessKeyId"; "secretAccessKey"; "query"].
Proof.
  assert (B : forall v, missing_or_blank v = false
                        <-> exists s, v = Some s /\ trim s <> EmptyString).
  { intros [s|]; cbn; split.
    - intro H. exists s. split; [reflexivity|]. destruct (trim s); [discriminate H|discriminate].
    - intros (s' & E & N). inversion E. subst s'. destruct (trim s); [contradiction|reflexivity].
    - discriminate.
    - intros (s' & E & _). discriminate E. }
  assert (Q : forall v, missing_or_empty v = false
                        <-> exists s, v = Some s /\ s <> EmptyString).
  { intros [s|]; cbn; split.
    - intro H. exists s. split; [reflexivity|]. destruct s; [discriminate H|discriminate].
    - intros (s' & E & N). inversion E. subst s'. destruct s; [contradiction|reflexivity].
    - discriminate.
    - intros (s' & E & _). discriminate E. }
  unfold validateOptions. rewrite <- !B, <- Q.
  destruct (missing_or_blank (accessKeyId_value userOptions)),
    (missing_or_blank (secretAccessKey_value userOptions)),
    (missing_or_empty (query_value userOptions)); cbn;
    (split; [split; [intro H; try discriminate H; repeat split
                    | intros (H1 & H2 & H3); try discriminate; reflexivity]
            | reflexivity]).
Qed.

End ValidationLaws.

(** ** Laws of the paging component *)

Module ComponentLaws.

Import Attributes Component Laws.
Local Open Scope Z_scope.

Lemma firstn_add {A} (a b : nat) (l : list A) :
  firstn (a + b) l = firstn a l ++ firstn b (skipn a l).
Proof.
  revert l. induction a as [|a IH]; intro l; [reflexivity|].
  destruct l as [|x l]; cbn [Nat.add firstn skipn app].
  - now rewrite firstn_nil.
  - now rewrite IH.
Qed.

Lemma firstn_min_length {A} (n : nat) (l : list A) :
  firstn (Nat.min n (length l)) l = firstn n l.
Proof.
  destruct (Nat.le_ge_cases n (length l)) as [H|H].
  - now rewrite Nat.min_l.
  - rewrite Nat.min_r by exact H. now rewrite !firstn_all2 by lia.
Qed.

Section Entries.

Variable Entry : Type.
Variable resultAsString : Entry -> option string.

(** A page, as a slice of the list. *)
Lemma page_slice (f : string) (k : nat) (filtered : list Entry) :
  pagedFilteredData {| filterValue := f; currentPage := Z.of_nat (S k) |} filtered
  = firstn 5 (skipn (5 * k) filtered).
Proof.
  unfold pagedFilteredData, slice, relative, pageSize. cbn [currentPage].
  set (n := length filtered).
  destruct (Z.ltb_spec ((Z.of_nat (S k) - 1) * 5) 0) as [L|_]; [lia|].
  destruct (Z.ltb_spec ((Z.of_nat (S k) - 1) * 5 + 5) 0) as [L|_]; [lia|].
  destruct (Nat.le_gt_cases (5 * k) n) as [H|H].
  - replace (Z.to_nat (Z.min ((Z.of_nat (S k) - 1) * 5) (Z.of_nat n))) with (5 * k)%nat by lia.
    replace (Z.to_nat (Z.min ((Z.of_nat (S k) - 1) * 5 + 5) (Z.of_nat n)
                       - Z.min ((Z.of_nat (S k) - 1) * 5) (Z.of_nat n)))
      with (Nat.min 5 (length (skipn (5 * k) filtered)))
      by (rewrite length_skipn; fold n; lia).
    apply firstn_min_length.
  - replace (Z.to_nat (Z.min ((Z.of_nat (S k) - 1) * 5) (Z.of_nat n))) with n by lia.
    unfold n. rewrite !skipn_all2 by lia. now rewrite !firstn_nil.
Qed.

Lemma pages_concat (filtered : list Entry) (n : nat) :
  concat (map (fun k => firstn 5 (skipn (5 * k) filtered)) (seq 0 n))
  = firstn (5 * n) filtered.
Proof.
  induction n as [|n IH]; [reflexivity|].
  rewrite seq_S, map_app, concat_app, IH. cbn [Nat.add map concat].
  rewrite app_nil_r. replace (5 * S n)%nat with (5 * n + 5)%nat by lia.
  now rewrite firstn_add.
Qed.

(** X27.  The pages of a list, taken in order, give the list back:
    every entry is on exactly one page.  Every page has at least one
    and at most five entries, every page but the last has five, and the
    entry shown at a position of a page is the entry of the list at
    that position counted from the number of the first item of the
    page.  The number of the last item of a page is four more than that
    of its first, so on a last page that is not full it is larger than
    the number of entries. *)
Theorem pages_partition (filtered : list Entry) :
  concat (map (fun page => pagedFilteredData (on_page page) filtered)
            (page_numbers (length filtered)))
  = filtered
  /\ forall page,
       1 <= page <= totalPages (length filtered) ->
       (1 <= length (pagedFilteredData (on_page page) filtered) <= 5)%nat
       /\ (page < totalPages (length filtered) ->
           length (pagedFilteredData (on_page page) filtered) = 5%nat)
       /\ Z.of_nat (length (pagedFilteredData (on_page page) filtered))
          = Z.min (pagingEndItem (on_page page)) (Z.of_nat (length filtered))
            - pagingStartItem (on_page page) + 1
       /\ forall i,
            (i < 5)%nat ->
            nth_error (pagedFilteredData (on_page page) filtered) i
            = nth_error filtered (Z.to_nat (pagingStartItem (on_page page)) - 1 + i).
Proof.
  set (n := length filtered).
  assert (T : 5 * (totalPages n - 1) < Z.of_nat n <= 5 * totalPages n).
  { unfold totalPages, pageSize.
    pose proof (Z.div_mod (Z.of_nat n + 5 - 1) 5 ltac:(lia)) as D.
    pose proof (Z.mod_pos_bound (Z.of_nat n + 5 - 1) 5 ltac:(lia)) as B. lia. }
  split.
  - unfold page_numbers. rewrite map_map.
    rewrite (map_ext _ (fun k => firstn 5 (skipn (5 * k) filtered)))
      by (intro k; apply page_slice).
    rewrite pages_concat. apply firstn_all2. fold n. lia.
  - intros page P.
    assert (E : exists k, page = Z.of_nat (S k)) by (exists (Z.to_nat (page - 1)); lia).
    destruct E as (k & ->). unfold on_page. rewrite page_slice.
    rewrite length_firstn, length_skipn. fold n.
    split; [lia|]. split; [lia|].
    split; [unfold pagingEndItem, pagingStartItem, pageSize; cbn [currentPage]; lia|].
    intros i I. rewrite nth_error_firstn.
    destruct (Nat.ltb_spec i 5) as [_|G]; [|lia].
    rewrite nth_error_skipn. f_equal.
    unfold pagingStartItem, pageSize. cbn [currentPage]. lia.
Qed.

(** X28.  The page stays among the pages of the list under the actions
    previous, next and first; a disabled button marks an action that
    changes nothing, and an enabled one an action that moves by one
    page.  The action last moves to the last page; on a list without
    entries it sets the page to zero, where no entry is shown and
    neither previous nor next changes the page. *)
Theorem paging_actions (p : Paging) (filtered : list Entry) :
  in_range p (length filtered) ->
  in_range (prevPage p) (length filtered)
  /\ in_range (nextPage p filtered) (length filtered)
  /\ in_range (firstPage p) (length filtered)
  /\ currentPage (prevPage p)
     = (if isPrevButtonsDisabled p then currentPage p else currentPage p - 1)
  /\ (filtered <> [] ->
      currentPage (nextPage p filtered)
      = (if isNextButtonDisabled p filtered then currentPage p else currentPage p + 1))
  /\ (filtered <> [] ->
      in_range (lastPage p filtered) (length filtered)
      /\ isNextButtonDisabled (lastPage p filtered) filtered = true)
  /\ (filtered = [] ->
      currentPage (lastPage p filtered) = 0
      /\ pagedFilteredData (lastPage p filtered) filtered = []
      /\ prevPage (lastPage p filtered) = lastPage p filtered
      /\ nextPage (lastPage p filtered) filtered = lastPage p filtered).
Proof.
  unfold in_range, prevPage, nextPage, firstPage, lastPage, isPrevButtonsDisabled,
    isNextButtonDisabled, set_page.
  set (n := length filtered).
  assert (T : filtered <> [] -> 1 <= totalPages n).
  { intro N. unfold totalPages, pageSize.
    assert (0 < n)%nat by (unfold n; destruct filtered; [contradiction | cbn; lia]).
    apply Z.div_le_lower_bound; lia. }
  assert (Z0 : filtered = [] -> totalPages n = 0).
  { intro E. unfold n. rewrite E. reflexivity. }
  assert (P0 : 0 <= totalPages n).
  { unfold totalPages, pageSize. apply Z.div_pos; lia. }
  intro R.
  split. { destruct (Z.ltb_spec 1 (currentPage p)); cbn [currentPage]; lia. }
  split. { destruct (Z.ltb_spec (currentPage p) (totalPages n)); cbn [currentPage]; lia. }
  split. { cbn [currentPage]. lia. }
  split.
  { destruct (Z.ltb_spec 1 (currentPage p)), (Z.eqb_spec (currentPage p) 1);
      cbn [currentPage]; lia. }
  split.
  { intro N. specialize (T N).
    destruct (Z.ltb_spec (currentPage p) (totalPages n)),
      (Z.eqb_spec (currentPage p) (totalPages n)); cbn [currentPage]; lia. }
  split.
  { intro N. specialize (T N). cbn [currentPage]. split; [lia | apply Z.eqb_refl]. }
  intro E. rewrite (Z0 E). cbn [currentPage filterValue].
  split; [reflexivity|]. subst filtered. repeat split.
Qed.

Lemma filter_entries_searchable (f : string) (pagingData : list Entry) :
  Forall (searchable_entry resultAsString) pagingData ->
  filter_entries resultAsString f pagingData
  = Return (filter (holds resultAsString f) pagingData).
Proof.
  induction 1 as [|entry rest S _ IH]; [reflexivity|].
  cbn [filter_entries filter]. unfold holds at 1. unfold searchable_entry in S.
  destruct (resultAsString entry) as [text|]; [|contradiction].
  rewrite IH. reflexivity.
Qed.

Lemma filter_entries_throws (f : string) (pagingData : list Entry) :
  Exists (fun entry => resultAsString entry = None) pagingData ->
  exists error, filter_entries resultAsString f pagingData = Throw error
                /\ name error = "TypeError"%string.
Proof.
  induction pagingData as [|entry rest IH]; intro E; [inversion E|].
  cbn [filter_entries].
  destruct (resultAsString entry) as [text|] eqn:R.
  - inversion E as [x l H|x l H]; subst; [congruence|].
    destruct (IH H) as (error & -> & N). exists error. split; [reflexivity | exact N].
  - eexists. split; reflexivity.
Qed.

(** X29.  Filtering always sets the page back to one and keeps the
    filter text.  A filter text that is empty or made of blanks gives
    the whole list.  Any other filter text is put in lower case and
    trimmed; then, when every entry has a search text, the result is
    the entries whose search text holds it, in list order, and when
    some entry has no search text the filter fails with a type error. *)
Theorem filteredPagingData_filter (p : Paging) (pagingData : list Entry) :
  let f := trim (toLowerCase (filterValue p)) in
  fst (filteredPagingData resultAsString p pagingData)
  = {| filterValue := filterValue p; currentPage := 1 |}
  /\ (f = EmptyString ->
      snd (filteredPagingData resultAsString p pagingData) = Return pagingData)
  /\ (f <> EmptyString ->
      (Forall (searchable_entry resultAsString) pagingData ->
       snd (filteredPagingData resultAsString p pagingData)
       = Return (filter (holds resultAsString f) pagingData))
      /\ (Exists (fun entry => resultAsString entry = None) pagingData ->
          exists error,
            snd (filteredPagingData resultAsString p pagingData) = Throw error
            /\ name error = "TypeError"%string)).
Proof.
  cbv zeta. unfold filteredPagingData, set_page. cbn [filterValue].
  assert (E : filterValue p = EmptyString -> trim (toLowerCase (filterValue p)) = EmptyString).
  { intros ->. reflexivity. }
  destruct (filterValue p) as [|c r] eqn:V; cbn [truthy].
  - split; [reflexivity|]. split; [reflexivity|]. intro N. exfalso. apply N. reflexivity.
  - clear E. destruct (trim (toLowerCase (String c r))) as [|c' r'] eqn:F; cbn [truthy fst snd].
    + split; [reflexivity|]. split; [reflexivity|]. intro N. contradiction.
    + split; [reflexivity|]. split; [discriminate|]. intros _.
      split; [apply filter_entries_searchable | apply filter_entries_throws].
Qed.

End Entries.

Section Libraries.

Variable dates : DateLibrary.
Variable get : Data.RowObject -> string -> option string.

(** X30.  The documents of a result that is not complete cannot be
    filtered: with a filter text that is not blank the filter fails
    with a type error on the status document, which has no search
    text.  The documents of a complete result, formatted with plans
    free of undefined entries, can: the filter returns for every
    filter text. *)
Theorem filter_on_formatted_result (g : Data.Globals) (queryResult : Data.QueryResult)
    (options : Data.Options) (p : Paging) :
  (forall plan, Data.cachedSummaryAttributes g = Some plan -> defined plan) ->
  (forall plan, Data.cachedDetailAttributes g = Some plan -> defined plan) ->
  title_defined g ->
  exists formatted,
    Lookup.formatQueryResult dates get g queryResult options = Return formatted
    /\ forall docs,
         details_results (details formatted) = Documents docs ->
         if Data.complete queryResult
         then exists kept,
                snd (filteredPagingData resultAsString p docs) = Return kept
         else trim (toLowerCase (filterValue p)) <> EmptyString ->
              exists error,
                snd (filteredPagingData resultAsString p docs) = Throw error
                /\ name error = "TypeError"%string.
Proof.
  intros S D T.
  destruct (LookupLaws.formatQueryResult_documents dates get g queryResult options S D T)
    as (formatted & R & C & I).
  exists formatted. split; [exact R|]. intros docs E.
  unfold filteredPagingData, set_page. cbn [filterValue].
  destruct (Data.complete queryResult).
  - specialize (C eq_refl). rewrite E in C.
    destruct (truthy (filterValue p)); [|eexists; reflexivity].
    destruct (truthy (trim (toLowerCase (filterValue p)))); [|eexists; reflexivity].
    cbn [snd]. eexists. apply filter_entries_searchable. exact C.
  - intro F. specialize (I eq_refl).
    destruct I as (document & I1 & I2). rewrite E in I1. inversion I1. subst docs.
    destruct (filterValue p) as [|c r]; [exfalso; apply F; reflexivity|].
    cbn [truthy].
    destruct (trim (toLowerCase (String c r))) as [|c' r']; [contradiction|].
    cbn [truthy snd]. apply filter_entries_throws. constructor. exact I2.
Qed.

End Libraries.

Lemma paging_actions_witness :
  currentPage (nextPage (on_page 1) [1; 2; 3; 4; 5; 6; 7]%nat) = 2.
Proof.
  destruct (paging_actions nat (on_page 1) [1; 2; 3; 4; 5; 6; 7]%nat)
    as (_ & _ & _ & _ & N & _).
  - unfold in_range. cbn. lia.
  - apply N. discriminate.
Defined.

Lemma filter_on_formatted_result_witness :
  exists formatted,
    Lookup.formatQueryResult Notions.sample Service.column Data.initial
      {| Data.results := None; Data.complete := false;
         Data.queryExecutionId := "execution-1"; Data.executionStats := None |}
      Notions.sample_options = Return formatted
    /\ forall docs,
         details_results (details formatted) = Documents docs ->
         trim (toLowerCase "x") <> EmptyString ->
         exists error,
           snd (filteredPagingData resultAsString
                  {| filterValue := "x"; currentPage := 1 |} docs) = Throw error
           /\ name error = "TypeError"%string.
Proof.
  apply (filter_on_formatted_result Notions.sample Service.column Data.initial
           {| Data.results := None; Data.complete := false;
              Data.queryExecutionId := "execution-1"; Data.executionStats := None |}
           Notions.sample_options {| filterValue := "x"; currentPage := 1 |}).
  - intros plan E. discriminate E.
  - intros plan E. discriminate E.
  - exact I.
Defined.

End ComponentLaws.
